(** * A shallow embedding of the EVM contract scanner

    The development follows the JavaScript sources:

    - [EthereumProvider]  (retry wrapper, block / receipt / code fetches,
      batch fetch),
    - [ContractDetector]  (per-block and per-transaction detection),
    - [Database]          (the SQLite tables [contracts] and
      [scanning_progress], written with INSERT OR REPLACE),
    - [BlockScanner]      (lifecycle flags, range resolution, the batched
      historical loop),
    - [MemoryMonitor] and [Logger] (array cleanup, the level threshold).

    Asynchronous code is sequentialised: an [await]ed promise is run to
    completion where it is awaited, and the promises of a [Promise.all] /
    [Promise.allSettled] are run in array order, except for the saves of one
    [saveContracts] call, which the SQLite driver executes and answers in an
    order of its own.  A rejected promise and a thrown exception are both
    [Throw].  Block numbers, gas figures and chain ids are mathematical
    integers ([Z]); strings are ASCII strings. *)

From Stdlib Require Import ZArith String Ascii Lia.
From stdpp Require Import base option list numbers sorting.

Local Open Scope string_scope.
Local Open Scope Z_scope.
Local Open Scope list_scope.

(** ** Results of fallible JavaScript computations *)

Definition JsError := string.

Inductive result (A : Type) : Type :=
  | Ok (a : A)
  | Throw (e : JsError).
Arguments Ok {A} a.
Arguments Throw {A} e.

Definition is_ok {A} (r : result A) : bool :=
  match r with Ok _ => true | Throw _ => false end.

Definition TypeError_not_a_function : JsError :=
  "TypeError: this.analyzeBytecode is not a function".
Definition TypeError_null_provider : JsError :=
  "TypeError: Cannot read properties of null".
Definition TypeError_undefined_message : JsError :=
  "TypeError: Cannot read properties of undefined (reading 'message')".
Definition TypeError_filter : JsError :=
  "TypeError: block.transactions.filter is not a function".

(** ** JavaScript string helpers *)

(** Truthiness of a possibly absent string: [null], [undefined] and the empty
    string are falsy. *)
Definition truthy_str (s : option string) : bool :=
  match s with
  | Some s => negb (String.eqb s "")
  | None => false
  end.

(** Truthiness of a possibly absent number: absent and [0] are falsy. *)
Definition truthy_num (n : option Z) : bool :=
  match n with
  | Some n => negb (n =? 0)
  | None => false
  end.

(** [s.includes(pat)] *)
Definition includes (pat s : string) : bool :=
  match pat with
  | EmptyString => true
  | _ => match String.index 0 pat s with Some _ => true | None => false end
  end.

Definition lower_ascii (c : ascii) : ascii :=
  let n := nat_of_ascii c in
  if ((65 <=? n) && (n <=? 90))%nat then ascii_of_nat (n + 32) else c.

(** [s.toLowerCase()] on ASCII strings. *)
Fixpoint toLowerCase (s : string) : string :=
  match s with
  | EmptyString => EmptyString
  | String c s' => String (lower_ascii c) (toLowerCase s')
  end.

(** [s.slice(-n)] *)
Definition slice_last (n : nat) (s : string) : string :=
  let len := String.length s in
  String.substring (len - n) n s.

Definition is_hex_digit (c : ascii) : bool :=
  let n := nat_of_ascii c in
  (((48 <=? n) && (n <=? 57)) || ((65 <=? n) && (n <=? 70))
   || ((97 <=? n) && (n <=? 102)))%nat.

Fixpoint all_hex (s : string) : bool :=
  match s with
  | EmptyString => true
  | String c s' => is_hex_digit c && all_hex s'
  end.

(** [s.match(/0x[a-fA-F0-9]{40}/)]: the leftmost occurrence of ["0x"] followed
    by forty hexadecimal digits, if any. *)
Fixpoint match_address (s : string) : option string :=
  match s with
  | EmptyString => None
  | String c s' =>
      let cand := String.substring 0 42 s in
      if (String.length cand =? 42)%nat
         && String.eqb (String.substring 0 2 cand) "0x"
         && all_hex (String.substring 2 40 cand)
      then Some cand
      else match_address s'
  end.

(** ** Chain data as the client returns it

    Fields that the code tests before use ([hash], [to], [data], [gasPrice],
    [status], [contractAddress], [gasUsed], a log's [address] and [data]) may
    be absent.  Fields that it reads without a test ([from], [logs],
    [topics], a block's [number], [hash] and [timestamp]) are present, as
    they are in the objects the ethers client builds. *)

Record Transaction := {
  tx_hash : option string;
  tx_to : option string;
  tx_from : string;
  tx_data : option string;
  tx_gasPrice : option Z;
}.

Record Log := {
  log_address : option string;
  log_topics : list string;
  log_data : option string;
}.

Record Receipt := {
  rc_status : option Z;
  rc_contractAddress : option string;
  rc_logs : list Log;
  rc_gasUsed : option Z;
}.

(** The [transactions] field of a block: absent, present but not an array, or
    an array whose elements may themselves be absent. *)
Inductive TxField :=
  | TxAbsent
  | TxNotArray
  | TxArray (txs : list (option Transaction)).

Record Block := {
  blk_number : Z;
  blk_hash : string;
  blk_timestamp : Z;
  blk_transactions : TxField;
}.

(** The block with its [transactions] field replaced. *)
Definition with_transactions (b : Block) (f : TxField) : Block :=
  {| blk_number := blk_number b; blk_hash := blk_hash b;
     blk_timestamp := blk_timestamp b; blk_transactions := f |}.

Record NetworkConfig := {
  net_name : string;
  net_chainId : Z;
  net_hasWsUrl : bool;
}.

Inductive CreationType := factory | create2.

(** The object built by [extractContractData]; [creationType] is only set on
    the factory and CREATE2 paths. *)
Record ContractRecord := {
  address : string;
  creatorAddress : string;
  transactionHash : option string;
  blockNumber : Z;
  blockHash : string;
  blockTimestamp : Z;
  gasUsed : option Z;
  gasPrice : option Z;
  contractSize : Z;
  bytecodeHash : string;
  network : string;
  chainId : Z;
  creationType : option CreationType;
}.

Definition set_creationType (t : CreationType) (c : ContractRecord)
  : ContractRecord :=
  {| address := address c; creatorAddress := creatorAddress c;
     transactionHash := transactionHash c; blockNumber := blockNumber c;
     blockHash := blockHash c; blockTimestamp := blockTimestamp c;
     gasUsed := gasUsed c; gasPrice := gasPrice c;
     contractSize := contractSize c; bytecodeHash := bytecodeHash c;
     network := network c; chainId := chainId c;
     creationType := Some t |}.

(** ** The world outside the process

    The node answers each request as a function of the request and of the
    attempt number (the [k]-th invocation of the operation handed to
    [withRetry]); the SQLite driver may report an error for a statement, and
    it runs the statements that are queued together in an order of its own,
    which [db_settle_rank] gives for the records of one [saveContracts] call
    (the record at the index with the lowest rank is written, and its callback
    run, first); the SHA-256 digest of the [crypto] module is a function on
    strings. *)
Record World := {
  rpc_getBlockNumber : nat -> result Z;
  rpc_getBlock : Z -> nat -> result (option Block);
  rpc_getTransactionReceipt : string -> nat -> result (option Receipt);
  rpc_getCode : string -> nat -> result (option string);
  rpc_chainId : Z;
  sha256_hex : string -> string;
  db_contract_fault : ContractRecord -> bool;
  db_progress_fault : Z -> bool;
  db_settle_rank : list ContractRecord -> nat -> Z;
}.

(** ** EthereumProvider *)

Module EthereumProvider.

(** Fields of the provider object that the scanner relies on. [http] is
    [this.provider] being non-null, [ws] is [this.wsProvider] being
    non-null. *)
Record t := {
  maxRetries : Z;
  retryDelay : Z;
  maxRetryDelay : Z;
  http : bool;
  ws : bool;
  isConnected : bool;
}.

Definition constructor (cfg_maxRetries : Z) : t :=
  {| maxRetries := cfg_maxRetries;
     retryDelay := 1000;
     maxRetryDelay := 30000;
     http := false; ws := false; isConnected := false |}.

(** What one call of [withRetry] did: its outcome, how many times the
    operation was invoked, and the delays it slept, oldest first. *)
Record RetryRun (A : Type) := {
  outcome : result A;
  attempts : nat;
  sleeps : list Z;
}.
Arguments outcome {A} _.
Arguments attempts {A} _.
Arguments sleeps {A} _.

Section Retry.
Context {A : Type}.
Variable p : t.
(** [operation k] is the outcome of the [k]-th invocation. *)
Variable operation : nat -> result A.

(** The [for (attempt = 0; attempt <= maxRetries; attempt++)] loop;
    [iters] is the number of iterations still to run. *)
Fixpoint retry_loop (iters : nat) (attempt : nat) (delay : Z)
    (lastError : option JsError) (slept : list Z) : RetryRun A :=
  match iters with
  | O =>
      {| outcome :=
           match lastError with
           | Some e => Throw e
           | None => Throw TypeError_undefined_message
           end;
         attempts := attempt;
         sleeps := slept |}
  | S iters' =>
      match operation attempt with
      | Ok a =>
          {| outcome := Ok a; attempts := S attempt; sleeps := slept |}
      | Throw e =>
          if Z.of_nat attempt <? maxRetries p
          then retry_loop iters' (S attempt)
                 (Z.min (delay * 2) (maxRetryDelay p))
                 (Some e) (slept ++ [delay])
          else retry_loop iters' (S attempt) delay (Some e) slept
      end
  end.

Definition withRetry_run : RetryRun A :=
  retry_loop (Z.to_nat (maxRetries p + 1)) 0 (retryDelay p) None [].

Definition withRetry : result A := outcome withRetry_run.
End Retry.

(** The delay slept before retry number [k + 1]. *)
Definition backoff (k : nat) : Z := Z.min (1000 * 2 ^ Z.of_nat k) 30000.

(** The comparator [(a, b) => a.blockNumber - b.blockNumber] as an order. *)
Definition by_blockNumber (a b : Z * option Block) : Prop := a.1 <= b.1.

#[global] Instance by_blockNumber_dec a b : Decision (by_blockNumber a b).
Proof. unfold by_blockNumber. apply _. Defined.

Section Calls.
Variable w : World.
Variable p : t.

(** An operation closes over [this.provider]; once that is [null] every
    invocation raises a TypeError. *)
Definition on_http {A} (op : nat -> result A) : nat -> result A :=
  if http p then op else fun _ => Throw TypeError_null_provider.

Definition getLatestBlockNumber : result Z :=
  withRetry p (on_http (rpc_getBlockNumber w)).

Definition getBlock (blockNumber : Z) : result (option Block) :=
  withRetry p (on_http (rpc_getBlock w blockNumber)).

Definition getTransactionReceipt (txHash : option string)
  : result (option Receipt) :=
  match txHash with
  | Some h =>
      if truthy_str txHash
      then withRetry p (on_http (rpc_getTransactionReceipt w h))
      else Throw "Invalid transaction hash"
  | None => Throw "Invalid transaction hash"
  end.

Definition getCode (addr : string) : result (option string) :=
  withRetry p (on_http (rpc_getCode w addr)).

Definition isContractCreation (tx : Transaction) : bool :=
  match tx_to tx with None => true | Some _ => false end.

Definition isContract (addr : string) : bool :=
  match getCode addr with
  | Ok code =>
      match code with
      | Some c => negb (String.eqb c "0x")
      | None => true
      end
  | Throw _ => false
  end.

(** One settled promise of [getBatchBlocks]. *)
Definition fetch_one (blockNumber : Z) : Z * result (option Block) :=
  (blockNumber, getBlock blockNumber).

Definition fulfilled (r : Z * result (option Block))
  : option (Z * option Block) :=
  match r.2 with
  | Ok b => Some (r.1, b)
  | Throw _ => None
  end.

(** The part of [getBatchBlocks] after [Promise.allSettled]: keep the
    fulfilled results and sort them by block number. *)
Definition collect_settled (results : list (Z * result (option Block)))
  : list (Z * option Block) :=
  merge_sort by_blockNumber (omap fulfilled results).

(** The fulfilled fetches of a list of block numbers, in the list's order. *)
Definition fetched_blocks (ns : list Z) : list (Z * option Block) :=
  omap (fun n => fulfilled (fetch_one n)) ns.

Definition getBatchBlocks (startBlock endBlock : Z)
  : result (list (Z * option Block)) :=
  Ok (collect_settled
        (fetch_one <$> seqZ startBlock (endBlock - startBlock + 1))).
End Calls.

End EthereumProvider.


(** ** ContractDetector *)

Module ContractDetector.

(** The detector's own fields.  Its [provider] field aliases the scanner's
    provider object, so the provider is passed to each function instead of
    being copied here.  [analyzeBytecode] is the boolean copied from the
    configuration by the constructor. *)
Record t := {
  networkConfig : NetworkConfig;
  analyzeBytecode : bool;
}.

Definition constructor (net : NetworkConfig) (cfg_analyzeBytecode : bool) : t :=
  {| networkConfig := net; analyzeBytecode := cfg_analyzeBytecode |}.

Definition contractCreationTopics : list string :=
  [ "0x4db17dd5e4732fb6da34a148104a592783ca119a1e7bb8829eba6cbadef0b511";
    "0x27b8e3132afa95254770e1c1d214eafde52bc47d1b6e1f5dfcb2d2c3c8b9f8c1";
    "0x8be0079c531659141344cd1fd0a4f28419497f9722a3daafe3b4186f6b6457e0" ].

(** [contractCreationTopics.includes(log.topics[0])] *)
Definition is_creation_topic (l : Log) : bool :=
  match log_topics l with
  | t0 :: _ => existsb (String.eqb t0) contractCreationTopics
  | [] => false
  end.

Definition extractAddressFromLog (l : Log) : option string :=
  let from_data :=
    match log_data l with
    | Some data =>
        if truthy_str (Some data) && (66 <=? String.length data)%nat
        then match_address data
        else None
    | None => None
    end in
  match log_topics l with
  | _ :: topic :: _ =>
      if truthy_str (Some topic) && (String.length topic =? 66)%nat
      then Some ("0x" ++ slice_last 40 topic)%string
      else from_data
  | _ => from_data
  end.

(** *** Bytecode analysis *)

Definition proxyPatterns : list string :=
  [ "363d3d373d3d3d363d73"; "3d602d80600a3d3981f3"; "36603057343d52307f" ].

Definition detectProxyPattern (bytecode : string) : bool :=
  existsb (fun pattern => includes pattern bytecode) proxyPatterns.

Definition factoryPatterns : list string := [ "f0"; "f5" ].

Definition detectFactoryPattern (bytecode : string) : bool :=
  existsb (fun pattern => includes pattern bytecode) factoryPatterns.

(** [s.match(re)] with the global flag, counted: the matches are taken from
    left to right and do not overlap.  [at_start] tells whether the pattern,
    which always spans [width] characters, matches at the start of a string;
    [skip] is the number of characters still covered by the last match. *)
Fixpoint count_matches (at_start : string -> bool) (width : nat) (skip : nat)
    (s : string) : nat :=
  match s with
  | EmptyString => 0%nat
  | String c s' =>
      match skip with
      | S k => count_matches at_start width k s'
      | O =>
          if at_start s
          then S (count_matches at_start width (width - 1) s')
          else count_matches at_start width 0 s'
      end
  end.

(** [/63[a-fA-F0-9]{8}/] anchored at the start of [s]. *)
Definition selector_at (s : string) : bool :=
  let cand := String.substring 0 10 s in
  (String.length cand =? 10)%nat
  && String.eqb (String.substring 0 2 cand) "63"
  && all_hex (String.substring 2 8 cand).

(** [/a[0-4][a-fA-F0-9]{62}/] anchored at the start of [s]. *)
Definition log_topic_at (s : string) : bool :=
  let cand := String.substring 0 64 s in
  (String.length cand =? 64)%nat
  && String.eqb (String.substring 0 1 cand) "a"
  && existsb (String.eqb (String.substring 1 1 cand)) ["0"; "1"; "2"; "3"; "4"]
  && all_hex (String.substring 2 62 cand).

(** The object built by [analyzeContractBytecode]. *)
Record ContractAnalysis := {
  an_contractAddress : string;
  an_bytecodeSize : Z;
  an_isProxy : bool;
  an_isFactory : bool;
  an_hasFallback : bool;
  an_hasReceive : bool;
  an_functionCount : nat;
  an_eventCount : nat;
  an_analysisVersion : string;
}.

(** No step of the [try] block can raise on strings, so the [catch] clause
    answering [null] is never taken. *)
Definition analyzeContractBytecode (bytecode contractAddress : string)
  : option ContractAnalysis :=
  Some
    {| an_contractAddress := toLowerCase contractAddress;
       an_bytecodeSize := (Z.of_nat (String.length bytecode) - 2) / 2;
       an_isProxy := detectProxyPattern bytecode;
       an_isFactory := detectFactoryPattern bytecode;
       an_hasFallback :=
         includes "6080604052" bytecode || includes "6060604052" bytecode;
       an_hasReceive :=
         includes "80156100" bytecode || includes "361561" bytecode;
       an_functionCount := count_matches selector_at 10 0 bytecode;
       an_eventCount := count_matches log_topic_at 64 0 bytecode;
       an_analysisVersion := "1.0" |}.

Definition option_string_eqb (a b : option string) : bool :=
  match a, b with
  | Some x, Some y => String.eqb x y
  | None, None => true
  | _, _ => false
  end.

Section Detect.
Variable w : World.
Variable p : EthereumProvider.t.
Variable d : t.

(** The [try] block of [extractContractData].  With [analyzeBytecode] set,
    the call [this.analyzeBytecode(bytecode, contractAddress)] applies the
    boolean field (the analysis method is named [analyzeContractBytecode])
    and raises a TypeError. *)
Definition extractContractData_try (tx : Transaction) (receipt : Receipt)
    (block : Block) (contractAddress : string)
  : result (option ContractRecord) :=
  match EthereumProvider.getCode w p contractAddress with
  | Throw e => Throw e
  | Ok bytecode =>
      match bytecode with
      | None => Ok None
      | Some code =>
          if negb (truthy_str bytecode) || String.eqb code "0x"
          then Ok None
          else
            let contractData :=
              {| address := toLowerCase contractAddress;
                 creatorAddress := toLowerCase (tx_from tx);
                 transactionHash := tx_hash tx;
                 blockNumber := blk_number block;
                 blockHash := blk_hash block;
                 blockTimestamp := blk_timestamp block;
                 gasUsed :=
                   if truthy_num (rc_gasUsed receipt)
                   then rc_gasUsed receipt else None;
                 gasPrice :=
                   if truthy_num (tx_gasPrice tx)
                   then tx_gasPrice tx else None;
                 contractSize := (Z.of_nat (String.length code) - 2) / 2;
                 bytecodeHash := sha256_hex w code;
                 network := net_name (networkConfig d);
                 chainId := net_chainId (networkConfig d);
                 creationType := None |} in
            if analyzeBytecode d
            then Throw TypeError_not_a_function
            else Ok (Some contractData)
      end
  end.

Definition extractContractData (tx : Transaction) (receipt : Receipt)
    (block : Block) (contractAddress : string) : option ContractRecord :=
  match extractContractData_try tx receipt block contractAddress with
  | Ok r => r
  | Throw _ => None
  end.

Definition detectCreate2Contracts (tx : Transaction) (receipt : Receipt)
    (block : Block) : list ContractRecord :=
  match tx_data tx with
  | Some data =>
      if includes "f5" data
      then
        flat_map
          (fun l : Log =>
             match log_address l with
             | Some a =>
                 if truthy_str (Some a)
                    && negb (option_string_eqb (Some a) (tx_to tx))
                    && EthereumProvider.isContract w p a
                 then
                   match extractContractData tx receipt block a with
                   | Some contractData =>
                       [set_creationType create2 contractData]
                   | None => []
                   end
                 else []
             | None => []
             end)
          (rc_logs receipt)
      else []
  | None => []
  end.

(** The records pushed for one log by the loop of [detectFactoryContracts]. *)
Definition factory_from_log (tx : Transaction) (receipt : Receipt)
    (block : Block) (l : Log) : list ContractRecord :=
  if is_creation_topic l
  then
    match extractAddressFromLog l with
    | Some contractAddress =>
        if truthy_str (Some contractAddress)
           && EthereumProvider.isContract w p contractAddress
        then
          match extractContractData tx receipt block contractAddress with
          | Some contractData => [set_creationType factory contractData]
          | None => []
          end
        else []
    | None => []
    end
  else [].

Definition detectFactoryContracts (receipt : Receipt) (tx : Transaction)
    (block : Block) : list ContractRecord :=
  flat_map (factory_from_log tx receipt block) (rc_logs receipt)
  ++ match tx_data tx with
     | Some data =>
         if truthy_str (Some data) && (10 <? Z.of_nat (String.length data))
         then detectCreate2Contracts tx receipt block
         else []
     | None => []
     end.

(** The [try] block of [processTransaction]; [Ok None] is [return null]. *)
Definition processTransaction_try (transaction : option Transaction)
    (block : Block) : result (option (list ContractRecord)) :=
  match transaction with
  | None => Ok None
  | Some tx =>
      if negb (truthy_str (tx_hash tx)) then Ok None
      else if negb (EthereumProvider.isContractCreation tx) then Ok None
      else
        match EthereumProvider.getTransactionReceipt w p (tx_hash tx) with
        | Throw e => Throw e
        | Ok None => Ok None
        | Ok (Some receipt) =>
            if negb (bool_decide (rc_status receipt = Some 1)) then Ok None
            else
              let primary :=
                match rc_contractAddress receipt with
                | Some a =>
                    if truthy_str (Some a)
                    then
                      match extractContractData tx receipt block a with
                      | Some contractData => [contractData]
                      | None => []
                      end
                    else []
                | None => []
                end in
              Ok (Some (primary ++ detectFactoryContracts receipt tx block))
        end
  end.

Definition processTransaction (transaction : option Transaction)
    (block : Block) : result (option (list ContractRecord)) :=
  match processTransaction_try transaction block with
  | Ok r => Ok r
  | Throw _ => Ok None
  end.

(** The filter callback of [processBlock]. *)
Definition valid_transaction (tx : option Transaction) : bool :=
  match tx with
  | Some tx => truthy_str (tx_hash tx)
  | None => false
  end.

(** One element of [results]: [processTransaction(tx, block).catch(...)]. *)
Definition transaction_result (block : Block) (tx : option Transaction)
  : option (list ContractRecord) :=
  match processTransaction tx block with
  | Ok r => r
  | Throw _ => None
  end.

(** What one entry of [results] adds to [contracts]. *)
Definition pushed (r : option (list ContractRecord)) : list ContractRecord :=
  match r with
  | Some l => l
  | None => []
  end.

(** The [try] block of [processBlock]. *)
Definition processBlock_try (block : option Block)
  : result (list ContractRecord) :=
  match block with
  | None => Ok []
  | Some b =>
      match blk_transactions b with
      | TxAbsent => Ok []
      | TxNotArray => Throw TypeError_filter
      | TxArray txs =>
          let validTransactions := List.filter valid_transaction txs in
          let results := List.map (transaction_result b) validTransactions in
          Ok (flat_map pushed results)
      end
  end.

(** [processBlock]: the [catch] clause returns [contracts], which is still
    empty whenever the [try] block raises. *)
Definition processBlock (block : option Block) : result (list ContractRecord) :=
  match processBlock_try block with
  | Ok contracts => Ok contracts
  | Throw _ => Ok []
  end.

End Detect.

End ContractDetector.

(** ** Database

    The two tables the scanner writes, as lists of rows in insertion order.
    A statement on a handle that was closed is answered with an error by the
    driver. *)

Module Database.

(** A row of the [contracts] table (the timestamp columns are left out). *)
Record ContractRow := {
  c_id : Z;
  c_address : string;
  c_creator_address : string;
  c_transaction_hash : string;
  c_block_number : Z;
  c_block_hash : string;
  c_block_timestamp : Z;
  c_gas_used : option Z;
  c_gas_price : option Z;
  c_contract_size : Z;
  c_bytecode_hash : string;
  c_network : string;
  c_chain_id : Z;
}.

Inductive ScanMode := realtime | historical | both | other_mode.

(** A row of the [scanning_progress] table. *)
Record ProgressRow := {
  p_id : Z;
  p_network : string;
  last_scanned_block : Z;
  p_scan_mode : ScanMode;
}.

Record t := {
  isInitialized : bool;
  closed : bool;
  contracts : list ContractRow;
  contracts_seq : Z;
  scanning_progress : list ProgressRow;
  progress_seq : Z;
}.

(** A freshly initialised database with empty tables. *)
Definition initialized : t :=
  {| isInitialized := true; closed := false;
     contracts := []; contracts_seq := 0;
     scanning_progress := []; progress_seq := 0 |}.

Definition with_contracts (rows : list ContractRow) (seq : Z) (db : t) : t :=
  {| isInitialized := isInitialized db; closed := closed db;
     contracts := rows; contracts_seq := seq;
     scanning_progress := scanning_progress db;
     progress_seq := progress_seq db |}.

Definition with_progress (rows : list ProgressRow) (seq : Z) (db : t) : t :=
  {| isInitialized := isInitialized db; closed := closed db;
     contracts := contracts db; contracts_seq := contracts_seq db;
     scanning_progress := rows; progress_seq := seq |}.

(** The bound parameters of the INSERT in [saveContract]; [transaction_hash]
    is a NOT NULL column. *)
Definition contract_row (id : Z) (c : ContractRecord) : option ContractRow :=
  match transactionHash c with
  | Some h =>
      Some {| c_id := id;
              c_address := address c;
              c_creator_address := creatorAddress c;
              c_transaction_hash := h;
              c_block_number := blockNumber c;
              c_block_hash := blockHash c;
              c_block_timestamp := blockTimestamp c;
              c_gas_used := gasUsed c;
              c_gas_price := gasPrice c;
              c_contract_size := contractSize c;
              c_bytecode_hash := bytecodeHash c;
              c_network := network c;
              c_chain_id := chainId c |}
  | None => None
  end.

(** INSERT OR REPLACE INTO contracts: [address] is the only UNIQUE column
    besides the generated [id], so the rows with the new row's address are
    deleted and the new row is appended under the next id. *)
Definition insert_or_replace_contract (row : ContractRow) (db : t) : t :=
  with_contracts
    (List.filter (fun r => negb (String.eqb (c_address r) (c_address row)))
       (contracts db) ++ [row])
    (contracts_seq db + 1) db.

Definition saveContract (w : World) (contractData : ContractRecord) (db : t)
  : result unit * t :=
  if negb (isInitialized db) then (Throw "Database not initialized", db)
  else if closed db then (Throw "SQLITE_MISUSE: Database is closed", db)
  else if db_contract_fault w contractData then (Throw "SQLITE_ERROR", db)
  else
    match contract_row (contracts_seq db + 1) contractData with
    | Some row => (Ok tt, insert_or_replace_contract row db)
    | None => (Throw "SQLITE_CONSTRAINT: NOT NULL constraint failed", db)
    end.

(** The statements of one [saveContracts] call are handed to the driver
    together, one [db.run] per record in array order, and the handle is in
    the driver's default parallel mode: they are executed, and their
    callbacks run, in the order of their ranks.  The ranks are a function of
    the call's records, so every order of one call's saves is covered; that
    two calls with the same records are given the same order is relied on
    nowhere. *)
Definition by_rank (rank : nat -> Z) (a b : nat * ContractRecord) : Prop :=
  rank a.1 <= rank b.1.

#[global] Instance by_rank_dec rank a b : Decision (by_rank rank a b).
Proof. unfold by_rank. apply _. Defined.

Definition settle_order (w : World) (contracts : list ContractRecord)
  : list ContractRecord :=
  (merge_sort (by_rank (db_settle_rank w contracts))
     (zip (seq 0 (length contracts)) contracts)).*2.

(** INSERT OR REPLACE INTO scanning_progress, with the unique index on
    [network]. *)
Definition updateScanningProgress (w : World) (net : string)
    (lastScannedBlock : Z) (scanMode : ScanMode) (db : t) : result unit * t :=
  if negb (isInitialized db) then (Throw "Database not initialized", db)
  else if closed db then (Throw "SQLITE_MISUSE: Database is closed", db)
  else if db_progress_fault w lastScannedBlock then (Throw "SQLITE_ERROR", db)
  else
    (Ok tt,
     with_progress
       (List.filter (fun r => negb (String.eqb (p_network r) net))
          (scanning_progress db)
        ++ [ {| p_id := progress_seq db + 1; p_network := net;
                last_scanned_block := lastScannedBlock;
                p_scan_mode := scanMode |} ])
       (progress_seq db + 1) db).

(** SELECT * FROM scanning_progress WHERE network = ? (first row, if any). *)
Definition getScanningProgress (net : string) (db : t)
  : result (option ProgressRow) :=
  if negb (isInitialized db) then Throw "Database not initialized"
  else if closed db then Throw "SQLITE_MISUSE: Database is closed"
  else Ok (List.find (fun r => String.eqb (p_network r) net)
             (scanning_progress db)).

(** SELECT ... FROM contracts WHERE address = ? *)
Definition rows_with_address (a : string) (db : t) : list ContractRow :=
  List.filter (fun r => String.eqb (c_address r) a) (contracts db).

(** The rows stored for an (address, network) pair. *)
Definition rows_for (a net : string) (db : t) : list ContractRow :=
  List.filter
    (fun r => String.eqb (c_address r) a && String.eqb (c_network r) net)
    (contracts db).

(** A row of the [contract_analysis] table.  The table has no UNIQUE column
    besides the generated [id], and SQLite does not enforce the foreign key
    on [contract_address] unless asked to. *)
Record AnalysisRow := {
  ar_id : Z;
  ar_contract_address : string;
  ar_bytecode_size : Z;
  ar_is_proxy : bool;
  ar_is_factory : bool;
  ar_has_fallback : bool;
  ar_has_receive : bool;
  ar_function_count : nat;
  ar_event_count : nat;
  ar_analysis_version : string;
}.

Record AnalysisTable := {
  contract_analysis : list AnalysisRow;
  analysis_seq : Z;
}.

Definition no_analysis : AnalysisTable :=
  {| contract_analysis := []; analysis_seq := 0 |}.

(** [saveContractAnalysis]; [driver_error] tells whether the driver reports
    an error for the statement.  INSERT OR REPLACE finds no row to replace,
    so the new row is appended. *)
Definition saveContractAnalysis (driver_error : bool)
    (analysisData : ContractDetector.ContractAnalysis) (db : t)
    (tbl : AnalysisTable) : result unit * AnalysisTable :=
  if negb (isInitialized db) then (Throw "Database not initialized", tbl)
  else if closed db then (Throw "SQLITE_MISUSE: Database is closed", tbl)
  else if driver_error then (Throw "SQLITE_ERROR", tbl)
  else
    (Ok tt,
     {| contract_analysis :=
          contract_analysis tbl
          ++ [ {| ar_id := analysis_seq tbl + 1;
                  ar_contract_address :=
                    ContractDetector.an_contractAddress analysisData;
                  ar_bytecode_size :=
                    ContractDetector.an_bytecodeSize analysisData;
                  ar_is_proxy := ContractDetector.an_isProxy analysisData;
                  ar_is_factory := ContractDetector.an_isFactory analysisData;
                  ar_has_fallback :=
                    ContractDetector.an_hasFallback analysisData;
                  ar_has_receive :=
                    ContractDetector.an_hasReceive analysisData;
                  ar_function_count :=
                    ContractDetector.an_functionCount analysisData;
                  ar_event_count :=
                    ContractDetector.an_eventCount analysisData;
                  ar_analysis_version :=
                    if truthy_str
                         (Some (ContractDetector.an_analysisVersion
                                  analysisData))
                    then ContractDetector.an_analysisVersion analysisData
                    else "1.0" |} ];
        analysis_seq := analysis_seq tbl + 1 |}).

(** The analysis rows stored for a contract address. *)
Definition analysis_of (a : string) (tbl : AnalysisTable) : list AnalysisRow :=
  List.filter (fun r => String.eqb (ar_contract_address r) a)
    (contract_analysis tbl).

Definition close (db : t) : t :=
  {| isInitialized := isInitialized db; closed := true;
     contracts := contracts db; contracts_seq := contracts_seq db;
     scanning_progress := scanning_progress db;
     progress_seq := progress_seq db |}.

End Database.


(** ** BlockScanner *)

Module BlockScanner.

(** A configured block bound: the keyword ['latest'] or a number. *)
Inductive BlockRef := latest | block (n : Z).

Record ScannerConfig := {
  scanMode : Database.ScanMode;
  startBlock : BlockRef;
  endBlock : BlockRef;
  batchSize : Z;
  batchDelay : Z;
  maxRetries : Z;
  analyzeBytecode : bool;
}.

Record Stats := {
  blocksProcessed : Z;
  contractsFound : Z;
  errors : Z;
}.

(** Effects of a scan, in the order in which they happen. *)
Inductive Event :=
  | EvFetch (n : Z)
  | EvDetected (n : Z) (found : list ContractRecord)
  | EvSaved (c : ContractRecord)
  | EvSaveFailed (c : ContractRecord)
  | EvCheckpoint (n : Z)
  | EvSleep (ms : Z)
  | EvSubscribed.

(** The scanner object after [initialize] has filled in its provider,
    detector and database.  [trace] records the effects performed so far. *)
Record t := {
  networkConfig : NetworkConfig;
  scannerConfig : ScannerConfig;
  provider : EthereumProvider.t;
  detector : ContractDetector.t;
  database : Database.t;
  isRunning : bool;
  isPaused : bool;
  currentBlock : option Z;
  stats : Stats;
  trace : list Event;
}.

Definition with_provider (p : EthereumProvider.t) (s : t) : t :=
  {| networkConfig := networkConfig s; scannerConfig := scannerConfig s;
     provider := p; detector := detector s; database := database s;
     isRunning := isRunning s; isPaused := isPaused s;
     currentBlock := currentBlock s; stats := stats s; trace := trace s |}.

Definition with_database (db : Database.t) (s : t) : t :=
  {| networkConfig := networkConfig s; scannerConfig := scannerConfig s;
     provider := provider s; detector := detector s; database := db;
     isRunning := isRunning s; isPaused := isPaused s;
     currentBlock := currentBlock s; stats := stats s; trace := trace s |}.

Definition with_flags (running paused : bool) (s : t) : t :=
  {| networkConfig := networkConfig s; scannerConfig := scannerConfig s;
     provider := provider s; detector := detector s; database := database s;
     isRunning := running; isPaused := paused;
     currentBlock := currentBlock s; stats := stats s; trace := trace s |}.

Definition with_currentBlock (n : option Z) (s : t) : t :=
  {| networkConfig := networkConfig s; scannerConfig := scannerConfig s;
     provider := provider s; detector := detector s; database := database s;
     isRunning := isRunning s; isPaused := isPaused s;
     currentBlock := n; stats := stats s; trace := trace s |}.

Definition with_stats (st : Stats) (s : t) : t :=
  {| networkConfig := networkConfig s; scannerConfig := scannerConfig s;
     provider := provider s; detector := detector s; database := database s;
     isRunning := isRunning s; isPaused := isPaused s;
     currentBlock := currentBlock s; stats := st; trace := trace s |}.

Definition log (evs : list Event) (s : t) : t :=
  {| networkConfig := networkConfig s; scannerConfig := scannerConfig s;
     provider := provider s; detector := detector s; database := database s;
     isRunning := isRunning s; isPaused := isPaused s;
     currentBlock := currentBlock s; stats := stats s;
     trace := trace s ++ evs |}.

Definition count_error (s : t) : t :=
  with_stats {| blocksProcessed := blocksProcessed (stats s);
                contractsFound := contractsFound (stats s);
                errors := errors (stats s) + 1 |} s.

Definition count_block (s : t) : t :=
  with_stats {| blocksProcessed := blocksProcessed (stats s) + 1;
                contractsFound := contractsFound (stats s);
                errors := errors (stats s) |} s.

Definition count_contracts (n : Z) (s : t) : t :=
  with_stats {| blocksProcessed := blocksProcessed (stats s);
                contractsFound := contractsFound (stats s) + n;
                errors := errors (stats s) |} s.

(** A computation on the scanner object that may throw. *)
Definition M (A : Type) : Type := t -> result A * t.

(** [await Promise.all(ps)], with the promises run in array order: every
    promise runs, and the first rejection, if any, is the outcome. *)
Fixpoint promise_all (ps : list (M unit)) : M unit :=
  fun s =>
    match ps with
    | [] => (Ok tt, s)
    | p :: ps' =>
        let (r, s1) := p s in
        let (r', s2) := promise_all ps' s1 in
        (match r with Throw e => Throw e | Ok _ => r' end, s2)
    end.


Section Scan.
Variable w : World.

(** One callback of the [contracts.map] in [saveContracts]: a failed save is
    logged and answered with [false]. *)
Definition save_one (s : t) (contract : ContractRecord) : t :=
  match Database.saveContract w contract (database s) with
  | (Ok _, db') => log [EvSaved contract] (with_database db' s)
  | (Throw _, db') => log [EvSaveFailed contract] (with_database db' s)
  end.

(** [saveContracts]: the callbacks are started together and [Promise.all]
    waits until each has answered [true] or [false]; the saves take effect
    and are answered in the driver's order. *)
Definition saveContracts (contracts : list ContractRecord) : M unit :=
  fun s =>
    (Ok tt, fold_left save_one (Database.settle_order w contracts) s).

Definition processBlock (blk : option Block) : M unit :=
  fun s =>
    match blk with
    | None => (Ok tt, s)
    | Some b =>
        let s1 := with_currentBlock (Some (blk_number b)) s in
        match ContractDetector.processBlock w (provider s1) (detector s1)
                (Some b) with
        | Throw e => (Throw e, count_error s1)
        | Ok contracts =>
            let s2 := log [EvDetected (blk_number b) contracts] s1 in
            if (0 <? length contracts)%nat
            then
              match saveContracts contracts s2 with
              | (Ok _, s3) =>
                  (Ok tt,
                   count_block
                     (count_contracts (Z.of_nat (length contracts)) s3))
              | (Throw e, s3) => (Throw e, count_error s3)
              end
            else (Ok tt, count_block s2)
        end
    end.

Definition processBatch (startBlk endBlk : Z) : M unit :=
  fun s =>
    let s1 := log (EvFetch <$> seqZ startBlk (endBlk - startBlk + 1)) s in
    match EthereumProvider.getBatchBlocks w (provider s) startBlk endBlk with
    | Throw e => (Throw e, s1)
    | Ok blockResults =>
        promise_all
          (List.map (fun r : Z * option Block => processBlock r.2)
             blockResults) s1
    end.

(** The body of the [for] loop in [scanBlockRange], after the pause check. *)
Definition scan_batch (currentStart currentEnd : Z) (s : t) : t :=
  match processBatch currentStart currentEnd s with
  | (Throw _, s1) => count_error s1
  | (Ok _, s1) =>
      match Database.updateScanningProgress w (net_name (networkConfig s1))
              currentEnd (scanMode (scannerConfig s1)) (database s1) with
      | (Throw _, db') => count_error (with_database db' s1)
      | (Ok _, db') =>
          let s2 := log [EvCheckpoint currentEnd] (with_database db' s1) in
          if 0 <? batchDelay (scannerConfig s2)
          then log [EvSleep (batchDelay (scannerConfig s2))] s2
          else s2
      end
  end.

(** The [for] loop of [scanBlockRange]. [None] means that [fuel] iterations
    were not enough to leave the loop. *)
Fixpoint scan_loop (fuel : nat) (currentStart endBlk : Z) (s : t) : option t :=
  if currentStart <=? endBlk
  then
    match fuel with
    | O => None
    | S fuel' =>
        if negb (isRunning s) || isPaused s
        then Some s
        else
          let size := batchSize (scannerConfig s) in
          let currentEnd := Z.min (currentStart + size - 1) endBlk in
          scan_loop fuel' (currentStart + size) endBlk
            (scan_batch currentStart currentEnd s)
    end
  else Some s.

Definition scanBlockRange (fuel : nat) (startBlk endBlk : Z) (s : t)
  : option (result unit * t) :=
  match scan_loop fuel startBlk endBlk s with
  | Some s' => Some (Ok tt, s')
  | None => None
  end.

Definition resolve (r : BlockRef) (latestBlock : Z) : Z :=
  match r with
  | latest => latestBlock
  | block n => n
  end.

Definition determineBlockRange (s : t) : result (Z * Z) :=
  match EthereumProvider.getLatestBlockNumber w (provider s) with
  | Throw e => Throw e
  | Ok latestBlock =>
      let startBlk := resolve (startBlock (scannerConfig s)) latestBlock in
      let endBlk := resolve (endBlock (scannerConfig s)) latestBlock in
      match Database.getScanningProgress (net_name (networkConfig s))
              (database s) with
      | Throw e => Throw e
      | Ok progress =>
          let startBlk :=
            match progress with
            | Some row =>
                if truthy_num (Some (Database.last_scanned_block row))
                then Z.max startBlk (Database.last_scanned_block row + 1)
                else startBlk
            | None => startBlk
            end in
          if endBlk <? startBlk
          then Throw "Invalid block range"
          else Ok (startBlk, endBlk)
      end
  end.

Definition startHistoricalScanning (fuel : nat) (s : t)
  : option (result unit * t) :=
  match determineBlockRange s with
  | Throw e => Some (Throw e, s)
  | Ok (startBlk, endBlk) => scanBlockRange fuel startBlk endBlk s
  end.

(** [provider.onNewBlock] throws when no WebSocket provider exists. *)
Definition startRealtimeScanning : M unit :=
  fun s =>
    if EthereumProvider.ws (provider s)
    then (Ok tt, log [EvSubscribed] s)
    else (Throw "WebSocket provider not initialized", s).

(** The callback registered by [startRealtimeScanning]. *)
Definition onNewBlock (blk : option Block) : M unit :=
  fun s =>
    if negb (isRunning s) || isPaused s then (Ok tt, s)
    else processBlock blk s.

Definition startBothModes (fuel : nat) (s : t) : option (result unit * t) :=
  match startHistoricalScanning fuel s with
  | Some (Ok _, s1) => Some (startRealtimeScanning s1)
  | other => other
  end.

(** The state in which [start] first yields to the event loop: the call is
    refused only when [isRunning] is already set. *)
Definition start_entered (s : t) : t :=
  if isRunning s then s else with_flags true (isPaused s) s.

Definition start (fuel : nat) (s : t) : option (result unit * t) :=
  if isRunning s then Some (Ok tt, s)
  else
    let s1 := start_entered s in
    let run :=
      match scanMode (scannerConfig s1) with
      | Database.realtime => Some (startRealtimeScanning s1)
      | Database.historical => startHistoricalScanning fuel s1
      | Database.both => startBothModes fuel s1
      | Database.other_mode => Some (Throw "Invalid scan mode", s1)
      end in
    match run with
    | Some (Ok _, s2) => Some (Ok tt, s2)
    | Some (Throw e, s2) => Some (Throw e, with_flags false (isPaused s2) s2)
    | None => None
    end.

Definition pause (s : t) : t :=
  if negb (isRunning s) then s else with_flags (isRunning s) true s.

Definition resume (s : t) : t :=
  if negb (isRunning s) then s else with_flags (isRunning s) false s.

(** [provider.disconnect()], with [wsProvider.destroy()] completing without
    an exception. *)
Definition disconnect (p : EthereumProvider.t) : EthereumProvider.t :=
  {| EthereumProvider.maxRetries := EthereumProvider.maxRetries p;
     EthereumProvider.retryDelay := EthereumProvider.retryDelay p;
     EthereumProvider.maxRetryDelay := EthereumProvider.maxRetryDelay p;
     EthereumProvider.http := false;
     EthereumProvider.ws := false;
     EthereumProvider.isConnected := false |}.

Definition stop (s : t) : t :=
  if negb (isRunning s) then s
  else
    let s1 := with_flags false false s in
    let s2 := with_provider (disconnect (provider s1)) s1 in
    with_database (Database.close (database s2)) s2.



End Scan.

(** Projections of a trace. *)
Definition fetched (tr : list Event) : list Z :=
  omap (fun ev => match ev with EvFetch n => Some n | _ => None end) tr.

Definition processed (tr : list Event) : list Z :=
  omap (fun ev => match ev with EvDetected n _ => Some n | _ => None end) tr.

Definition checkpoints (tr : list Event) : list Z :=
  omap (fun ev => match ev with EvCheckpoint n => Some n | _ => None end) tr.

Definition detected (tr : list Event) : list ContractRecord :=
  flat_map (fun ev => match ev with EvDetected _ l => l | _ => [] end) tr.

Definition saved (tr : list Event) : list ContractRecord :=
  omap (fun ev => match ev with EvSaved c => Some c | _ => None end) tr.

Definition save_failed (tr : list Event) : list ContractRecord :=
  omap (fun ev => match ev with EvSaveFailed c => Some c | _ => None end) tr.

(** The records whose save has settled, successfully or not. *)
Definition attempted (tr : list Event) : list ContractRecord :=
  omap (fun ev =>
          match ev with
          | EvSaved c | EvSaveFailed c => Some c
          | _ => None
          end) tr.

(** ** What a scan is expected to log

    The detector reads the chain only, and no step of a scan opens or closes
    the database, so the events of a block or a batch are a function of the
    world, the provider, the detector and of whether the database takes
    statements. *)

Definition db_up (db : Database.t) : bool :=
  Database.isInitialized db && negb (Database.closed db).

Definition save_succeeds (w : World) (up : bool) (c : ContractRecord) : bool :=
  up && negb (db_contract_fault w c)
  && match transactionHash c with Some _ => true | None => false end.

Definition save_event (w : World) (up : bool) (c : ContractRecord) : Event :=
  if save_succeeds w up c then EvSaved c else EvSaveFailed c.

Definition detect (w : World) (p : EthereumProvider.t)
    (d : ContractDetector.t) (b : Block) : list ContractRecord :=
  match ContractDetector.processBlock w p d (Some b) with
  | Ok contracts => contracts
  | Throw _ => []
  end.

Definition block_events (w : World) (p : EthereumProvider.t)
    (d : ContractDetector.t) (up : bool) (blk : option Block) : list Event :=
  match blk with
  | None => []
  | Some b =>
      EvDetected (blk_number b) (detect w p d b)
      :: (save_event w up <$> Database.settle_order w (detect w p d b))
  end.

Definition batch_events (w : World) (p : EthereumProvider.t)
    (d : ContractDetector.t) (up : bool) (startBlk endBlk : Z) : list Event :=
  (EvFetch <$> seqZ startBlk (endBlk - startBlk + 1))
  ++ flat_map (fun r : Z * option Block => block_events w p d up r.2)
       (EthereumProvider.fetched_blocks w p
          (seqZ startBlk (endBlk - startBlk + 1))).

(** The block number under which a fetched block is processed, if the fetch
    of [n] returned a block. *)
Definition processed_as (w : World) (p : EthereumProvider.t) (n : Z)
  : option Z :=
  match EthereumProvider.getBlock w p n with
  | Ok (Some b) => Some (blk_number b)
  | _ => None
  end.

(** The records that the detector returns for block [n], if the fetch of
    [n] returned a block. *)
Definition detected_as (w : World) (p : EthereumProvider.t)
    (d : ContractDetector.t) (n : Z) : list ContractRecord :=
  match EthereumProvider.getBlock w p n with
  | Ok (Some b) => detect w p d b
  | _ => []
  end.

(** What follows a batch whose processing returned: the checkpoint and the
    courtesy sleep when the progress row was written, nothing otherwise. *)
Definition checkpoint_events (w : World) (cfg : ScannerConfig) (up : bool)
    (currentEnd : Z) : list Event :=
  if up && negb (db_progress_fault w currentEnd)
  then EvCheckpoint currentEnd
       :: (if 0 <? batchDelay cfg then [EvSleep (batchDelay cfg)] else [])
  else [].

(** Every detected record has had its save settled. *)
Definition balanced (tr : list Event) : Prop := attempted tr ≡ₚ detected tr.

(** Every checkpoint comes after the saves of all records detected before
    it have settled. *)
Definition ordered (tr : list Event) : Prop :=
  forall i e, tr !! i = Some (EvCheckpoint e) -> balanced (take i tr).

(** A stretch of events that keeps a trace balanced and ordered. *)
Definition safe_chunk (X : list Event) : Prop :=
  forall tr, balanced tr -> ordered tr ->
             balanced (tr ++ X) /\ ordered (tr ++ X).

(** Every checkpoint closes its batch: the events next before it are those
    of requesting the blocks of a batch that ends at the checkpoint's block,
    running the detector on the fetched ones and settling the saves. *)
Definition closes_batches (w : World) (p : EthereumProvider.t)
    (d : ContractDetector.t) (up : bool) (size : Z) (X : list Event) : Prop :=
  forall i e,
    X !! i = Some (EvCheckpoint e) ->
    exists before currentStart,
      take i X = before ++ batch_events w p d up currentStart e
      /\ (0 < size -> currentStart <= e).

(** The parts of the scanner object that a scan leaves alone. *)
Definition frame (s : t) :=
  (networkConfig s, scannerConfig s, provider s, detector s,
   isRunning s, isPaused s, db_up (database s)).

End BlockScanner.


(** ** MemoryMonitor *)

Module MemoryMonitor.

(** [cleanupArray(arr, maxSize)] on an array: what is left in [arr] and the
    number returned.  [arr.splice(0, n)] removes the first [n] elements, [n]
    clamped to the length of the array. *)
Definition cleanupArray {A} (arr : list A) (maxSize : Z) : list A * Z :=
  if maxSize <? Z.of_nat (length arr)
  then
    let deleteCount :=
      Z.to_nat (Z.min (Z.of_nat (length arr) - maxSize)
                  (Z.of_nat (length arr))) in
    (drop deleteCount arr, Z.of_nat (length (take deleteCount arr)))
  else (arr, 0).

End MemoryMonitor.

(** ** Logger *)

Module Logger.

(** What [this.levels[name]] evaluates to.  [levels] is a plain object: a
    name that is none of its four own keys is looked up on
    [Object.prototype], which answers with a built-in function for eleven
    names and with itself for [__proto__]; every other name gives
    [undefined].  Of an inherited member only the string matters to which
    the relational operator converts it: the source text of the built-in
    function as the engine prints it, or ["[object Object]"]. *)
Inductive LevelValue :=
| level_priority (n : Z)
| level_inherited (text : string)
| level_undefined.

Definition native_function (name : string) : string :=
  ("function " ++ name ++ "() { [native code] }")%string.

Definition inherited_functions : list string :=
  [ "__defineGetter__"; "__defineSetter__"; "hasOwnProperty";
    "__lookupGetter__"; "__lookupSetter__"; "isPrototypeOf";
    "propertyIsEnumerable"; "toString"; "valueOf"; "toLocaleString" ].

Definition levels (name : string) : LevelValue :=
  if String.eqb name "debug" then level_priority 0
  else if String.eqb name "info" then level_priority 1
  else if String.eqb name "warn" then level_priority 2
  else if String.eqb name "error" then level_priority 3
  else if String.eqb name "constructor"
  then level_inherited (native_function "Object")
  else if String.eqb name "__proto__" then level_inherited "[object Object]"
  else if existsb (String.eqb name) inherited_functions
  then level_inherited (native_function name)
  else level_undefined.

(** [shouldLog(level)] for a logger configured with [logLevel], that is
    [this.levels[level] >= this.levels[this.logLevel]]: two numbers are
    compared as numbers and two inherited members as strings; where one side
    is [undefined], or a number stands against the text of an inherited
    member, a side converts to [NaN] and the comparison is false. *)
Definition shouldLog (logLevel level : string) : bool :=
  match levels level, levels logLevel with
  | level_priority l, level_priority configured => configured <=? l
  | level_inherited a, level_inherited b => String.leb b a
  | _, _ => false
  end.

End Logger.


(** ** Concrete chains, configurations and records used in the examples *)

Module Examples.

Definition mainnet : NetworkConfig :=
  {| net_name := "Ethereum Mainnet"; net_chainId := 1; net_hasWsUrl := true |}.

Definition deployer : string := "0xDeployer".
Definition created : string := "0xAbC1".
Definition factoryAddr : string := "0xFac7".
Definition child : string := "0x00000000000000000000000000000000000000c1".

(** OwnershipTransferred-style log emitted by the new contract itself; its
    second topic holds the address [child]. *)
Definition creation_log : Log :=
  {| log_address := Some created;
     log_topics :=
       [ "0x8be0079c531659141344cd1fd0a4f28419497f9722a3daafe3b4186f6b6457e0";
         "0x00000000000000000000000000000000000000000000000000000000000000c1" ];
     log_data := Some "0x" |}.

(** A deployment: no destination, init code as input data. *)
Definition deploy_tx : Transaction :=
  {| tx_hash := Some "0xh1"; tx_to := None; tx_from := deployer;
     tx_data := Some "0x6080604052f5aa"; tx_gasPrice := Some 7 |}.

(** A call to a factory contract. *)
Definition factory_call_tx : Transaction :=
  {| tx_hash := Some "0xh2"; tx_to := Some factoryAddr; tx_from := deployer;
     tx_data := Some "0x01"; tx_gasPrice := Some 7 |}.

(** A deployment whose receipt reports failure. *)
Definition failed_tx : Transaction :=
  {| tx_hash := Some "0xh3"; tx_to := None; tx_from := deployer;
     tx_data := Some "0x00"; tx_gasPrice := Some 7 |}.

(** A deployment whose receipt lookup keeps failing. *)
Definition lost_tx : Transaction :=
  {| tx_hash := Some "0xh4"; tx_to := None; tx_from := deployer;
     tx_data := Some "0x00"; tx_gasPrice := Some 7 |}.

(** A deployment that emits no log. *)
Definition quiet_tx : Transaction :=
  {| tx_hash := Some "0xh5"; tx_to := None; tx_from := deployer;
     tx_data := Some "0x00"; tx_gasPrice := Some 7 |}.

Definition receipt_of (h : string) : result (option Receipt) :=
  if String.eqb h "0xh1" then
    Ok (Some {| rc_status := Some 1; rc_contractAddress := Some created;
                rc_logs := [creation_log]; rc_gasUsed := Some 21000 |})
  else if String.eqb h "0xh2" then
    Ok (Some {| rc_status := Some 1; rc_contractAddress := None;
                rc_logs := [creation_log]; rc_gasUsed := Some 50000 |})
  else if String.eqb h "0xh3" then
    Ok (Some {| rc_status := Some 0; rc_contractAddress := Some created;
                rc_logs := []; rc_gasUsed := Some 21000 |})
  else if String.eqb h "0xh5" then
    Ok (Some {| rc_status := Some 1; rc_contractAddress := Some created;
                rc_logs := []; rc_gasUsed := Some 21000 |})
  else Throw "timeout".

Definition code_of (a : string) : result (option string) :=
  if String.eqb a created then Ok (Some "0x6001")
  else if String.eqb a child then Ok (Some "0x6002")
  else Ok (Some "0x").

Definition block_with (n : Z) (txs : list (option Transaction)) : Block :=
  {| blk_number := n; blk_hash := "0xb"; blk_timestamp := 1700000000;
     blk_transactions := TxArray txs |}.

(** Block 100 holds the deployment, every other block is empty. *)
Definition chain_block (n : Z) : Block :=
  block_with n (if n =? 100 then [Some deploy_tx] else []).

(** A node that answers every request at the first attempt.  In the
    examples the identity stands in for the SHA-256 digest. *)
Definition healthy : World :=
  {| rpc_getBlockNumber := fun _ => Ok 200;
     rpc_getBlock := fun n _ => Ok (Some (chain_block n));
     rpc_getTransactionReceipt := fun h _ => receipt_of h;
     rpc_getCode := fun a _ => code_of a;
     rpc_chainId := 1;
     sha256_hex := fun s => s;
     db_contract_fault := fun _ => false;
     db_progress_fault := fun _ => false;
     db_settle_rank := fun _ i => Z.of_nat i |}.

(** The same node, except that block 101 can never be fetched. *)
Definition missing_101 : World :=
  {| rpc_getBlockNumber := fun _ => Ok 200;
     rpc_getBlock :=
       fun n _ => if n =? 101 then Throw "timeout"
                  else Ok (Some (chain_block n));
     rpc_getTransactionReceipt := fun h _ => receipt_of h;
     rpc_getCode := fun a _ => code_of a;
     rpc_chainId := 1;
     sha256_hex := fun s => s;
     db_contract_fault := fun _ => false;
     db_progress_fault := fun _ => false;
     db_settle_rank := fun _ i => Z.of_nat i |}.

(** The healthy node with a database driver that rejects every INSERT into
    [contracts]. *)
Definition failing_sink : World :=
  {| rpc_getBlockNumber := fun _ => Ok 200;
     rpc_getBlock := fun n _ => Ok (Some (chain_block n));
     rpc_getTransactionReceipt := fun h _ => receipt_of h;
     rpc_getCode := fun a _ => code_of a;
     rpc_chainId := 1;
     sha256_hex := fun s => s;
     db_contract_fault := fun _ => true;
     db_progress_fault := fun _ => false;
     db_settle_rank := fun _ i => Z.of_nat i |}.

(** A node whose first two answers to every block fetch are lost. *)
Definition flaky : World :=
  {| rpc_getBlockNumber := fun _ => Ok 200;
     rpc_getBlock :=
       fun n k => if (k <? 2)%nat then Throw "timeout"
                  else Ok (Some (chain_block n));
     rpc_getTransactionReceipt := fun h _ => receipt_of h;
     rpc_getCode := fun a _ => code_of a;
     rpc_chainId := 1;
     sha256_hex := fun s => s;
     db_contract_fault := fun _ => false;
     db_progress_fault := fun _ => false;
     db_settle_rank := fun _ i => Z.of_nat i |}.

(** The healthy node with a driver that settles the saves of one call
    last-first. *)
Definition reordering : World :=
  {| rpc_getBlockNumber := fun _ => Ok 200;
     rpc_getBlock := fun n _ => Ok (Some (chain_block n));
     rpc_getTransactionReceipt := fun h _ => receipt_of h;
     rpc_getCode := fun a _ => code_of a;
     rpc_chainId := 1;
     sha256_hex := fun s => s;
     db_contract_fault := fun _ => false;
     db_progress_fault := fun _ => false;
     db_settle_rank := fun _ i => - Z.of_nat i |}.

(** A connected provider without WebSocket. *)
Definition connected (retries : Z) : EthereumProvider.t :=
  {| EthereumProvider.maxRetries := retries;
     EthereumProvider.retryDelay := 1000;
     EthereumProvider.maxRetryDelay := 30000;
     EthereumProvider.http := true;
     EthereumProvider.ws := false;
     EthereumProvider.isConnected := true |}.

Definition historical_cfg (first last size : Z) : BlockScanner.ScannerConfig :=
  {| BlockScanner.scanMode := Database.historical;
     BlockScanner.startBlock := BlockScanner.block first;
     BlockScanner.endBlock := BlockScanner.block last;
     BlockScanner.batchSize := size;
     BlockScanner.batchDelay := 0;
     BlockScanner.maxRetries := 3;
     BlockScanner.analyzeBytecode := false |}.

(** A scanner ready to start: the provider is connected, the database is
    open with empty tables, and nothing has been counted or logged. *)
Definition idle (cfg : BlockScanner.ScannerConfig) : BlockScanner.t :=
  {| BlockScanner.networkConfig := mainnet;
     BlockScanner.scannerConfig := cfg;
     BlockScanner.provider := connected (BlockScanner.maxRetries cfg);
     BlockScanner.detector :=
       ContractDetector.constructor mainnet (BlockScanner.analyzeBytecode cfg);
     BlockScanner.database := Database.initialized;
     BlockScanner.isRunning := false;
     BlockScanner.isPaused := false;
     BlockScanner.currentBlock := None;
     BlockScanner.stats :=
       {| BlockScanner.blocksProcessed := 0;
          BlockScanner.contractsFound := 0;
          BlockScanner.errors := 0 |};
     BlockScanner.trace := [] |}.

Definition final_state (r : option (result unit * BlockScanner.t))
  : option BlockScanner.t :=
  match r with
  | Some (_, s) => Some s
  | None => None
  end.

(** A record for address ["0xaa"] on a given network. *)
Definition record_on (net : string) (size : Z) : ContractRecord :=
  {| address := "0xaa"; creatorAddress := "0xdeployer";
     transactionHash := Some "0xh1"; blockNumber := 100;
     blockHash := "0xb"; blockTimestamp := 1700000000;
     gasUsed := Some 21000; gasPrice := Some 7;
     contractSize := size; bytecodeHash := "0x6001";
     network := net; chainId := 1; creationType := None |}.

Definition always_fails (k : nat) : result Z := Throw "timeout".

(** The record of the quiet deployment in block 100. *)
Definition quiet_record : ContractRecord :=
  {| address := "0xabc1"; creatorAddress := "0xdeployer";
     transactionHash := Some "0xh5"; blockNumber := 100;
     blockHash := "0xb"; blockTimestamp := 1700000000;
     gasUsed := Some 21000; gasPrice := Some 7;
     contractSize := 2; bytecodeHash := "0x6001";
     network := "Ethereum Mainnet"; chainId := 1; creationType := None |}.

(** The scanner after one historical pass over [[100, 103]] in batches of
    two on the healthy node, and the trace of that pass. *)
Definition healthy_final : BlockScanner.t :=
  match BlockScanner.start healthy 4 (idle (historical_cfg 100 103 2)) with
  | Some (_, s) => s
  | None => idle (historical_cfg 100 103 2)
  end.

Definition healthy_trace : list BlockScanner.Event :=
  BlockScanner.trace healthy_final.

(** The same pass with the saves of each block settling last-first. *)
Definition reordered_final : BlockScanner.t :=
  match BlockScanner.start reordering 4 (idle (historical_cfg 100 103 2)) with
  | Some (_, s) => s
  | None => idle (historical_cfg 100 103 2)
  end.

Definition reordered_trace : list BlockScanner.Event :=
  BlockScanner.trace reordered_final.

(** The scanner left by that pass, handed a new range. *)
Definition resumed (first last : Z) : BlockScanner.t :=
  {| BlockScanner.networkConfig := BlockScanner.networkConfig healthy_final;
     BlockScanner.scannerConfig := historical_cfg first last 2;
     BlockScanner.provider := BlockScanner.provider healthy_final;
     BlockScanner.detector := BlockScanner.detector healthy_final;
     BlockScanner.database := BlockScanner.database healthy_final;
     BlockScanner.isRunning := false;
     BlockScanner.isPaused := false;
     BlockScanner.currentBlock := BlockScanner.currentBlock healthy_final;
     BlockScanner.stats := BlockScanner.stats healthy_final;
     BlockScanner.trace := BlockScanner.trace healthy_final |}.

(** A creation code with one selector, and what [analyzeContractBytecode]
    makes of it for the address [created]. *)
Definition sample_bytecode : string :=
  "0x608060405263a9059cbb14f3".

Definition sample_analysis : ContractDetector.ContractAnalysis :=
  {| ContractDetector.an_contractAddress := "0xabc1";
     ContractDetector.an_bytecodeSize := 12;
     ContractDetector.an_isProxy := false;
     ContractDetector.an_isFactory := false;
     ContractDetector.an_hasFallback := true;
     ContractDetector.an_hasReceive := false;
     ContractDetector.an_functionCount := 1;
     ContractDetector.an_eventCount := 0;
     ContractDetector.an_analysisVersion := "1.0" |}.

(** The database after one and after two saves for the same address. *)
Definition once_saved : Database.t :=
  (Database.saveContract healthy (record_on "Ethereum Mainnet" 2)
     Database.initialized).2.

Definition twice_saved : Database.t :=
  (Database.saveContract healthy (record_on "Polygon Mainnet" 4)
     once_saved).2.

End Examples.


(** * Properties *)

(** ** The retry wrapper *)

Lemma backoff_next k :
  Z.min (EthereumProvider.backoff k * 2) 30000
  = EthereumProvider.backoff (S k).
Proof.
  unfold EthereumProvider.backoff.
  rewrite Nat2Z.inj_succ, Z.pow_succ_r by lia.
  assert (0 < 2 ^ Z.of_nat k) by (apply Z.pow_pos_nonneg; lia).
  lia.
Qed.

Lemma backoff_seq_S k :
  EthereumProvider.backoff <$> seq 0 (S k)
  = (EthereumProvider.backoff <$> seq 0 k) ++ [EthereumProvider.backoff k].
Proof. by rewrite seq_S, fmap_app. Qed.

Lemma retry_loop_S {A} (p : EthereumProvider.t) (op : nat -> result A)
    iters attempt delay lastError slept :
  EthereumProvider.retry_loop p op (S iters) attempt delay lastError slept
  = match op attempt with
    | Ok a =>
        {| EthereumProvider.outcome := Ok a;
           EthereumProvider.attempts := S attempt;
           EthereumProvider.sleeps := slept |}
    | Throw e =>
        if Z.of_nat attempt <? EthereumProvider.maxRetries p
        then EthereumProvider.retry_loop p op iters (S attempt)
               (Z.min (delay * 2) (EthereumProvider.maxRetryDelay p))
               (Some e) (slept ++ [delay])
        else EthereumProvider.retry_loop p op iters (S attempt) delay
               (Some e) slept
    end.
Proof. reflexivity. Qed.

(** The loop, started at [attempt] with at least one iteration to go, the
    delay and the slept list being what the earlier iterations left. *)
Lemma retry_loop_run {A} (p : EthereumProvider.t) (op : nat -> result A) :
  EthereumProvider.maxRetryDelay p = 30000 ->
  forall iters attempt lastError,
    Z.of_nat attempt + Z.of_nat (S iters) = EthereumProvider.maxRetries p + 1 ->
    let r := EthereumProvider.retry_loop p op (S iters) attempt
               (EthereumProvider.backoff attempt) lastError
               (EthereumProvider.backoff <$> seq 0 attempt) in
    (attempt < EthereumProvider.attempts r <= attempt + S iters)%nat
    /\ EthereumProvider.sleeps r
       = EthereumProvider.backoff <$> seq 0 (EthereumProvider.attempts r - 1)
    /\ EthereumProvider.outcome r = op (EthereumProvider.attempts r - 1)%nat
    /\ (forall k, (attempt <= k < EthereumProvider.attempts r - 1)%nat ->
          is_ok (op k) = false)
    /\ (forall e, EthereumProvider.outcome r = Throw e ->
          EthereumProvider.attempts r = (attempt + S iters)%nat).
Proof.
  intros Hmax iters.
  induction iters as [|iters IH]; intros attempt lastError Hfuel; cbn zeta.
  - cbn [EthereumProvider.retry_loop].
    destruct (op attempt) as [a|e] eqn:Hop.
    + cbn. replace (attempt - 0)%nat with attempt by lia.
      rewrite Hop. repeat split; try lia; intros; try lia; discriminate.
    + destruct (Z.ltb_spec (Z.of_nat attempt) (EthereumProvider.maxRetries p));
        [lia|].
      cbn. replace (attempt - 0)%nat with attempt by lia.
      rewrite Hop. repeat split; try lia; intros; lia.
  - rewrite retry_loop_S.
    destruct (op attempt) as [a|e] eqn:Hop.
    + cbn. replace (attempt - 0)%nat with attempt by lia.
      rewrite Hop. repeat split; try lia; intros; try lia; discriminate.
    + destruct (Z.ltb_spec (Z.of_nat attempt) (EthereumProvider.maxRetries p));
        [|lia].
      rewrite Hmax, backoff_next, <- backoff_seq_S.
      specialize (IH (S attempt) (Some e) ltac:(lia)). cbn zeta in IH.
      destruct IH as (Ha & Hs & Ho & Hk & He).
      repeat split; try lia; try assumption.
      * intros k Hk'. destruct (decide (k = attempt)) as [->|Hne].
        -- by rewrite Hop.
        -- apply Hk. lia.
      * intros e' He'. rewrite (He e' He'). lia.
Qed.

(** ** The batch fetch *)

Section BatchFacts.
Variable w : World.
Variable p : EthereumProvider.t.

Lemma fetched_blocks_fmap ns :
  omap EthereumProvider.fulfilled (EthereumProvider.fetch_one w p <$> ns)
  = EthereumProvider.fetched_blocks w p ns.
Proof.
  unfold EthereumProvider.fetched_blocks. induction ns as [|n ns IH]; [done|].
  cbn. by rewrite IH.
Qed.

Lemma fetched_blocks_cons n ns :
  EthereumProvider.fetched_blocks w p (n :: ns)
  = match EthereumProvider.getBlock w p n with
    | Ok b => (n, b) :: EthereumProvider.fetched_blocks w p ns
    | Throw _ => EthereumProvider.fetched_blocks w p ns
    end.
Proof.
  unfold EthereumProvider.fetched_blocks. cbn [omap list_omap].
  unfold EthereumProvider.fulfilled at 1. cbn.
  by destruct (EthereumProvider.getBlock w p n).
Qed.

Lemma elem_of_fetched_blocks x ns :
  x ∈ EthereumProvider.fetched_blocks w p ns ->
  x.1 ∈ ns /\ EthereumProvider.getBlock w p x.1 = Ok x.2.
Proof.
  unfold EthereumProvider.fetched_blocks. rewrite list_elem_of_omap.
  intros (n & Hn & Hf). unfold EthereumProvider.fulfilled in Hf. cbn in Hf.
  destruct (EthereumProvider.getBlock w p n) eqn:Hg; [|done].
  by simplify_eq.
Qed.

Lemma fetched_blocks_sorted ns :
  StronglySorted Z.lt ns ->
  StronglySorted EthereumProvider.by_blockNumber
    (EthereumProvider.fetched_blocks w p ns).
Proof.
  unfold EthereumProvider.fetched_blocks.
  induction 1 as [|n ns Hns IH Hall]; cbn; [constructor|].
  destruct (EthereumProvider.fulfilled _) as [x|] eqn:Hx; [|done].
  constructor; [done|].
  rewrite Forall_forall. intros y Hy.
  apply elem_of_fetched_blocks in Hy as [Hy _].
  unfold EthereumProvider.fulfilled in Hx. cbn in Hx.
  destruct (EthereumProvider.getBlock w p n); [|done]. simplify_eq.
  rewrite Forall_forall in Hall. specialize (Hall _ Hy).
  unfold EthereumProvider.by_blockNumber. cbn. lia.
Qed.

Lemma seqZ_strongly_sorted m n : StronglySorted Z.lt (seqZ m n).
Proof.
  destruct (Z.le_gt_cases n 0) as [Hn|Hn].
  { rewrite seqZ_nil by done. constructor. }
  rewrite <- (Z2Nat.id n) by lia.
  generalize (Z.to_nat n) as k. clear Hn n. intros k. revert m.
  induction k as [|k IH]; intros m.
  { rewrite seqZ_nil by done. constructor. }
  rewrite seqZ_cons by lia. constructor.
  - replace (Z.pred (Z.of_nat (S k))) with (Z.of_nat k) by lia. apply IH.
  - rewrite Forall_seqZ. lia.
Qed.

#[local] Instance by_blockNumber_trans :
  Transitive EthereumProvider.by_blockNumber.
Proof. unfold EthereumProvider.by_blockNumber. intros x y z. lia. Qed.

#[local] Instance by_blockNumber_total : Total EthereumProvider.by_blockNumber.
Proof. unfold EthereumProvider.by_blockNumber. intros x y. lia. Qed.

(** Whatever order the settled results arrive in, collecting them gives the
    fulfilled fetches in ascending order of block number. *)
Lemma collect_settled_any_order ns results :
  StronglySorted Z.lt ns ->
  results ≡ₚ EthereumProvider.fetch_one w p <$> ns ->
  EthereumProvider.collect_settled results
  = EthereumProvider.fetched_blocks w p ns.
Proof.
  intros Hns Hperm. unfold EthereumProvider.collect_settled.
  assert (Hp : merge_sort EthereumProvider.by_blockNumber
                 (omap EthereumProvider.fulfilled results)
               ≡ₚ EthereumProvider.fetched_blocks w p ns).
  { rewrite merge_sort_Permutation, Hperm. by rewrite fetched_blocks_fmap. }
  apply (Sorted_unique_strong EthereumProvider.by_blockNumber); [| | |done].
  - intros x1 x2 H1 H2 Hle Hge.
    rewrite Hp in H1.
    apply elem_of_fetched_blocks in H1 as [_ H1].
    apply elem_of_fetched_blocks in H2 as [_ H2].
    unfold EthereumProvider.by_blockNumber in *.
    assert (x1.1 = x2.1) as Heq by lia.
    destruct x1 as [n1 b1], x2 as [n2 b2]; cbn in *. congruence.
  - apply Sorted_merge_sort, _.
  - apply StronglySorted_Sorted, fetched_blocks_sorted, Hns.
Qed.

Lemma getBatchBlocks_eq startBlock endBlock :
  EthereumProvider.getBatchBlocks w p startBlock endBlock
  = Ok (EthereumProvider.fetched_blocks w p
          (seqZ startBlock (endBlock - startBlock + 1))).
Proof.
  unfold EthereumProvider.getBatchBlocks. f_equal.
  apply collect_settled_any_order; [apply seqZ_strongly_sorted|done].
Qed.

End BatchFacts.

(** ** The detector never throws *)

Lemma detector_processBlock_ok w p d blk :
  exists contracts, ContractDetector.processBlock w p d blk = Ok contracts.
Proof.
  unfold ContractDetector.processBlock.
  destruct (ContractDetector.processBlock_try w p d blk); eauto.
Qed.

Lemma detector_processBlock_detect w p d b :
  ContractDetector.processBlock w p d (Some b)
  = Ok (BlockScanner.detect w p d b).
Proof.
  unfold BlockScanner.detect.
  destruct (detector_processBlock_ok w p d (Some b)) as [l ->]. done.
Qed.

(** ** The order in which saves settle *)

Lemma settle_order_perm w cs : Database.settle_order w cs ≡ₚ cs.
Proof.
  unfold Database.settle_order.
  rewrite merge_sort_Permutation. by rewrite snd_zip by (by rewrite length_seq).
Qed.

Lemma settle_order_elem w cs c : c ∈ Database.settle_order w cs <-> c ∈ cs.
Proof. by rewrite settle_order_perm. Qed.

Lemma settle_order_length w cs :
  length (Database.settle_order w cs) = length cs.
Proof. by rewrite settle_order_perm. Qed.

(** ** One scan step at a time *)

(** Bring the equations packed in a [frame] equality into the goal. *)
Ltac use_frame H :=
  let Hnet := fresh "Hnet" in
  let Hcfg := fresh "Hcfg" in
  let Hprov := fresh "Hprov" in
  let Hdet := fresh "Hdet" in
  let Hrun := fresh "Hrun" in
  let Hpau := fresh "Hpau" in
  let Hup := fresh "Hup" in
  pose proof H as Hnet; unfold BlockScanner.frame in Hnet;
  injection Hnet as Hnet Hcfg Hprov Hdet Hrun Hpau Hup;
  rewrite ?Hnet, ?Hcfg, ?Hprov, ?Hdet, ?Hrun, ?Hpau, ?Hup in *.

Section ScanFacts.
Import BlockScanner.
Variable w : World.

Lemma saveContract_up c db :
  db_up (Database.saveContract w c db).2 = db_up db.
Proof.
  unfold Database.saveContract.
  repeat (case_match; try done).
Qed.

Lemma saveContract_outcome c db :
  is_ok (Database.saveContract w c db).1 = save_succeeds w (db_up db) c.
Proof.
  unfold Database.saveContract, save_succeeds, db_up, Database.contract_row.
  destruct (Database.isInitialized db), (Database.closed db),
    (db_contract_fault w c), (transactionHash c); done.
Qed.

Lemma save_one_spec s c :
  frame (save_one w s c) = frame s
  /\ trace (save_one w s c)
     = trace s ++ [save_event w (db_up (database s)) c].
Proof.
  unfold save_one, save_event.
  pose proof (saveContract_up c (database s)) as Hup.
  pose proof (saveContract_outcome c (database s)) as Hout.
  destruct (Database.saveContract w c (database s)) as [[[]|e] db'];
    cbn in *; rewrite <- Hout; unfold frame; cbn; by rewrite Hup.
Qed.

Lemma saveContracts_spec cs s :
  frame (fold_left (save_one w) cs s) = frame s
  /\ trace (fold_left (save_one w) cs s)
     = trace s ++ (save_event w (db_up (database s)) <$> cs).
Proof.
  revert s. induction cs as [|c cs IH]; intros s; cbn.
  { by rewrite app_nil_r. }
  destruct (save_one_spec s c) as [Hf Ht].
  destruct (IH (save_one w s c)) as [Hf' Ht'].
  split; [congruence|].
  rewrite Ht', Ht, <- app_assoc. cbn.
  use_frame Hf. done.
Qed.

Lemma processBlock_spec blk s :
  exists s',
    processBlock w blk s = (Ok tt, s')
    /\ frame s' = frame s
    /\ trace s'
       = trace s
         ++ block_events w (provider s) (detector s) (db_up (database s)) blk.
Proof.
  destruct blk as [b|]; cbn.
  2: { exists s. by rewrite app_nil_r. }
  rewrite detector_processBlock_detect.
  set (cs := detect w (provider s) (detector s) b).
  unfold saveContracts.
  match goal with
  | |- context [fold_left (save_one w) ?l ?s2] =>
      destruct (saveContracts_spec l s2) as [Hf Ht];
      set (s3 := fold_left (save_one w) l s2) in *
  end.
  destruct (length cs) eqn:Hlen.
  - apply nil_length_inv in Hlen. rewrite Hlen.
    eexists. split; [done|]. split; done.
  - eexists. split; [done|]. split.
    + unfold frame in *. cbn in *. done.
    + cbn. rewrite Ht. cbn. by rewrite <- app_assoc.
Qed.

Lemma promise_all_processBlock_spec (rs : list (Z * option Block)) s :
  exists s',
    promise_all
      (List.map (fun r : Z * option Block => processBlock w r.2) rs) s
    = (Ok tt, s')
    /\ frame s' = frame s
    /\ trace s'
       = trace s
         ++ flat_map
              (fun r : Z * option Block =>
                 block_events w (provider s) (detector s)
                   (db_up (database s)) r.2) rs.
Proof.
  revert s. induction rs as [|r rs IH]; intros s; cbn.
  { exists s. by rewrite app_nil_r. }
  destruct (processBlock_spec r.2 s) as (s1 & -> & Hf1 & Ht1).
  destruct (IH s1) as (s2 & -> & Hf2 & Ht2).
  exists s2. split; [done|]. split; [congruence|].
  rewrite Ht2, Ht1, <- app_assoc.
  use_frame Hf1. done.
Qed.

Lemma processBatch_spec startBlk endBlk s :
  exists s',
    processBatch w startBlk endBlk s = (Ok tt, s')
    /\ frame s' = frame s
    /\ trace s'
       = trace s
         ++ batch_events w (provider s) (detector s) (db_up (database s))
              startBlk endBlk.
Proof.
  unfold processBatch. rewrite getBatchBlocks_eq.
  match goal with
  | |- context [promise_all ?ps ?s1] =>
      destruct (promise_all_processBlock_spec
                  (EthereumProvider.fetched_blocks w (provider s)
                     (seqZ startBlk (endBlk - startBlk + 1))) s1)
        as (s2 & -> & Hf & Ht)
  end.
  exists s2. split; [done|]. split; [done|].
  rewrite Ht. cbn. unfold batch_events. by rewrite <- app_assoc.
Qed.

End ScanFacts.

(** ** Traces: projections and the checkpoint discipline *)

Section TraceFacts.
Import BlockScanner.

Lemma fetched_app X Y : fetched (X ++ Y) = fetched X ++ fetched Y.
Proof. apply omap_app. Qed.

Lemma processed_app X Y : processed (X ++ Y) = processed X ++ processed Y.
Proof. apply omap_app. Qed.

Lemma attempted_app X Y : attempted (X ++ Y) = attempted X ++ attempted Y.
Proof. apply omap_app. Qed.

Lemma detected_app X Y : detected (X ++ Y) = detected X ++ detected Y.
Proof. apply flat_map_app. Qed.

Lemma checkpoints_app X Y :
  checkpoints (X ++ Y) = checkpoints X ++ checkpoints Y.
Proof. apply omap_app. Qed.

Lemma fetched_fetches ns : fetched (EvFetch <$> ns) = ns.
Proof. induction ns as [|n ns IH]; cbn; [done|]. by f_equal. Qed.

Lemma save_events_quiet w up cs :
  fetched (save_event w up <$> cs) = []
  /\ processed (save_event w up <$> cs) = []
  /\ checkpoints (save_event w up <$> cs) = []
  /\ detected (save_event w up <$> cs) = []
  /\ attempted (save_event w up <$> cs) = cs.
Proof.
  induction cs as [|c cs (IH1 & IH2 & IH3 & IH4 & IH5)]; [done|].
  unfold save_event, fetched, processed, checkpoints, detected, attempted
    in *. cbn.
  destruct (save_succeeds w up c); cbn; rewrite ?IH5; done.
Qed.

Lemma block_events_proj w p d up blk :
  let X := block_events w p d up blk in
  fetched X = []
  /\ processed X = match blk with Some b => [blk_number b] | None => [] end
  /\ checkpoints X = []
  /\ attempted X ≡ₚ detected X.
Proof.
  destruct blk as [b|]; [|done]. cbn zeta. unfold block_events.
  destruct (save_events_quiet w up
              (Database.settle_order w (detect w p d b)))
    as (H1 & H2 & H3 & H4 & H5).
  set (L := save_event w up <$> Database.settle_order w (detect w p d b))
    in *.
  change (EvDetected (blk_number b) (detect w p d b) :: L)
    with ([EvDetected (blk_number b) (detect w p d b)] ++ L).
  rewrite fetched_app, processed_app, checkpoints_app, attempted_app,
    detected_app, H1, H2, H3, H4, H5.
  cbn. rewrite !app_nil_r. split_and!; try done. apply settle_order_perm.
Qed.

Lemma blocks_events_proj w p d up ns :
  let X := flat_map (fun r : Z * option Block => block_events w p d up r.2)
             (EthereumProvider.fetched_blocks w p ns) in
  fetched X = []
  /\ processed X = omap (processed_as w p) ns
  /\ checkpoints X = []
  /\ attempted X ≡ₚ detected X.
Proof.
  cbn zeta.
  induction ns as [|n ns (IH1 & IH2 & IH3 & IH4)]; [done|].
  rewrite fetched_blocks_cons.
  change (omap (processed_as w p) (n :: ns))
    with (match processed_as w p n with
          | Some y => y :: omap (processed_as w p) ns
          | None => omap (processed_as w p) ns
          end).
  unfold processed_as at 1.
  destruct (EthereumProvider.getBlock w p n) as [blk|e]; [|done].
  cbn [flat_map snd].
  destruct (block_events_proj w p d up blk) as (H1 & H2 & H3 & H4).
  rewrite fetched_app, processed_app, checkpoints_app, attempted_app,
    detected_app, H1, H2, H3, H4, IH1, IH2, IH3, IH4.
  destruct blk; done.
Qed.

Lemma batch_events_proj w p d up startBlk endBlk :
  let X := batch_events w p d up startBlk endBlk in
  fetched X = seqZ startBlk (endBlk - startBlk + 1)
  /\ processed X
     = omap (processed_as w p) (seqZ startBlk (endBlk - startBlk + 1))
  /\ checkpoints X = []
  /\ attempted X ≡ₚ detected X.
Proof.
  cbn zeta. unfold batch_events.
  destruct (blocks_events_proj w p d up
              (seqZ startBlk (endBlk - startBlk + 1))) as (H1 & H2 & H3 & H4).
  rewrite fetched_app, processed_app, checkpoints_app, attempted_app,
    detected_app, H1, H2, H3, H4, fetched_fetches, app_nil_r.
  set (ns := seqZ startBlk (endBlk - startBlk + 1)).
  assert (processed (EvFetch <$> ns) = []
          /\ checkpoints (EvFetch <$> ns) = []
          /\ attempted (EvFetch <$> ns) = []
          /\ detected (EvFetch <$> ns) = []) as (-> & -> & -> & ->).
  { induction ns as [|n ns IH]; [done|]. cbn. apply IH. }
  done.
Qed.

Lemma saved_app X Y : saved (X ++ Y) = saved X ++ saved Y.
Proof. apply omap_app. Qed.

Lemma save_failed_app X Y :
  save_failed (X ++ Y) = save_failed X ++ save_failed Y.
Proof. apply omap_app. Qed.

Lemma filter_Permutation {A} (f : A -> bool) (l l' : list A) :
  l ≡ₚ l' -> List.filter f l ≡ₚ List.filter f l'.
Proof.
  induction 1 as [|x l l' _ IH|x y l|l l' l'' _ IH1 _ IH2]; cbn.
  - done.
  - destruct (f x); [by constructor|done].
  - destruct (f x), (f y); try done. by constructor.
  - by etrans.
Qed.

(** Which of the saves of a list of records succeed is decided by the
    database being open, the driver and the record. *)
Lemma save_events_outcome w up cs :
  saved (save_event w up <$> cs) = List.filter (save_succeeds w up) cs
  /\ save_failed (save_event w up <$> cs)
     = List.filter (fun c => negb (save_succeeds w up c)) cs.
Proof.
  induction cs as [|c cs [IH1 IH2]]; [done|].
  unfold save_event, saved, save_failed in *. cbn.
  destruct (save_succeeds w up c); cbn; rewrite ?IH1, ?IH2; done.
Qed.

Lemma block_events_records w p d up blk :
  let X := block_events w p d up blk in
  detected X = match blk with Some b => detect w p d b | None => [] end
  /\ saved X ≡ₚ List.filter (save_succeeds w up) (detected X)
  /\ save_failed X
     ≡ₚ List.filter (fun c => negb (save_succeeds w up c)) (detected X).
Proof.
  destruct blk as [b|]; [|done]. cbn zeta. unfold block_events.
  destruct (save_events_quiet w up
              (Database.settle_order w (detect w p d b)))
    as (_ & _ & _ & H4 & _).
  destruct (save_events_outcome w up
              (Database.settle_order w (detect w p d b))) as [H6 H7].
  set (L := save_event w up <$> Database.settle_order w (detect w p d b))
    in *.
  change (EvDetected (blk_number b) (detect w p d b) :: L)
    with ([EvDetected (blk_number b) (detect w p d b)] ++ L).
  rewrite detected_app, saved_app, save_failed_app, H4, H6, H7.
  cbn. rewrite !app_nil_r.
  split_and!; [done| |]; apply filter_Permutation, settle_order_perm.
Qed.

Lemma blocks_events_records w p d up ns :
  let X := flat_map (fun r : Z * option Block => block_events w p d up r.2)
             (EthereumProvider.fetched_blocks w p ns) in
  detected X = flat_map (detected_as w p d) ns
  /\ saved X ≡ₚ List.filter (save_succeeds w up) (detected X)
  /\ save_failed X
     ≡ₚ List.filter (fun c => negb (save_succeeds w up c)) (detected X).
Proof.
  cbn zeta.
  induction ns as [|n ns (IH1 & IH2 & IH3)]; [done|].
  rewrite fetched_blocks_cons. cbn [flat_map].
  unfold detected_as at 1.
  destruct (EthereumProvider.getBlock w p n) as [blk|e]; [|done].
  cbn [flat_map snd].
  destruct (block_events_records w p d up blk) as (H1 & H2 & H3).
  rewrite detected_app, saved_app, save_failed_app, !List.filter_app,
    H2, H3, IH2, IH3, H1, IH1.
  destruct blk; done.
Qed.

Lemma fetch_events_records (ns : list Z) :
  detected (EvFetch <$> ns) = []
  /\ saved (EvFetch <$> ns) = []
  /\ save_failed (EvFetch <$> ns) = [].
Proof. induction ns as [|n ns IH]; [done|exact IH]. Qed.

Lemma batch_events_records w p d up startBlk endBlk :
  let X := batch_events w p d up startBlk endBlk in
  detected X
  = flat_map (detected_as w p d) (seqZ startBlk (endBlk - startBlk + 1))
  /\ saved X ≡ₚ List.filter (save_succeeds w up) (detected X)
  /\ save_failed X
     ≡ₚ List.filter (fun c => negb (save_succeeds w up c)) (detected X).
Proof.
  cbn zeta. unfold batch_events.
  destruct (blocks_events_records w p d up
              (seqZ startBlk (endBlk - startBlk + 1))) as (H1 & H2 & H3).
  destruct (fetch_events_records (seqZ startBlk (endBlk - startBlk + 1)))
    as (Hd & Hs & Hf).
  rewrite detected_app, saved_app, save_failed_app, Hd, Hs, Hf.
  done.
Qed.

Lemma checkpoints_lookup X i e :
  X !! i = Some (EvCheckpoint e) -> e ∈ checkpoints X.
Proof.
  intros H. unfold checkpoints. rewrite list_elem_of_omap.
  exists (EvCheckpoint e). split; [|done]. by eapply list_elem_of_lookup_2.
Qed.

(** A stretch without checkpoints in which every detection is followed by
    its saves is safe. *)
Lemma safe_quiet X :
  checkpoints X = [] -> attempted X ≡ₚ detected X -> safe_chunk X.
Proof.
  intros Hq Hb tr Hbal Hord. split.
  - unfold balanced in *. by rewrite attempted_app, detected_app, Hbal, Hb.
  - intros i e Hi.
    destruct (decide (i < length tr)%nat) as [Hlt|Hge].
    + rewrite lookup_app_l in Hi by done.
      rewrite take_app_le by lia. by eapply Hord.
    + rewrite lookup_app_r in Hi by lia.
      apply checkpoints_lookup in Hi. rewrite Hq in Hi.
      by apply elem_of_nil in Hi.
Qed.

(** A checkpoint may be appended to a balanced trace. *)
Lemma safe_checkpoint e : safe_chunk [EvCheckpoint e].
Proof.
  intros tr Hbal Hord. split.
  - unfold balanced in *. rewrite attempted_app, detected_app, Hbal. done.
  - intros i e' Hi.
    destruct (decide (i < length tr)%nat) as [Hlt|Hge].
    + rewrite lookup_app_l in Hi by done.
      rewrite take_app_le by lia. by eapply Hord.
    + apply lookup_lt_Some in Hi as Hlen. rewrite length_app in Hlen.
      cbn in Hlen. assert (i = length tr) as -> by lia.
      by rewrite take_app_length.
Qed.

Lemma safe_app X Y : safe_chunk X -> safe_chunk Y -> safe_chunk (X ++ Y).
Proof.
  intros HX HY tr Hbal Hord. rewrite app_assoc.
  destruct (HX tr Hbal Hord) as [Hb Ho]. by apply HY.
Qed.

Lemma safe_nil : safe_chunk [].
Proof. intros tr ? ?. by rewrite app_nil_r. Qed.

Lemma safe_checkpoint_events w cfg up e :
  safe_chunk (checkpoint_events w cfg up e).
Proof.
  unfold checkpoint_events.
  destruct (up && negb (db_progress_fault w e)); [|apply safe_nil].
  change (safe_chunk ([EvCheckpoint e]
                      ++ (if 0 <? batchDelay cfg
                          then [EvSleep (batchDelay cfg)] else []))).
  apply safe_app; [apply safe_checkpoint|].
  destruct (0 <? batchDelay cfg); [|apply safe_nil].
  by apply safe_quiet.
Qed.

Lemma checkpoint_events_proj w cfg up e :
  fetched (checkpoint_events w cfg up e) = []
  /\ processed (checkpoint_events w cfg up e) = [].
Proof.
  unfold checkpoint_events.
  destruct (up && negb (db_progress_fault w e)); [|done].
  destruct (0 <? batchDelay cfg); done.
Qed.

(** *** Every checkpoint closes its batch *)

Lemma closes_quiet w p d up size X :
  checkpoints X = [] -> closes_batches w p d up size X.
Proof.
  intros Hq i e Hi. apply checkpoints_lookup in Hi. rewrite Hq in Hi.
  by apply elem_of_nil in Hi.
Qed.

Lemma closes_app w p d up size X Y :
  closes_batches w p d up size X -> closes_batches w p d up size Y ->
  closes_batches w p d up size (X ++ Y).
Proof.
  intros HX HY i e Hi.
  destruct (decide (i < length X)%nat) as [Hlt|Hge].
  - rewrite lookup_app_l in Hi by done.
    rewrite take_app_le by lia. by apply HX.
  - rewrite lookup_app_r in Hi by lia.
    destruct (HY _ _ Hi) as (before & cs & Htake & Hcs).
    exists (X ++ before), cs. split; [|done].
    rewrite take_app_ge by lia. by rewrite Htake, app_assoc.
Qed.

Lemma closes_batch w p d up size cfg currentStart currentEnd :
  (0 < size -> currentStart <= currentEnd) ->
  closes_batches w p d up size
    (batch_events w p d up currentStart currentEnd
     ++ checkpoint_events w cfg up currentEnd).
Proof.
  intros Hcs i e Hi.
  destruct (batch_events_proj w p d up currentStart currentEnd)
    as (_ & _ & Hq & _).
  set (B := batch_events w p d up currentStart currentEnd) in *.
  destruct (decide (i < length B)%nat) as [Hlt|Hge].
  { rewrite lookup_app_l in Hi by done.
    apply checkpoints_lookup in Hi. rewrite Hq in Hi.
    by apply elem_of_nil in Hi. }
  rewrite lookup_app_r in Hi by lia.
  revert Hi. unfold checkpoint_events.
  destruct (up && negb (db_progress_fault w currentEnd)); [|done].
  destruct (i - length B)%nat as [|j] eqn:Hj.
  - cbn. intros [= <-].
    exists [], currentStart. split; [|done].
    assert (i = length B) as -> by lia.
    by rewrite take_app_length.
  - cbn. destruct (0 <? batchDelay cfg); [|done].
    by destruct j.
Qed.

(** From the index form of [ordered] to its reading on a split trace. *)
Lemma ordered_split tr pre e post :
  ordered tr -> tr = pre ++ EvCheckpoint e :: post -> balanced pre.
Proof.
  intros Hord ->.
  specialize (Hord (length pre) e).
  rewrite take_app_length in Hord. apply Hord.
  by rewrite list_lookup_middle.
Qed.

End TraceFacts.

(** ** The batched loop *)

Section LoopFacts.
Import BlockScanner.
Variable w : World.

Lemma updateScanningProgress_up net n mode db :
  db_up (Database.updateScanningProgress w net n mode db).2 = db_up db
  /\ is_ok (Database.updateScanningProgress w net n mode db).1
     = db_up db && negb (db_progress_fault w n).
Proof.
  unfold Database.updateScanningProgress, db_up.
  destruct (Database.isInitialized db) eqn:Hi, (Database.closed db) eqn:Hc,
    (db_progress_fault w n); cbn; rewrite ?Hi, ?Hc; done.
Qed.

Lemma scan_batch_spec currentStart currentEnd s :
  frame (scan_batch w currentStart currentEnd s) = frame s
  /\ trace (scan_batch w currentStart currentEnd s)
     = trace s
       ++ batch_events w (provider s) (detector s) (db_up (database s))
            currentStart currentEnd
       ++ checkpoint_events w (scannerConfig s) (db_up (database s))
            currentEnd.
Proof.
  unfold scan_batch.
  destruct (processBatch_spec w currentStart currentEnd s)
    as (s1 & -> & Hf & Ht).
  destruct (updateScanningProgress_up (net_name (networkConfig s1)) currentEnd
              (scanMode (scannerConfig s1)) (database s1)) as [Hup Hok].
  unfold checkpoint_events.
  use_frame Hf.
  destruct (Database.updateScanningProgress w _ _ _ _) as [[[]|e] db'];
    cbn in Hup, Hok; rewrite <- Hok.
  - destruct (0 <? batchDelay (scannerConfig s)) eqn:Hd; cbn;
      rewrite ?Hcfg, ?Hd; cbn; (split; [unfold frame; cbn; congruence|]);
      rewrite Ht, <- !app_assoc; done.
  - split; [unfold frame; cbn; congruence|].
    cbn. by rewrite Ht, app_nil_r.
Qed.

(** A loop that is running, not paused, with a positive batch size and
    enough fuel: it ends, fetches each block of the range once, in order,
    processes the blocks that were returned, and keeps the trace balanced
    and ordered. *)
Lemma scan_loop_spec fuel :
  forall currentStart endBlk s,
    0 < batchSize (scannerConfig s) ->
    isRunning s = true -> isPaused s = false ->
    (Z.to_nat (endBlk - currentStart + 1) <= fuel)%nat ->
    exists s' X,
      scan_loop w fuel currentStart endBlk s = Some s'
      /\ frame s' = frame s
      /\ trace s' = trace s ++ X
      /\ fetched X = seqZ currentStart (endBlk - currentStart + 1)
      /\ processed X
         = omap (processed_as w (provider s))
             (seqZ currentStart (endBlk - currentStart + 1))
      /\ safe_chunk X.
Proof.
  induction fuel as [|fuel IH]; intros cs e s Hsize Hrun Hpau Hfuel.
  - cbn. destruct (Z.leb_spec cs e); [lia|].
    exists s, []. rewrite app_nil_r, seqZ_nil by lia.
    split_and!; try done. apply safe_nil.
  - cbn [scan_loop]. destruct (Z.leb_spec cs e) as [Hle|Hgt].
    2: { exists s, []. rewrite app_nil_r, seqZ_nil by lia.
         split_and!; try done. apply safe_nil. }
    rewrite Hrun, Hpau. cbn [negb orb].
    set (size := batchSize (scannerConfig s)) in *.
    set (ce := Z.min (cs + size - 1) e).
    destruct (scan_batch_spec cs ce s) as [Hf Ht].
    set (s1 := scan_batch w cs ce s) in *.
    use_frame Hf.
    destruct (IH (cs + size) e s1)
      as (s' & X & Hloop & Hf' & Ht' & Hfe & Hpr & Hsafe).
    { by rewrite Hcfg. } { congruence. } { congruence. } { lia. }
    rewrite Hprov in Hpr.
    destruct (batch_events_proj w (provider s) (detector s)
                (db_up (database s)) cs ce) as (B1 & B2 & B3 & B4).
    destruct (checkpoint_events_proj w (scannerConfig s)
                (db_up (database s)) ce) as (C1 & C2).
    eexists s', _. split; [exact Hloop|]. split; [congruence|].
    split; [rewrite Ht', Ht, <- !app_assoc; reflexivity|].
    assert (Hseq : seqZ cs (e - cs + 1)
                   = seqZ cs (ce - cs + 1)
                     ++ seqZ (cs + size) (e - (cs + size) + 1)).
    { subst ce. destruct (Z.min_spec (cs + size - 1) e) as [[Hlt ->]|[Hge ->]].
      - replace (e - cs + 1) with (size + (e - (cs + size) + 1)) by lia.
        rewrite seqZ_app by lia. f_equal. f_equal. lia.
      - rewrite (seqZ_nil (cs + size)) by lia. by rewrite app_nil_r. }
    rewrite !fetched_app, !processed_app, B1, B2, C1, C2, Hfe, Hpr, Hseq,
      omap_app.
    split_and!; try done.
    apply safe_app; [apply safe_quiet; assumption|].
    apply safe_app; [apply safe_checkpoint_events|exact Hsafe].
Qed.

End LoopFacts.

(** ** Lifting a step relation to a whole run *)

(** A relation between scanner states that holds across each step of
    [start] holds across [start]. *)
Section StartLifts.
Import BlockScanner.
Variable w : World.
Variable R : t -> t -> Prop.
Hypothesis R_refl : forall s, R s s.
Hypothesis R_trans : forall s1 s2 s3, R s1 s2 -> R s2 s3 -> R s1 s3.
Hypothesis R_batch :
  forall currentStart endBlk s,
    currentStart <= endBlk ->
    R s (scan_batch w currentStart
           (Z.min (currentStart + batchSize (scannerConfig s) - 1) endBlk) s).
Hypothesis R_flags : forall running paused s, R s (with_flags running paused s).
Hypothesis R_subscribed : forall s, R s (log [EvSubscribed] s).

Lemma scan_loop_lifts fuel :
  forall currentStart endBlk s s',
    scan_loop w fuel currentStart endBlk s = Some s' -> R s s'.
Proof.
  induction fuel as [|fuel IH]; intros cs e s s' Hloop; cbn in Hloop.
  - destruct (cs <=? e); [done|]. by injection Hloop as <-.
  - destruct (Z.leb_spec cs e) as [Hle|_]; [|by injection Hloop as <-].
    destruct (negb (isRunning s) || isPaused s); [by injection Hloop as <-|].
    apply IH in Hloop. eapply R_trans; [by apply R_batch|exact Hloop].
Qed.

Lemma startHistoricalScanning_lifts fuel s r s' :
  startHistoricalScanning w fuel s = Some (r, s') -> R s s'.
Proof.
  unfold startHistoricalScanning, scanBlockRange.
  destruct (determineBlockRange w s) as [[a b]|e].
  - destruct (scan_loop w fuel a b s) as [s1|] eqn:Hloop; [|done].
    intros [= _ <-]. by eapply scan_loop_lifts.
  - by intros [= _ <-].
Qed.

Lemma startRealtimeScanning_lifts s r s' :
  startRealtimeScanning s = (r, s') -> R s s'.
Proof.
  unfold startRealtimeScanning.
  destruct (EthereumProvider.ws (provider s)); intros [= _ <-]; done.
Qed.

Lemma start_lifts fuel s r s' :
  start w fuel s = Some (r, s') -> R s s'.
Proof.
  unfold start. destruct (isRunning s) eqn:Hrun.
  { by intros [= _ <-]. }
  unfold start_entered. rewrite Hrun.
  set (s1 := with_flags true (isPaused s) s).
  assert (H1 : R s s1) by apply R_flags.
  destruct (scanMode (scannerConfig s1)).
  - destruct (startRealtimeScanning s1) as [[[]|e] s2] eqn:H;
      intros [= _ <-]; apply startRealtimeScanning_lifts in H; eauto.
  - destruct (startHistoricalScanning w fuel s1) as [[[[]|e] s2]|] eqn:H;
      [| |done]; intros [= _ <-];
      apply startHistoricalScanning_lifts in H; eauto.
  - unfold startBothModes.
    destruct (startHistoricalScanning w fuel s1) as [[[[]|e] s2]|] eqn:H;
      [| |done]; apply startHistoricalScanning_lifts in H.
    + destruct (startRealtimeScanning s2) as [[[]|e] s3] eqn:H';
        intros [= _ <-]; apply startRealtimeScanning_lifts in H'; eauto 6.
    + intros [= _ <-]. eauto.
  - intros [= _ <-]. eauto.
Qed.

End StartLifts.

(** ** The batch before each checkpoint *)

Section BatchClosing.
Import BlockScanner.
Variable w : World.

(** From [s] to [s'] the parts of the scanner that decide what a batch logs
    are kept, and in what was logged every checkpoint closes its batch. *)
Local Abbreviation closing s s' :=
  ((provider s' = provider s
    /\ detector s' = detector s
    /\ db_up (database s') = db_up (database s)
    /\ scannerConfig s' = scannerConfig s)
   /\ exists X,
       trace s' = trace s ++ X
       /\ closes_batches w (provider s) (detector s) (db_up (database s))
            (batchSize (scannerConfig s)) X).

Lemma closing_quiet s s' X :
  provider s' = provider s -> detector s' = detector s ->
  database s' = database s -> scannerConfig s' = scannerConfig s ->
  trace s' = trace s ++ X -> checkpoints X = [] -> closing s s'.
Proof.
  intros Hp Hd Hdb Hc Ht Hq. split; [by rewrite Hdb|].
  exists X. split; [done|]. by apply closes_quiet.
Qed.

Lemma start_closes fuel s r s' :
  start w fuel s = Some (r, s') -> closing s s'.
Proof.
  apply (start_lifts w (fun s s' => closing s s')).
  - intros s0. apply (closing_quiet s0 s0 []); try done. by rewrite app_nil_r.
  - intros s1 s2 s3 ((Hp & Hd & Hu & Hc) & X & Ht & HX)
      ((Hp' & Hd' & Hu' & Hc') & Y & Ht' & HY).
    split; [split_and!; congruence|].
    exists (X ++ Y). split; [by rewrite Ht', Ht, app_assoc|].
    rewrite Hp, Hd, Hu, Hc in HY. by apply closes_app.
  - intros cs endBlk s0 Hle.
    set (ce := Z.min (cs + batchSize (scannerConfig s0) - 1) endBlk).
    destruct (scan_batch_spec w cs ce s0) as [Hf Ht].
    split.
    + unfold frame in Hf. injection Hf as _ Hc Hp Hd _ _ Hu. done.
    + eexists. split; [exact Ht|]. apply closes_batch. lia.
  - intros running paused s0.
    apply (closing_quiet s0 (with_flags running paused s0) []); try done.
    cbn. by rewrite app_nil_r.
  - intros s0. by apply (closing_quiet s0 (log [EvSubscribed] s0) [EvSubscribed]).
Qed.

End BatchClosing.

(** ** Retry policy of the chain client *)

(** C7 (counterexample). With [maxRetries = 3] and an operation that fails
    every time, [withRetry] invokes the operation four times: the number of
    attempts is not bounded by [maxRetries]. *)
Lemma withRetry_attempts_exceed_maxRetries :
  EthereumProvider.attempts
    (EthereumProvider.withRetry_run (Examples.connected 3)
       Examples.always_fails) = 4%nat
  /\ ~ (Z.of_nat
          (EthereumProvider.attempts
             (EthereumProvider.withRetry_run (Examples.connected 3)
                Examples.always_fails))
        <= EthereumProvider.maxRetries (Examples.connected 3)).
Proof. split; [reflexivity|]. change (~ (Z.of_nat 4 <= 3)). lia. Qed.

(** C7 (amended). A call through [withRetry] makes at most [maxRetries + 1]
    attempts, one initial attempt and up to [maxRetries] retries.  It stops at
    the first attempt that succeeds and returns its result; every earlier
    attempt failed.  Before retry number [k + 1] it sleeps
    [min (1000 * 2^k) 30000] milliseconds: 1000, then doubling, capped at
    30000.  When the last attempt fails too, all [maxRetries + 1] attempts
    were made and the error of the last one is thrown. *)
Theorem withRetry_policy {A} (p : EthereumProvider.t) (op : nat -> result A) :
  EthereumProvider.retryDelay p = 1000 ->
  EthereumProvider.maxRetryDelay p = 30000 ->
  0 <= EthereumProvider.maxRetries p ->
  let r := EthereumProvider.withRetry_run p op in
  (1 <= EthereumProvider.attempts r)%nat
  /\ Z.of_nat (EthereumProvider.attempts r) <= EthereumProvider.maxRetries p + 1
  /\ EthereumProvider.sleeps r
     = EthereumProvider.backoff <$> seq 0 (EthereumProvider.attempts r - 1)
  /\ EthereumProvider.withRetry p op = op (EthereumProvider.attempts r - 1)%nat
  /\ (forall k, (k < EthereumProvider.attempts r - 1)%nat ->
        is_ok (op k) = false)
  /\ (forall e, EthereumProvider.withRetry p op = Throw e ->
        Z.of_nat (EthereumProvider.attempts r)
        = EthereumProvider.maxRetries p + 1
        /\ op (Z.to_nat (EthereumProvider.maxRetries p)) = Throw e).
Proof.
  intros Hdelay Hmax Hretries. cbn zeta.
  unfold EthereumProvider.withRetry, EthereumProvider.withRetry_run.
  rewrite Hdelay.
  replace (Z.to_nat (EthereumProvider.maxRetries p + 1))
    with (S (Z.to_nat (EthereumProvider.maxRetries p))) by lia.
  pose proof (retry_loop_run p op Hmax
                (Z.to_nat (EthereumProvider.maxRetries p)) 0%nat None
                ltac:(lia)) as H.
  cbn zeta in H. change (EthereumProvider.backoff 0) with 1000 in H.
  change (EthereumProvider.backoff <$> seq 0 0) with (@nil Z) in H.
  destruct H as (Ha & Hs & Ho & Hk & He).
  split_and!; try lia; try assumption.
  - intros k Hlt. apply Hk. lia.
  - intros e Hthrow. specialize (He e Hthrow). split; [lia|].
    rewrite <- Hthrow, Ho. f_equal. lia.
Qed.

Lemma withRetry_policy_witness :
  EthereumProvider.sleeps
    (EthereumProvider.withRetry_run (Examples.connected 3)
       Examples.always_fails) = [1000; 2000; 4000]
  /\ EthereumProvider.withRetry (Examples.connected 3) Examples.always_fails
     = Examples.always_fails 3%nat.
Proof.
  destruct (withRetry_policy (Examples.connected 3) Examples.always_fails
              eq_refl eq_refl ltac:(cbn; lia)) as (_ & _ & Hs & Ho & _).
  split; [exact Hs|exact Ho].
Defined.

(** ** Batch fetch *)

(** C9. [getBatchBlocks] never fails.  Its result holds exactly the blocks of
    [[startBlock, endBlock]] whose individual fetch succeeded, each paired
    with its block number, in strictly ascending order of block number, and
    the result is the same whatever order the fetches settle in. *)
Theorem getBatchBlocks_sorted_fulfilled (w : World) (p : EthereumProvider.t)
    (startBlock endBlock : Z) :
  let range := seqZ startBlock (endBlock - startBlock + 1) in
  exists blocks,
    EthereumProvider.getBatchBlocks w p startBlock endBlock = Ok blocks
    /\ (forall n b, (n, b) ∈ blocks <->
          startBlock <= n <= endBlock /\ EthereumProvider.getBlock w p n = Ok b)
    /\ StronglySorted (fun a b : Z * option Block => a.1 < b.1) blocks
    /\ (forall settled,
          settled ≡ₚ EthereumProvider.fetch_one w p <$> range ->
          EthereumProvider.collect_settled settled = blocks).
Proof.
  cbn zeta.
  exists (EthereumProvider.fetched_blocks w p
            (seqZ startBlock (endBlock - startBlock + 1))).
  split; [apply getBatchBlocks_eq|]. split_and!.
  - intros n b. split.
    + intros H. apply elem_of_fetched_blocks in H as [Hin Hget]. cbn in *.
      apply elem_of_seqZ in Hin. split; [lia|done].
    + intros [Hn Hget]. unfold EthereumProvider.fetched_blocks.
      rewrite list_elem_of_omap. exists n. split.
      * apply elem_of_seqZ. lia.
      * unfold EthereumProvider.fulfilled. cbn. by rewrite Hget.
  - generalize (seqZ_strongly_sorted startBlock (endBlock - startBlock + 1)).
    generalize (seqZ startBlock (endBlock - startBlock + 1)) as ns.
    induction 1 as [|n ns Hns IH Hall]; [constructor|].
    rewrite fetched_blocks_cons.
    destruct (EthereumProvider.getBlock w p n) as [b|e]; [|done].
    constructor; [done|].
    rewrite Forall_forall. intros y Hy.
    apply elem_of_fetched_blocks in Hy as [Hy _].
    rewrite Forall_forall in Hall. specialize (Hall _ Hy). cbn. lia.
  - intros settled Hperm.
    apply collect_settled_any_order; [apply seqZ_strongly_sorted|done].
Qed.

Lemma getBatchBlocks_sorted_fulfilled_witness :
  EthereumProvider.collect_settled
    (reverse (EthereumProvider.fetch_one Examples.missing_101
                (Examples.connected 3) <$> seqZ 100 (103 - 100 + 1)))
  = [ (100, Some (Examples.chain_block 100));
      (102, Some (Examples.chain_block 102));
      (103, Some (Examples.chain_block 103)) ].
Proof.
  destruct (getBatchBlocks_sorted_fulfilled Examples.missing_101
              (Examples.connected 3) 100 103) as (blocks & Hb & _ & _ & Hs).
  rewrite (Hs _ (reverse_Permutation _)).
  vm_compute in Hb. by injection Hb as <-.
Defined.

(** ** The historical pass *)

Section PassFacts.
Import BlockScanner.
Variable w : World.

Lemma omap_id_on (f : Z -> option Z) (l : list Z) :
  (forall n, n ∈ l -> f n = Some n) -> omap f l = l.
Proof.
  induction l as [|n l IH]; intros H; [done|].
  cbn. rewrite (H n) by left. cbn. f_equal. apply IH.
  intros m Hm. apply H. by right.
Qed.

(** Whenever the loop ends, what it appended keeps the trace balanced and
    ordered, whatever the batch size, the flags and the fuel. *)
Lemma scan_loop_safe fuel :
  forall currentStart endBlk s s',
    scan_loop w fuel currentStart endBlk s = Some s' ->
    exists X, trace s' = trace s ++ X /\ safe_chunk X.
Proof.
  induction fuel as [|fuel IH]; intros cs e s s' Hloop; cbn in Hloop.
  - destruct (cs <=? e); [done|]. injection Hloop as <-.
    exists []. split; [by rewrite app_nil_r|apply safe_nil].
  - destruct (cs <=? e).
    2: { injection Hloop as <-.
         exists []. split; [by rewrite app_nil_r|apply safe_nil]. }
    destruct (negb (isRunning s) || isPaused s).
    { injection Hloop as <-.
      exists []. split; [by rewrite app_nil_r|apply safe_nil]. }
    apply IH in Hloop as (X & Ht & Hsafe).
    match type of Ht with
    | context [scan_batch w cs ?ce s] =>
        destruct (scan_batch_spec w cs ce s) as [_ Hb]
    end.
    eexists. split.
    + rewrite Ht, Hb, <- !app_assoc. reflexivity.
    + apply safe_app; [|apply safe_app; [apply safe_checkpoint_events|done]].
      match goal with
      | |- safe_chunk (batch_events ?w ?p ?d ?up ?a ?b) =>
          destruct (batch_events_proj w p d up a b) as (_ & _ & Hq & Hbal)
      end.
      by apply safe_quiet.
Qed.

Lemma start_safe fuel s r s' :
  start w fuel s = Some (r, s') ->
  exists X, trace s' = trace s ++ X /\ safe_chunk X.
Proof.
  assert (Hnil : forall t0 : t,
             exists X, trace t0 = trace t0 ++ X /\ safe_chunk X).
  { intros t0. exists []. split; [by rewrite app_nil_r|apply safe_nil]. }
  assert (Hhist : forall s0 r0 s0',
             startHistoricalScanning w fuel s0 = Some (r0, s0') ->
             exists X, trace s0' = trace s0 ++ X /\ safe_chunk X).
  { intros s0 r0 s0' H. unfold startHistoricalScanning in H.
    destruct (determineBlockRange w s0) as [[a b]|e].
    - unfold scanBlockRange in H.
      destruct (scan_loop w fuel a b s0) as [s1|] eqn:Hloop; [|done].
      injection H as _ <-. by eapply scan_loop_safe.
    - injection H as _ <-. apply Hnil. }
  assert (Hreal : forall s0 r0 s0',
             startRealtimeScanning s0 = (r0, s0') ->
             exists X, trace s0' = trace s0 ++ X /\ safe_chunk X).
  { intros s0 r0 s0' H. unfold startRealtimeScanning in H.
    destruct (EthereumProvider.ws (provider s0)); injection H as _ <-.
    - exists [EvSubscribed]. split; [done|]. by apply safe_quiet.
    - apply Hnil. }
  unfold start. destruct (isRunning s) eqn:Hrun.
  { intros [= _ <-]. apply Hnil. }
  unfold start_entered. rewrite Hrun.
  set (s1 := with_flags true (isPaused s) s).
  change (trace s) with (trace s1).
  destruct (scanMode (scannerConfig s1)).
  - destruct (startRealtimeScanning s1) as [[[]|e] s2] eqn:H;
      intros [= _ <-]; cbn [trace with_flags];
      eapply Hreal in H; exact H.
  - destruct (startHistoricalScanning w fuel s1) as [[[[]|e] s2]|] eqn:H;
      [| |done]; intros [= _ <-]; cbn [trace with_flags];
      eapply Hhist in H; exact H.
  - unfold startBothModes.
    destruct (startHistoricalScanning w fuel s1) as [[[[]|e] s2]|] eqn:H;
      [| |done].
    + apply Hhist in H as (X & HX & HsX).
      destruct (startRealtimeScanning s2) as [[[]|e] s3] eqn:H';
        intros [= _ <-]; cbn [trace with_flags];
        apply Hreal in H' as (Y & HY & HsY);
        (exists (X ++ Y); split; [rewrite HY, HX, app_assoc; done
                                 |by apply safe_app]).
    + intros [= _ <-]. cbn [trace with_flags]. apply Hhist in H. exact H.
  - intros [= _ <-]. cbn [trace with_flags]. apply Hnil.
Qed.

Lemma determineBlockRange_eq s latestBlock progress :
  EthereumProvider.getLatestBlockNumber w (provider s) = Ok latestBlock ->
  Database.getScanningProgress (net_name (networkConfig s)) (database s)
  = Ok progress ->
  (forall row, progress = Some row -> Database.last_scanned_block row <> 0) ->
  let configured := resolve (startBlock (scannerConfig s)) latestBlock in
  let resolvedEnd := resolve (endBlock (scannerConfig s)) latestBlock in
  let resolvedStart :=
    match progress with
    | Some row => Z.max configured (Database.last_scanned_block row + 1)
    | None => configured
    end in
  determineBlockRange w s
  = if resolvedEnd <? resolvedStart
    then Throw "Invalid block range"
    else Ok (resolvedStart, resolvedEnd).
Proof.
  intros Hlatest Hprog Hnz. cbn zeta. unfold determineBlockRange.
  rewrite Hlatest, Hprog. destruct progress as [row|]; [|done].
  unfold truthy_num.
  destruct (Z.eqb_spec (Database.last_scanned_block row) 0) as [H0|_];
    [|done].
  by destruct (Hnz row eq_refl).
Qed.

End PassFacts.

(** A progress row at block 0 is falsy in [determineBlockRange]: with the
    configured start at 0 the range starts again at 0, not at 1. *)
Lemma checkpoint_zero_is_ignored :
  let s := Examples.idle (Examples.historical_cfg 0 3 2) in
  let db := (Database.updateScanningProgress Examples.healthy
               "Ethereum Mainnet" 0 Database.historical
               Database.initialized).2 in
  BlockScanner.determineBlockRange Examples.healthy
    (BlockScanner.with_database db s) = Ok (0, 3).
Proof. vm_compute. reflexivity. Qed.

Lemma balanced_nil : BlockScanner.balanced [].
Proof. unfold BlockScanner.balanced. done. Qed.

Lemma ordered_nil : BlockScanner.ordered [].
Proof. intros i e H. by rewrite lookup_nil in H. Qed.

(** Batch size 2 on range [[100, 103]] with every fetch succeeding: two
    checkpoints, the last one at 103, and four blocks processed. *)
Lemma two_batches_scenario :
  BlockScanner.checkpoints Examples.healthy_trace = [101; 103]
  /\ BlockScanner.processed Examples.healthy_trace = [100; 101; 102; 103]
  /\ BlockScanner.blocksProcessed (BlockScanner.stats Examples.healthy_final)
     = 4
  /\ Database.last_scanned_block
     <$> Database.scanning_progress
           (BlockScanner.database Examples.healthy_final) = [103].
Proof. split_and!; vm_compute; reflexivity. Qed.

(** C1 (counterexample). Range [[100, 103]] in batches of two on a node that
    cannot deliver block 101: the pass completes, and block 101, which lies
    in the resolved range, is never processed. *)
Lemma historical_pass_skips_unfetched_block :
  exists s',
    BlockScanner.start Examples.missing_101 4
      (Examples.idle (Examples.historical_cfg 100 103 2)) = Some (Ok tt, s')
    /\ BlockScanner.determineBlockRange Examples.missing_101
         (Examples.idle (Examples.historical_cfg 100 103 2)) = Ok (100, 103)
    /\ BlockScanner.processed (BlockScanner.trace s') = [100; 102; 103].
Proof. eexists. split_and!; vm_compute; reflexivity. Qed.

(** C1 (amended). Let the configuration be valid (historical mode, batch size
    at least one) and the scanner not running and not paused, and let the
    resolved start be the configured start, or, when a progress row with a
    non-zero block exists for the network, the maximum of the configured start
    and that block plus one.  If the resolved start is at most the resolved
    end, one pass issues a fetch for every block of the resolved range exactly
    once, in ascending order across its batches, and processes exactly the
    blocks whose fetch returned a block, each once; when every fetch returns
    its block, every block of the range is processed exactly once.  If the
    resolved start exceeds the resolved end, [start] throws and leaves the
    scanner as it was: nothing is fetched. *)
Theorem historical_pass_covers_range (w : World) (s : BlockScanner.t)
    (fuel : nat) (latestBlock : Z) (progress : option Database.ProgressRow) :
  let cfg := BlockScanner.scannerConfig s in
  let configured :=
    BlockScanner.resolve (BlockScanner.startBlock cfg) latestBlock in
  let resolvedEnd :=
    BlockScanner.resolve (BlockScanner.endBlock cfg) latestBlock in
  let resolvedStart :=
    match progress with
    | Some row => Z.max configured (Database.last_scanned_block row + 1)
    | None => configured
    end in
  let range := seqZ resolvedStart (resolvedEnd - resolvedStart + 1) in
  BlockScanner.scanMode cfg = Database.historical ->
  0 < BlockScanner.batchSize cfg ->
  BlockScanner.isRunning s = false ->
  BlockScanner.isPaused s = false ->
  EthereumProvider.getLatestBlockNumber w (BlockScanner.provider s)
  = Ok latestBlock ->
  Database.getScanningProgress (net_name (BlockScanner.networkConfig s))
    (BlockScanner.database s) = Ok progress ->
  (forall row, progress = Some row -> Database.last_scanned_block row <> 0) ->
  (resolvedStart <= resolvedEnd ->
   (Z.to_nat (resolvedEnd - resolvedStart + 1) <= fuel)%nat ->
   exists s',
     BlockScanner.start w fuel s = Some (Ok tt, s')
     /\ BlockScanner.fetched (BlockScanner.trace s')
        = BlockScanner.fetched (BlockScanner.trace s) ++ range
     /\ BlockScanner.processed (BlockScanner.trace s')
        = BlockScanner.processed (BlockScanner.trace s)
          ++ omap (BlockScanner.processed_as w (BlockScanner.provider s)) range
     /\ ((forall n, resolvedStart <= n <= resolvedEnd ->
            BlockScanner.processed_as w (BlockScanner.provider s) n = Some n) ->
         BlockScanner.processed (BlockScanner.trace s')
         = BlockScanner.processed (BlockScanner.trace s) ++ range))
  /\ (resolvedEnd < resolvedStart ->
      exists e, BlockScanner.start w fuel s = Some (Throw e, s)).
Proof.
  intros cfg configured resolvedEnd resolvedStart range
    Hmode Hsize Hrun Hpau Hlatest Hprog Hnz.
  set (s1 := BlockScanner.start_entered s).
  assert (Hs1 : s1 = BlockScanner.with_flags true false s).
  { unfold s1, BlockScanner.start_entered. by rewrite Hrun, Hpau. }
  pose proof (determineBlockRange_eq w s1 latestBlock progress) as Hrange.
  rewrite Hs1 in Hrange. cbn in Hrange.
  specialize (Hrange Hlatest Hprog Hnz).
  fold cfg configured resolvedEnd resolvedStart in Hrange.
  unfold BlockScanner.start. rewrite Hrun. fold s1. rewrite Hs1. cbn.
  fold cfg. rewrite Hmode.
  unfold BlockScanner.startHistoricalScanning. rewrite Hrange.
  split.
  - intros Hle Hfuel.
    destruct (Z.ltb_spec resolvedEnd resolvedStart); [lia|].
    unfold BlockScanner.scanBlockRange.
    destruct (scan_loop_spec w fuel resolvedStart resolvedEnd
                (BlockScanner.with_flags true false s))
      as (s' & X & -> & Hf & Ht & Hfe & Hpr & _); try done.
    exists s'. split; [done|].
    cbn in Ht, Hpr. fold range in Hfe, Hpr.
    rewrite Ht, fetched_app, processed_app, Hfe, Hpr.
    split_and!; try done.
    intros Hall. f_equal. apply omap_id_on.
    intros n Hn. apply Hall. unfold range in Hn.
    apply elem_of_seqZ in Hn. lia.
  - intros Hgt.
    destruct (Z.ltb_spec resolvedEnd resolvedStart); [|lia].
    eexists. do 2 f_equal.
    destruct s; cbn in *; by subst.
Qed.

Lemma historical_pass_covers_range_witness :
  exists s',
    BlockScanner.start Examples.healthy 4
      (Examples.idle (Examples.historical_cfg 100 103 2)) = Some (Ok tt, s')
    /\ BlockScanner.fetched (BlockScanner.trace s')
       = [] ++ seqZ 100 (103 - 100 + 1).
Proof.
  destruct (historical_pass_covers_range Examples.healthy
              (Examples.idle (Examples.historical_cfg 100 103 2)) 4 200 None
              eq_refl ltac:(cbn; lia) eq_refl eq_refl eq_refl eq_refl
              ltac:(intros row H; discriminate H)) as [H _].
  destruct (H ltac:(cbn; lia) ltac:(cbn; lia)) as (s' & Hs & Hf & _).
  exists s'. split; [exact Hs|exact Hf].
Defined.

(** ** Checkpoints and persistence *)

(** C2 (counterexample). One batch holding block 100, whose records the
    database refuses to store: the pass still writes the checkpoint 100, and
    the [contracts] table stays empty although three records were detected. *)
Lemma checkpoint_advances_past_failed_saves :
  exists s',
    BlockScanner.start Examples.failing_sink 1
      (Examples.idle (Examples.historical_cfg 100 100 2)) = Some (Ok tt, s')
    /\ BlockScanner.checkpoints (BlockScanner.trace s') = [100]
    /\ Database.last_scanned_block
       <$> Database.scanning_progress (BlockScanner.database s') = [100]
    /\ length (BlockScanner.detected (BlockScanner.trace s')) = 3%nat
    /\ BlockScanner.saved (BlockScanner.trace s') = []
    /\ Database.contracts (BlockScanner.database s') = [].
Proof. eexists. split_and!; vm_compute; reflexivity. Qed.

(** With a driver that settles saves last-first, the three records of block
    100 have all settled when the checkpoint 101 is written, in another order
    than the one in which they were detected. *)
Lemma saves_settle_out_of_order :
  Examples.reordered_trace !! 7%nat = Some (BlockScanner.EvCheckpoint 101)
  /\ BlockScanner.attempted (take 7 Examples.reordered_trace)
     = reverse (BlockScanner.detected (take 7 Examples.reordered_trace))
  /\ length (BlockScanner.detected (take 7 Examples.reordered_trace)) = 3%nat.
Proof. split_and!; vm_compute; reflexivity. Qed.

(** C2 (amended). In any run of [start], a checkpoint is written only after
    its batch has been worked off.  The events logged next before the
    checkpoint for block [e] are those of one batch [currentStart .. e]:
    every block of the batch has been requested, the blocks run through the
    detector are those whose fetch returned a block, the records detected are
    those the detector returns for these blocks, and the save of every one of
    them has settled, by success or by a logged failure, in whatever order
    the driver settles them; which saves succeed is decided by the database
    and the record, and a failed save does not hold the checkpoint back.  The
    saves of all records that the run detected before the checkpoint have
    settled as well.  A historical run with a positive batch size on a
    scanner that is not running and not paused does return, given fuel for
    its range. *)
Theorem checkpoint_follows_settled_saves (w : World) (fuel : nat)
    (s : BlockScanner.t) :
  (forall r s',
      BlockScanner.start w fuel s = Some (r, s') ->
      exists X,
        BlockScanner.trace s' = BlockScanner.trace s ++ X
        /\ forall pre e post,
            X = pre ++ BlockScanner.EvCheckpoint e :: post ->
            BlockScanner.attempted pre ≡ₚ BlockScanner.detected pre
            /\ exists before batch currentStart,
                pre = before ++ batch
                /\ (0 < BlockScanner.batchSize (BlockScanner.scannerConfig s)
                    -> currentStart <= e)
                /\ BlockScanner.fetched batch
                   = seqZ currentStart (e - currentStart + 1)
                /\ BlockScanner.processed batch
                   ≡ₚ omap
                        (BlockScanner.processed_as w (BlockScanner.provider s))
                        (seqZ currentStart (e - currentStart + 1))
                /\ BlockScanner.detected batch
                   ≡ₚ flat_map
                        (BlockScanner.detected_as w (BlockScanner.provider s)
                           (BlockScanner.detector s))
                        (seqZ currentStart (e - currentStart + 1))
                /\ BlockScanner.checkpoints batch = []
                /\ BlockScanner.attempted batch
                   ≡ₚ BlockScanner.detected batch
                /\ BlockScanner.saved batch
                   ≡ₚ List.filter
                        (BlockScanner.save_succeeds w
                           (BlockScanner.db_up (BlockScanner.database s)))
                        (BlockScanner.detected batch)
                /\ BlockScanner.save_failed batch
                   ≡ₚ List.filter
                        (fun c =>
                           negb (BlockScanner.save_succeeds w
                                   (BlockScanner.db_up
                                      (BlockScanner.database s)) c))
                        (BlockScanner.detected batch))
  /\ (forall startBlk endBlk,
        BlockScanner.scanMode (BlockScanner.scannerConfig s)
        = Database.historical ->
        0 < BlockScanner.batchSize (BlockScanner.scannerConfig s) ->
        BlockScanner.isRunning s = false ->
        BlockScanner.isPaused s = false ->
        BlockScanner.determineBlockRange w s = Ok (startBlk, endBlk) ->
        (Z.to_nat (endBlk - startBlk + 1) <= fuel)%nat ->
        exists s', BlockScanner.start w fuel s = Some (Ok tt, s')).
Proof.
  split.
  - intros r s' Hstart.
    destruct (start_closes w fuel s r s' Hstart) as (_ & X & HX & Hclose).
    destruct (start_safe w fuel s r s' Hstart) as (X' & HX' & Hsafe).
    assert (X' = X) as ->.
    { rewrite HX in HX'. by apply app_inv_head in HX'. }
    exists X. split; [done|]. intros pre e post ->.
    destruct (Hsafe [] balanced_nil ordered_nil) as [_ Hord].
    split; [exact (ordered_split _ _ _ _ Hord eq_refl)|].
    destruct (Hclose (length pre) e) as (before & cs & Htake & Hcs).
    { by rewrite list_lookup_middle. }
    rewrite take_app_length in Htake.
    destruct (batch_events_proj w (BlockScanner.provider s)
                (BlockScanner.detector s)
                (BlockScanner.db_up (BlockScanner.database s)) cs e)
      as (B1 & B2 & B3 & B4).
    destruct (batch_events_records w (BlockScanner.provider s)
                (BlockScanner.detector s)
                (BlockScanner.db_up (BlockScanner.database s)) cs e)
      as (B5 & B6 & B7).
    eexists before, _, cs. split; [exact Htake|].
    split_and!; try done; [by rewrite B2|by rewrite B5].
  - intros a b Hmode Hsize Hrun Hpau Hrange Hfuel.
    unfold BlockScanner.start, BlockScanner.start_entered. rewrite Hrun.
    cbn [BlockScanner.scannerConfig BlockScanner.with_flags]. rewrite Hmode.
    unfold BlockScanner.startHistoricalScanning.
    change (BlockScanner.determineBlockRange w
              (BlockScanner.with_flags true (BlockScanner.isPaused s) s))
      with (BlockScanner.determineBlockRange w s).
    rewrite Hrange. unfold BlockScanner.scanBlockRange.
    destruct (scan_loop_spec w fuel a b
                (BlockScanner.with_flags true (BlockScanner.isPaused s) s))
      as (s' & X & -> & _); try done.
    by exists s'.
Qed.

Lemma checkpoint_follows_settled_saves_witness :
  BlockScanner.attempted (take 7 Examples.reordered_trace)
  ≡ₚ BlockScanner.detected (take 7 Examples.reordered_trace)
  /\ exists before batch currentStart,
      take 7 Examples.reordered_trace = before ++ batch
      /\ currentStart <= 101
      /\ BlockScanner.fetched batch
         = seqZ currentStart (101 - currentStart + 1)
      /\ BlockScanner.attempted batch ≡ₚ BlockScanner.detected batch.
Proof.
  destruct (checkpoint_follows_settled_saves Examples.reordering 4
              (Examples.idle (Examples.historical_cfg 100 103 2)))
    as [H _].
  destruct (H (Ok tt) Examples.reordered_final
              ltac:(vm_compute; reflexivity)) as (X & HX & Hck).
  assert (HT : Examples.reordered_trace = X) by exact HX.
  destruct (Hck (take 7 Examples.reordered_trace) 101
              (drop 8 Examples.reordered_trace))
    as (Hbal & before & batch & cs & Hpre & Hcs & Hf & _ & _ & _ & Hb & _).
  { rewrite <- HT. vm_compute. reflexivity. }
  split; [exact Hbal|].
  exists before, batch, cs. split_and!; try done.
  apply Hcs. vm_compute. reflexivity.
Defined.

(** ** The contracts table *)

Section SinkFacts.
Variable w : World.

Lemma saveContract_ok c db db' :
  Database.saveContract w c db = (Ok tt, db') ->
  exists row,
    Database.contract_row (Database.contracts_seq db + 1) c = Some row
    /\ db' = Database.insert_or_replace_contract row db.
Proof.
  unfold Database.saveContract.
  destruct (negb (Database.isInitialized db)); [done|].
  destruct (Database.closed db); [done|].
  destruct (db_contract_fault w c); [done|].
  destruct (Database.contract_row _ c) as [row|]; [|done].
  intros [= <-]. by exists row.
Qed.

Lemma contract_row_address id c row :
  Database.contract_row id c = Some row ->
  Database.c_address row = address c /\ Database.c_id row = id.
Proof.
  unfold Database.contract_row.
  destruct (transactionHash c); [|done]. by intros [= <-].
Qed.

Lemma filter_none {A} (f : A -> bool) (l : list A) :
  (forall x, x ∈ l -> f x = false) -> List.filter f l = [].
Proof.
  induction l as [|x l IH]; intros H; [done|].
  cbn. rewrite (H x) by left. apply IH. intros y Hy. apply H. by right.
Qed.

Lemma filter_filter_same {A} (f g : A -> bool) (l : list A) :
  (forall x, g x = true -> f x = true) ->
  List.filter g (List.filter f l) = List.filter g l.
Proof.
  intros H. induction l as [|x l IH]; [done|].
  cbn. destruct (f x) eqn:Hf; cbn.
  - by rewrite IH.
  - destruct (g x) eqn:Hg; [|done]. apply H in Hg. congruence.
Qed.

Lemma rows_after_insert row db a :
  Database.rows_with_address a (Database.insert_or_replace_contract row db)
  = if String.eqb (Database.c_address row) a
    then [row]
    else Database.rows_with_address a db.
Proof.
  unfold Database.rows_with_address, Database.insert_or_replace_contract.
  cbn. rewrite List.filter_app. cbn.
  destruct (String.eqb_spec (Database.c_address row) a) as [->|Hne].
  - rewrite filter_none; [done|].
    intros x Hx. apply list_elem_of_In, List.filter_In in Hx as [_ Hx].
    by destruct (String.eqb (Database.c_address x) a).
  - rewrite app_nil_r. apply filter_filter_same.
    intros x Hx. apply String.eqb_eq in Hx. subst a.
    destruct (String.eqb_spec (Database.c_address x) (Database.c_address row));
      [congruence|done].
Qed.

End SinkFacts.

(** C3 (counterexample). The same address saved first for Ethereum Mainnet
    and then for Polygon Mainnet: after the second save no row is left for
    the (address, Ethereum Mainnet) pair; the second record has replaced the
    first instead of being stored beside it. *)
Lemma same_address_on_other_network_overwrites :
  exists db1 db2,
    Database.saveContract Examples.healthy
      (Examples.record_on "Ethereum Mainnet" 2) Database.initialized
    = (Ok tt, db1)
    /\ Database.saveContract Examples.healthy
         (Examples.record_on "Polygon Mainnet" 4) db1 = (Ok tt, db2)
    /\ length (Database.rows_for "0xaa" "Ethereum Mainnet" db1) = 1%nat
    /\ Database.rows_for "0xaa" "Ethereum Mainnet" db2 = []
    /\ length (Database.contracts db2) = 1%nat.
Proof. do 2 eexists. split_and!; vm_compute; reflexivity. Qed.

(** C3 (amended). The address alone is the key of the [contracts] table.
    After two successful saves of records with the same address, whatever
    their networks, exactly one row is stored for that address; it carries
    the fields of the second record, network included, under a fresh id; the
    rows of every other address are left as they were. *)
Theorem saveContract_last_write_wins (w : World) (db db1 db2 : Database.t)
    (c1 c2 : ContractRecord) :
  Database.saveContract w c1 db = (Ok tt, db1) ->
  Database.saveContract w c2 db1 = (Ok tt, db2) ->
  address c1 = address c2 ->
  exists row,
    Database.rows_with_address (address c2) db2 = [row]
    /\ Database.contract_row (Database.c_id row) c2 = Some row
    /\ Database.c_network row = network c2
    /\ (forall a, a <> address c2 ->
          Database.rows_with_address a db2 = Database.rows_with_address a db1).
Proof.
  intros _ H2 _.
  apply saveContract_ok in H2 as (row & Hrow & ->).
  pose proof (contract_row_address _ _ _ Hrow) as [Haddr Hid].
  exists row. split_and!.
  - by rewrite rows_after_insert, Haddr, String.eqb_refl.
  - by rewrite Hid.
  - unfold Database.contract_row in Hrow.
    destruct (transactionHash c2); [|done]. by injection Hrow as <-.
  - intros a Ha. rewrite rows_after_insert, Haddr.
    destruct (String.eqb_spec (address c2) a); [congruence|done].
Qed.

Lemma saveContract_last_write_wins_witness :
  exists row,
    Database.rows_with_address "0xaa" Examples.twice_saved = [row]
    /\ Database.c_network row = "Polygon Mainnet".
Proof.
  destruct (saveContract_last_write_wins Examples.healthy
              Database.initialized Examples.once_saved Examples.twice_saved
              (Examples.record_on "Ethereum Mainnet" 2)
              (Examples.record_on "Polygon Mainnet" 4)
              ltac:(vm_compute; reflexivity) ltac:(vm_compute; reflexivity)
              eq_refl) as (row & Hrows & _ & Hnet & _).
  exists row. split; [exact Hrows|exact Hnet].
Defined.

(** ** The detector *)

Section DetectorFacts.
Variable w : World.
Variable p : EthereumProvider.t.
Variable d : ContractDetector.t.

(** The record is for an address whose fetched bytecode is not empty. *)
Local Abbreviation backed r :=
  (exists a code,
      address r = toLowerCase a
      /\ EthereumProvider.getCode w p a = Ok (Some code)
      /\ code <> "" /\ code <> "0x").

Lemma truthy_str_Some s : truthy_str (Some s) = true <-> s <> "".
Proof.
  cbn. destruct (String.eqb_spec s ""); cbn; split; congruence.
Qed.

Lemma extractContractData_Some tx receipt block a r :
  ContractDetector.extractContractData w p d tx receipt block a = Some r ->
  address r = toLowerCase a
  /\ creationType r = None
  /\ ContractDetector.analyzeBytecode d = false
  /\ exists code,
       EthereumProvider.getCode w p a = Ok (Some code)
       /\ code <> "" /\ code <> "0x".
Proof.
  unfold ContractDetector.extractContractData,
    ContractDetector.extractContractData_try.
  destruct (EthereumProvider.getCode w p a) as [[code|]|e]; [|done|done].
  destruct (negb (truthy_str (Some code))) eqn:Ht; cbn [orb]; [done|].
  destruct (String.eqb_spec code "0x") as [|Hne]; [done|].
  destruct (ContractDetector.analyzeBytecode d); [done|].
  intros [= <-]. cbn. split_and!; try done.
  exists code. split_and!; try done.
  apply truthy_str_Some. by destruct (truthy_str (Some code)).
Qed.

Lemma extractContractData_intro tx receipt block a code :
  EthereumProvider.getCode w p a = Ok (Some code) ->
  code <> "" -> code <> "0x" ->
  ContractDetector.analyzeBytecode d = false ->
  exists r,
    ContractDetector.extractContractData w p d tx receipt block a = Some r
    /\ address r = toLowerCase a /\ creationType r = None.
Proof.
  intros Hcode Hne H0x Han.
  unfold ContractDetector.extractContractData,
    ContractDetector.extractContractData_try.
  rewrite Hcode, Han.
  apply truthy_str_Some in Hne. rewrite Hne. cbn [negb orb].
  destruct (String.eqb_spec code "0x"); [done|].
  eexists. split; [reflexivity|]. done.
Qed.

Lemma extractContractData_empty tx receipt block a :
  EthereumProvider.getCode w p a = Ok None
  \/ EthereumProvider.getCode w p a = Ok (Some "")
  \/ EthereumProvider.getCode w p a = Ok (Some "0x")
  \/ (exists e, EthereumProvider.getCode w p a = Throw e) ->
  ContractDetector.extractContractData w p d tx receipt block a = None.
Proof.
  unfold ContractDetector.extractContractData,
    ContractDetector.extractContractData_try.
  intros [->|[->|[->|[e ->]]]]; done.
Qed.

Lemma isContract_intro a code :
  EthereumProvider.getCode w p a = Ok (Some code) -> code <> "0x" ->
  EthereumProvider.isContract w p a = true.
Proof.
  intros Hcode Hne. unfold EthereumProvider.isContract. rewrite Hcode.
  by destruct (String.eqb_spec code "0x").
Qed.

Lemma set_creationType_fields t r :
  address (set_creationType t r) = address r
  /\ creationType (set_creationType t r) = Some t.
Proof. done. Qed.

Lemma create2_member tx receipt block r :
  r ∈ ContractDetector.detectCreate2Contracts w p d tx receipt block ->
  creationType r = Some create2 /\ backed r.
Proof.
  unfold ContractDetector.detectCreate2Contracts.
  destruct (tx_data tx) as [data|]; [|by intros ?%elem_of_nil].
  destruct (includes "f5" data); [|by intros ?%elem_of_nil].
  rewrite list_elem_of_In, in_flat_map. intros (l & _ & Hin).
  destruct (log_address l) as [a|]; [|done].
  destruct (_ && _); [|done].
  destruct (ContractDetector.extractContractData w p d tx receipt block a)
    as [cd|] eqn:Hcd; [|done].
  destruct Hin as [<-|[]].
  apply extractContractData_Some in Hcd as (Ha & _ & _ & code & Hc & H1 & H2).
  split; [done|]. by exists a, code.
Qed.

Lemma factory_log_member tx receipt block l r :
  r ∈ ContractDetector.factory_from_log w p d tx receipt block l ->
  creationType r = Some factory /\ backed r.
Proof.
  unfold ContractDetector.factory_from_log.
  destruct (ContractDetector.is_creation_topic l); [|by intros ?%elem_of_nil].
  destruct (ContractDetector.extractAddressFromLog l) as [a|];
    [|by intros ?%elem_of_nil].
  destruct (_ && _); [|by intros ?%elem_of_nil].
  destruct (ContractDetector.extractContractData w p d tx receipt block a)
    as [cd|] eqn:Hcd; [|by intros ?%elem_of_nil].
  intros ->%list_elem_of_singleton.
  apply extractContractData_Some in Hcd as (Ha & _ & _ & code & Hc & H1 & H2).
  split; [done|]. by exists a, code.
Qed.

Lemma factory_member receipt tx block r :
  r ∈ ContractDetector.detectFactoryContracts w p d receipt tx block ->
  (creationType r = Some factory \/ creationType r = Some create2)
  /\ backed r.
Proof.
  unfold ContractDetector.detectFactoryContracts.
  rewrite elem_of_app. intros [H|H].
  - rewrite list_elem_of_In, in_flat_map in H. destruct H as (l & _ & Hin).
    apply list_elem_of_In, factory_log_member in Hin as [Ht Hb]. eauto.
  - destruct (tx_data tx) as [data|]; [|by apply elem_of_nil in H].
    destruct (_ && _); [|by apply elem_of_nil in H].
    apply create2_member in H as [Ht Hb]. eauto.
Qed.

Lemma factory_no_logs receipt tx block :
  rc_logs receipt = [] ->
  ContractDetector.detectFactoryContracts w p d receipt tx block = [].
Proof.
  intros Hlogs.
  unfold ContractDetector.detectFactoryContracts,
    ContractDetector.detectCreate2Contracts.
  rewrite Hlogs. cbn [flat_map app].
  destruct (tx_data tx) as [data|]; [|done].
  destruct (_ && _); [|done]. by destruct (includes "f5" data).
Qed.

Lemma transaction_member otx block l r :
  ContractDetector.processTransaction_try w p d otx block = Ok (Some l) ->
  r ∈ l -> backed r.
Proof.
  unfold ContractDetector.processTransaction_try.
  destruct otx as [tx|]; [|done].
  destruct (negb (truthy_str (tx_hash tx))); [done|].
  destruct (negb (EthereumProvider.isContractCreation tx)); [done|].
  destruct (EthereumProvider.getTransactionReceipt w p (tx_hash tx))
    as [[receipt|]|e]; [|done|done].
  destruct (negb (bool_decide (rc_status receipt = Some 1))); [done|].
  intros [= <-]. rewrite elem_of_app. intros [H|H].
  - destruct (rc_contractAddress receipt) as [a|]; [|by apply elem_of_nil in H].
    destruct (negb (String.eqb a "")); [|by apply elem_of_nil in H].
    destruct (ContractDetector.extractContractData w p d tx receipt block a)
      as [cd|] eqn:Hcd; [|by apply elem_of_nil in H].
    apply list_elem_of_singleton in H as ->.
    apply extractContractData_Some in Hcd as (Ha & _ & _ & code & Hc & H1 & H2).
    by exists a, code.
  - by apply factory_member in H as [_ H].
Qed.

Lemma transaction_result_member block otx r :
  r ∈ ContractDetector.pushed
        (ContractDetector.transaction_result w p d block otx) ->
  backed r.
Proof.
  unfold ContractDetector.transaction_result,
    ContractDetector.processTransaction.
  destruct (ContractDetector.processTransaction_try w p d otx block)
    as [[l|]|e] eqn:Htry; cbn; try by intros ?%elem_of_nil.
  by eapply transaction_member.
Qed.

Lemma match_address_nonempty s a : match_address s = Some a -> a <> "".
Proof.
  induction s as [|c s IH]; [done|].
  cbn [match_address].
  destruct (_ && _); [|exact IH].
  intros [= <-]. done.
Qed.

Lemma extractAddressFromLog_nonempty l a :
  ContractDetector.extractAddressFromLog l = Some a -> a <> "".
Proof.
  unfold ContractDetector.extractAddressFromLog.
  assert (Hdata : match log_data l with
                  | Some data =>
                      if truthy_str (Some data)
                         && (66 <=? String.length data)%nat
                      then match_address data else None
                  | None => None
                  end = Some a -> a <> "").
  { destruct (log_data l) as [data|]; [|done].
    destruct (_ && _); [|done]. apply match_address_nonempty. }
  destruct (log_topics l) as [|t0 [|topic ts]]; try exact Hdata.
  destruct (_ && _); [|exact Hdata]. by intros [= <-].
Qed.

(** The records of a block are those of its valid transactions, in order. *)
Lemma processBlock_array b txs :
  blk_transactions b = TxArray txs ->
  ContractDetector.processBlock w p d (Some b)
  = Ok (flat_map
          (fun tx =>
             ContractDetector.pushed
               (ContractDetector.transaction_result w p d b tx))
          (List.filter ContractDetector.valid_transaction txs)).
Proof.
  intros Htx.
  unfold ContractDetector.processBlock, ContractDetector.processBlock_try.
  rewrite Htx. f_equal.
  induction (List.filter ContractDetector.valid_transaction txs)
    as [|tx l IH]; [done|].
  cbn. by rewrite IH.
Qed.

End DetectorFacts.

(** With [analyzeBytecode] enabled no address yields a record: the call of
    the boolean field raises, and the [catch] clause answers [null]. *)
Lemma analysis_flag_silences_extraction w p d tx receipt block a :
  ContractDetector.analyzeBytecode d = true ->
  ContractDetector.extractContractData w p d tx receipt block a = None.
Proof.
  intros Han.
  unfold ContractDetector.extractContractData,
    ContractDetector.extractContractData_try.
  rewrite Han.
  destruct (EthereumProvider.getCode w p a) as [[code|]|e]; try done.
  by destruct (_ || _).
Qed.

(** C4. Every record that the detector returns for a block, on the direct,
    the factory or the CREATE2 path, is for an address whose fetched bytecode
    is neither empty nor ["0x"]; and an address whose [getCode] answer is
    absent, empty, ["0x"] or an error never yields a record. *)
Theorem detector_records_have_bytecode (w : World) (p : EthereumProvider.t)
    (d : ContractDetector.t) :
  (forall blk contracts r,
      ContractDetector.processBlock w p d blk = Ok contracts ->
      r ∈ contracts ->
      exists a code,
        address r = toLowerCase a
        /\ EthereumProvider.getCode w p a = Ok (Some code)
        /\ code <> "" /\ code <> "0x")
  /\ (forall tx receipt block a,
        EthereumProvider.getCode w p a = Ok None
        \/ EthereumProvider.getCode w p a = Ok (Some "")
        \/ EthereumProvider.getCode w p a = Ok (Some "0x")
        \/ (exists e, EthereumProvider.getCode w p a = Throw e) ->
        ContractDetector.extractContractData w p d tx receipt block a = None).
Proof.
  split; [|apply extractContractData_empty].
  intros blk contracts r Hblk Hr.
  destruct blk as [b|]; [|injection Hblk as <-; by apply elem_of_nil in Hr].
  destruct (blk_transactions b) as [| |txs] eqn:Htx.
  - unfold ContractDetector.processBlock, ContractDetector.processBlock_try
      in Hblk. rewrite Htx in Hblk. injection Hblk as <-.
    by apply elem_of_nil in Hr.
  - unfold ContractDetector.processBlock, ContractDetector.processBlock_try
      in Hblk. rewrite Htx in Hblk. injection Hblk as <-.
    by apply elem_of_nil in Hr.
  - rewrite (processBlock_array w p d b txs Htx) in Hblk.
    injection Hblk as <-.
    rewrite list_elem_of_In, in_flat_map in Hr. destruct Hr as (tx & _ & Hin).
    apply list_elem_of_In in Hin. by eapply transaction_result_member.
Qed.

Lemma detector_records_have_bytecode_witness :
  exists a code,
    address Examples.quiet_record = toLowerCase a
    /\ EthereumProvider.getCode Examples.healthy (Examples.connected 3) a
       = Ok (Some code)
    /\ code <> "" /\ code <> "0x".
Proof.
  destruct (detector_records_have_bytecode Examples.healthy
              (Examples.connected 3)
              (ContractDetector.constructor Examples.mainnet false))
    as [H _].
  apply (H (Some (Examples.block_with 100 [Some Examples.quiet_tx]))
           [Examples.quiet_record]).
  - vm_compute. reflexivity.
  - apply list_elem_of_singleton. reflexivity.
Defined.

(** C5 (counterexample). A deployment with no destination, a successful
    receipt carrying the created address, and non-empty bytecode at that
    address yields three records, not one: the direct one, one from the log's
    indexed address and one from the CREATE2 scan of the same receipt. *)
Lemma deployment_yields_several_records :
  tx_to Examples.deploy_tx = None
  /\ (exists receipt,
        EthereumProvider.getTransactionReceipt Examples.healthy
          (Examples.connected 3) (tx_hash Examples.deploy_tx)
        = Ok (Some receipt)
        /\ rc_status receipt = Some 1
        /\ rc_contractAddress receipt = Some Examples.created)
  /\ EthereumProvider.getCode Examples.healthy (Examples.connected 3)
       Examples.created = Ok (Some "0x6001")
  /\ creationType
     <$> ContractDetector.pushed
           (ContractDetector.transaction_result Examples.healthy
              (Examples.connected 3)
              (ContractDetector.constructor Examples.mainnet false)
              (Examples.chain_block 100) (Some Examples.deploy_tx))
     = [None; Some factory; Some create2].
Proof.
  split_and!; [reflexivity| |vm_compute; reflexivity|vm_compute; reflexivity].
  eexists. split_and!; vm_compute; reflexivity.
Qed.

(** C5 (amended). For a valid transaction without destination whose receipt
    was fetched: with bytecode analysis disabled, if the receipt reports
    success and carries a created address with non-empty bytecode, the
    records of the transaction start with exactly one record for that
    address, which carries no creation type (the code tags only factory and
    CREATE2 records); it is followed by the records of the factory and
    CREATE2 heuristics, each tagged as such, and by nothing when the receipt
    has no logs.  If the receipt does not report success, the transaction
    yields no record. *)
Theorem direct_creation_records (w : World) (p : EthereumProvider.t)
    (d : ContractDetector.t) (block : Block) (tx : Transaction)
    (receipt : Receipt) :
  truthy_str (tx_hash tx) = true ->
  tx_to tx = None ->
  EthereumProvider.getTransactionReceipt w p (tx_hash tx) = Ok (Some receipt) ->
  (forall a code,
      ContractDetector.analyzeBytecode d = false ->
      rc_status receipt = Some 1 ->
      rc_contractAddress receipt = Some a -> a <> "" ->
      EthereumProvider.getCode w p a = Ok (Some code) ->
      code <> "" -> code <> "0x" ->
      exists direct,
        ContractDetector.transaction_result w p d block (Some tx)
        = Some (direct
                :: ContractDetector.detectFactoryContracts w p d receipt tx
                     block)
        /\ address direct = toLowerCase a
        /\ creationType direct = None
        /\ (forall r,
              r ∈ ContractDetector.detectFactoryContracts w p d receipt tx
                    block ->
              creationType r = Some factory \/ creationType r = Some create2)
        /\ (rc_logs receipt = [] ->
            ContractDetector.transaction_result w p d block (Some tx)
            = Some [direct]))
  /\ (rc_status receipt <> Some 1 ->
      ContractDetector.pushed
        (ContractDetector.transaction_result w p d block (Some tx)) = []).
Proof.
  intros Hhash Hto Hreceipt.
  unfold ContractDetector.transaction_result,
    ContractDetector.processTransaction,
    ContractDetector.processTransaction_try,
    EthereumProvider.isContractCreation.
  rewrite Hhash, Hto, Hreceipt. cbn [negb].
  split.
  - intros a code Han Hstatus Haddr Hne Hcode Hc1 Hc2.
    rewrite Hstatus, Haddr.
    rewrite bool_decide_eq_true_2 by done. cbn [negb].
    apply truthy_str_Some in Hne. rewrite Hne.
    destruct (extractContractData_intro w p d tx receipt block a code
                Hcode Hc1 Hc2 Han) as (direct & -> & Ha & Ht).
    exists direct. split_and!; try done.
    + intros r Hr. by apply factory_member in Hr as [Hr _].
    + intros Hlogs. by rewrite factory_no_logs.
  - intros Hstatus. by rewrite bool_decide_eq_false_2.
Qed.

Lemma direct_creation_records_witness :
  exists direct,
    ContractDetector.transaction_result Examples.healthy
      (Examples.connected 3)
      (ContractDetector.constructor Examples.mainnet false)
      (Examples.chain_block 100) (Some Examples.quiet_tx) = Some [direct]
    /\ address direct = toLowerCase Examples.created.
Proof.
  destruct (direct_creation_records Examples.healthy (Examples.connected 3)
              (ContractDetector.constructor Examples.mainnet false)
              (Examples.chain_block 100) Examples.quiet_tx
              {| rc_status := Some 1;
                 rc_contractAddress := Some Examples.created;
                 rc_logs := []; rc_gasUsed := Some 21000 |}
              eq_refl eq_refl ltac:(vm_compute; reflexivity)) as [H _].
  destruct (H Examples.created "0x6001" eq_refl eq_refl eq_refl
              ltac:(discriminate) ltac:(vm_compute; reflexivity)
              ltac:(discriminate) ltac:(discriminate))
    as (direct & _ & Ha & _ & _ & Hone).
  exists direct. split; [exact (Hone eq_refl)|exact Ha].
Defined.

(** C6 (counterexample). A call to a factory contract (the transaction has a
    destination) whose successful receipt holds a log with a known creation
    topic and an indexed address that has bytecode: the detector returns no
    record for it. *)
Lemma factory_call_yields_no_record :
  tx_to Examples.factory_call_tx = Some Examples.factoryAddr
  /\ (exists receipt,
        EthereumProvider.getTransactionReceipt Examples.healthy
          (Examples.connected 3) (tx_hash Examples.factory_call_tx)
        = Ok (Some receipt)
        /\ rc_status receipt = Some 1
        /\ rc_logs receipt = [Examples.creation_log])
  /\ ContractDetector.is_creation_topic Examples.creation_log = true
  /\ ContractDetector.extractAddressFromLog Examples.creation_log
     = Some Examples.child
  /\ EthereumProvider.isContract Examples.healthy (Examples.connected 3)
       Examples.child = true
  /\ ContractDetector.pushed
       (ContractDetector.transaction_result Examples.healthy
          (Examples.connected 3)
          (ContractDetector.constructor Examples.mainnet false)
          (Examples.chain_block 100) (Some Examples.factory_call_tx)) = [].
Proof.
  split_and!; try (vm_compute; reflexivity).
  eexists. split_and!; vm_compute; reflexivity.
Qed.

(** C6 (amended). Factory detection runs inside the direct-creation path
    only.  For a valid transaction with a destination the [try] block of
    [processTransaction] returns [null] at the creation guard, on every node
    and with every provider: also where the request for its receipt would
    raise, nothing is raised, so the receipt is not requested and its logs
    are not scanned, and the transaction yields no record.  For a valid
    transaction without destination whose receipt reports success, with
    bytecode analysis disabled, every log whose first topic is one of the
    three known signatures and whose extracted candidate address has
    non-empty bytecode yields a record for that address with creation type
    [factory]. *)
Theorem factory_detection_gated (w : World) (p : EthereumProvider.t)
    (d : ContractDetector.t) (block : Block) (tx : Transaction) :
  truthy_str (tx_hash tx) = true ->
  (forall dest,
      tx_to tx = Some dest ->
      ContractDetector.processTransaction_try w p d (Some tx) block = Ok None
      /\ ContractDetector.transaction_result w p d block (Some tx) = None)
  /\ (forall receipt l a code,
        tx_to tx = None ->
        EthereumProvider.getTransactionReceipt w p (tx_hash tx)
        = Ok (Some receipt) ->
        rc_status receipt = Some 1 ->
        ContractDetector.analyzeBytecode d = false ->
        l ∈ rc_logs receipt ->
        ContractDetector.is_creation_topic l = true ->
        ContractDetector.extractAddressFromLog l = Some a ->
        EthereumProvider.getCode w p a = Ok (Some code) ->
        code <> "" -> code <> "0x" ->
        exists contracts r,
          ContractDetector.transaction_result w p d block (Some tx)
          = Some contracts
          /\ r ∈ contracts
          /\ address r = toLowerCase a
          /\ creationType r = Some factory).
Proof.
  intros Hhash.
  unfold ContractDetector.transaction_result,
    ContractDetector.processTransaction,
    ContractDetector.processTransaction_try,
    EthereumProvider.isContractCreation.
  rewrite Hhash. cbn [negb]. split.
  - intros dest ->. done.
  - intros receipt l a code -> -> Hstatus Han Hl Htopic Haddr Hcode Hc1 Hc2.
    cbn [negb]. rewrite Hstatus, bool_decide_eq_true_2 by done. cbn [negb].
    destruct (extractContractData_intro w p d tx receipt block a code
                Hcode Hc1 Hc2 Han) as (cd & Hcd & Ha & _).
    eexists _, (set_creationType factory cd).
    split; [reflexivity|]. split_and!; [|done|done].
    apply elem_of_app. right.
    unfold ContractDetector.detectFactoryContracts.
    apply elem_of_app. left.
    rewrite list_elem_of_In, in_flat_map. exists l.
    split; [by apply list_elem_of_In|].
    unfold ContractDetector.factory_from_log.
    rewrite Htopic, Haddr, Hcd.
    apply extractAddressFromLog_nonempty, truthy_str_Some in Haddr.
    rewrite Haddr, (isContract_intro w p a code Hcode Hc2). by left.
Qed.

Lemma factory_detection_gated_witness :
  (exists e,
      EthereumProvider.getTransactionReceipt Examples.healthy
        (BlockScanner.disconnect (Examples.connected 3))
        (tx_hash Examples.factory_call_tx) = Throw e)
  /\ ContractDetector.processTransaction_try Examples.healthy
       (BlockScanner.disconnect (Examples.connected 3))
       (ContractDetector.constructor Examples.mainnet false)
       (Some Examples.factory_call_tx) (Examples.chain_block 100) = Ok None
  /\ exists contracts r,
      ContractDetector.transaction_result Examples.healthy
        (Examples.connected 3)
        (ContractDetector.constructor Examples.mainnet false)
        (Examples.chain_block 100) (Some Examples.deploy_tx) = Some contracts
      /\ r ∈ contracts
      /\ address r = toLowerCase Examples.child
      /\ creationType r = Some factory.
Proof.
  split; [eexists; vm_compute; reflexivity|]. split.
  - destruct (factory_detection_gated Examples.healthy
                (BlockScanner.disconnect (Examples.connected 3))
                (ContractDetector.constructor Examples.mainnet false)
                (Examples.chain_block 100) Examples.factory_call_tx eq_refl)
      as [H _].
    exact (proj1 (H Examples.factoryAddr eq_refl)).
  - destruct (factory_detection_gated Examples.healthy (Examples.connected 3)
                (ContractDetector.constructor Examples.mainnet false)
                (Examples.chain_block 100) Examples.deploy_tx eq_refl)
      as [_ H].
    exact (H {| rc_status := Some 1;
                rc_contractAddress := Some Examples.created;
                rc_logs := [Examples.creation_log];
                rc_gasUsed := Some 21000 |}
             Examples.creation_log Examples.child "0x6002"
             eq_refl ltac:(vm_compute; reflexivity) eq_refl eq_refl
             ltac:(apply list_elem_of_here) ltac:(vm_compute; reflexivity)
             ltac:(vm_compute; reflexivity) ltac:(vm_compute; reflexivity)
             ltac:(discriminate) ltac:(discriminate)).
Defined.

Lemma processBlock_with_transactions w p d b txs :
  ContractDetector.processBlock w p d (Some (with_transactions b (TxArray txs)))
  = Ok (flat_map
          (fun tx =>
             ContractDetector.pushed
               (ContractDetector.transaction_result w p d b tx))
          (List.filter ContractDetector.valid_transaction txs)).
Proof.
  by rewrite (processBlock_array w p d
                (with_transactions b (TxArray txs)) txs eq_refl).
Qed.

(** C10. The detector's [processBlock] returns a list for every input and
    never throws; a null block and a block without [transactions] give the
    empty list.  The records of a block are the records of its transactions
    taken one by one, so what one transaction yields does not depend on the
    others; a transaction whose processing raises yields no record. *)
Theorem detector_processBlock_total (w : World) (p : EthereumProvider.t)
    (d : ContractDetector.t) :
  (forall blk,
      exists contracts, ContractDetector.processBlock w p d blk = Ok contracts)
  /\ ContractDetector.processBlock w p d None = Ok []
  /\ (forall b,
        blk_transactions b = TxAbsent ->
        ContractDetector.processBlock w p d (Some b) = Ok [])
  /\ (forall b pre tx post,
        exists before this after,
          ContractDetector.processBlock w p d
            (Some (with_transactions b (TxArray pre))) = Ok before
          /\ ContractDetector.processBlock w p d
               (Some (with_transactions b (TxArray [tx]))) = Ok this
          /\ ContractDetector.processBlock w p d
               (Some (with_transactions b (TxArray post))) = Ok after
          /\ ContractDetector.processBlock w p d
               (Some (with_transactions b (TxArray (pre ++ tx :: post))))
             = Ok (before ++ this ++ after))
  /\ (forall b tx e,
        ContractDetector.processTransaction_try w p d tx b = Throw e ->
        ContractDetector.processBlock w p d
          (Some (with_transactions b (TxArray [tx]))) = Ok []).
Proof.
  split_and!.
  - apply detector_processBlock_ok.
  - reflexivity.
  - intros b Htx.
    unfold ContractDetector.processBlock, ContractDetector.processBlock_try.
    by rewrite Htx.
  - intros b pre tx post. do 3 eexists.
    rewrite !processBlock_with_transactions.
    split_and!; try reflexivity.
    change (tx :: post) with ([tx] ++ post).
    by rewrite !List.filter_app, !flat_map_app.
  - intros b tx e Hthrow.
    rewrite processBlock_with_transactions.
    assert (ContractDetector.pushed
              (ContractDetector.transaction_result w p d b tx) = []) as Hnone.
    { unfold ContractDetector.transaction_result,
        ContractDetector.processTransaction. by rewrite Hthrow. }
    cbn. destruct (ContractDetector.valid_transaction tx); [|done].
    cbn. by rewrite Hnone.
Qed.

Lemma detector_processBlock_total_witness :
  ContractDetector.processBlock Examples.healthy (Examples.connected 3)
    (ContractDetector.constructor Examples.mainnet false)
    (Some (with_transactions (Examples.chain_block 100)
             (TxArray [Some Examples.lost_tx]))) = Ok [].
Proof.
  destruct (detector_processBlock_total Examples.healthy
              (Examples.connected 3)
              (ContractDetector.constructor Examples.mainnet false))
    as (_ & _ & _ & _ & H).
  apply (H (Examples.chain_block 100) (Some Examples.lost_tx) "timeout").
  vm_compute. reflexivity.
Defined.

(** ** Lifecycle *)

Section LifecycleFacts.
Import BlockScanner.
Variable w : World.



End LifecycleFacts.



(** * Further properties of the scanner's code *)

(** ** More on the retry wrapper *)

Lemma retry_loop_first_success {A} (p : EthereumProvider.t)
    (op : nat -> result A) (k : nat) (v : A) :
  Z.of_nat k <= EthereumProvider.maxRetries p ->
  op k = Ok v ->
  forall iters attempt delay lastError slept,
    (attempt <= k < attempt + iters)%nat ->
    (forall j, (attempt <= j < k)%nat -> is_ok (op j) = false) ->
    let r := EthereumProvider.retry_loop p op iters attempt delay lastError
               slept in
    EthereumProvider.outcome r = Ok v
    /\ EthereumProvider.attempts r = S k
    /\ length (EthereumProvider.sleeps r) = (length slept + (k - attempt))%nat.
Proof.
  intros Hk Hok. induction iters as [|iters IH];
    intros attempt delay lastError slept Hrange Hfail; [lia|].
  cbn zeta. rewrite retry_loop_S.
  destruct (decide (attempt = k)) as [->|Hne].
  - rewrite Hok. cbn. split_and!; try done. lia.
  - specialize (Hfail attempt ltac:(lia)) as Hthis.
    destruct (op attempt) as [a|e]; [done|].
    destruct (Z.ltb_spec (Z.of_nat attempt) (EthereumProvider.maxRetries p));
      [|lia].
    destruct (IH (S attempt)
                (Z.min (delay * 2) (EthereumProvider.maxRetryDelay p))
                (Some e) (slept ++ [delay]) ltac:(lia)) as (Ho & Ha & Hs).
    { intros j Hj. apply Hfail. lia. }
    split_and!; try done. rewrite Hs, length_app. cbn. lia.
Qed.

Lemma first_success_outcome {A} (p : EthereumProvider.t)
    (op : nat -> result A) (k : nat) (v : A) :
  Z.of_nat k <= EthereumProvider.maxRetries p ->
  (forall j, (j < k)%nat -> is_ok (op j) = false) ->
  op k = Ok v ->
  EthereumProvider.withRetry p op = Ok v.
Proof.
  intros Hk Hfail Hok.
  unfold EthereumProvider.withRetry, EthereumProvider.withRetry_run.
  destruct (retry_loop_first_success p op k v Hk Hok
              (Z.to_nat (EthereumProvider.maxRetries p + 1)) 0%nat
              (EthereumProvider.retryDelay p) None [] ltac:(lia))
    as (Ho & _); [|done].
  intros j Hj. apply Hfail. lia.
Qed.

(** X1. A transient fault is absorbed: when the operation succeeds at attempt
    [k], no later than retry number [maxRetries], after failing at every
    earlier attempt, [withRetry] returns that result, having invoked the
    operation [k + 1] times and slept [k] times. *)
Theorem withRetry_first_success {A} (p : EthereumProvider.t)
    (op : nat -> result A) (k : nat) (v : A) :
  Z.of_nat k <= EthereumProvider.maxRetries p ->
  (forall j, (j < k)%nat -> is_ok (op j) = false) ->
  op k = Ok v ->
  EthereumProvider.withRetry p op = Ok v
  /\ EthereumProvider.attempts (EthereumProvider.withRetry_run p op) = S k
  /\ length (EthereumProvider.sleeps (EthereumProvider.withRetry_run p op)) = k.
Proof.
  intros Hk Hfail Hok.
  unfold EthereumProvider.withRetry, EthereumProvider.withRetry_run.
  destruct (retry_loop_first_success p op k v Hk Hok
              (Z.to_nat (EthereumProvider.maxRetries p + 1)) 0%nat
              (EthereumProvider.retryDelay p) None [] ltac:(lia))
    as (Ho & Ha & Hs).
  { intros j Hj. apply Hfail. lia. }
  split_and!; try done. rewrite Hs. cbn. lia.
Qed.

Lemma withRetry_first_success_witness :
  EthereumProvider.withRetry (Examples.connected 3)
    (rpc_getBlock Examples.flaky 100)
  = Ok (Some (Examples.chain_block 100)).
Proof.
  apply (withRetry_first_success (Examples.connected 3)
           (rpc_getBlock Examples.flaky 100) 2
           (Some (Examples.chain_block 100)));
    [cbn; lia| |reflexivity].
  intros j Hj. destruct j as [|[|j]]; [reflexivity|reflexivity|lia].
Defined.

(** X2. With a negative [maxRetries] the loop body never runs: the operation
    is not invoked at all, nothing is slept, and what is thrown is the
    TypeError raised while reporting an undefined last error. *)
Theorem withRetry_negative_maxRetries {A} (p : EthereumProvider.t)
    (op : nat -> result A) :
  EthereumProvider.maxRetries p < 0 ->
  EthereumProvider.attempts (EthereumProvider.withRetry_run p op) = 0%nat
  /\ EthereumProvider.sleeps (EthereumProvider.withRetry_run p op) = []
  /\ EthereumProvider.withRetry p op = Throw TypeError_undefined_message.
Proof.
  intros Hneg.
  unfold EthereumProvider.withRetry, EthereumProvider.withRetry_run.
  replace (Z.to_nat (EthereumProvider.maxRetries p + 1)) with 0%nat by lia.
  done.
Qed.

Lemma withRetry_negative_maxRetries_witness :
  EthereumProvider.withRetry (Examples.connected (-1))
    (rpc_getBlockNumber Examples.healthy)
  = Throw TypeError_undefined_message.
Proof.
  apply (withRetry_negative_maxRetries (Examples.connected (-1))
           (rpc_getBlockNumber Examples.healthy)).
  cbn. lia.
Defined.

Lemma backoff_range k :
  1000 <= EthereumProvider.backoff k <= 30000
  /\ EthereumProvider.backoff k <= EthereumProvider.backoff (S k).
Proof.
  unfold EthereumProvider.backoff.
  rewrite Nat2Z.inj_succ, Z.pow_succ_r by lia.
  assert (1 <= 2 ^ Z.of_nat k) by (apply Z.pow_le_mono_r with (b := 0); lia).
  lia.
Qed.

Lemma backoff_sum n :
  foldr Z.add 0 (EthereumProvider.backoff <$> seq 0 n) <= 30000 * Z.of_nat n.
Proof.
  induction n as [|n IH]; [done|].
  rewrite backoff_seq_S, foldr_app. cbn [foldr].
  assert (Hshift : forall l a,
             foldr Z.add a l = foldr Z.add 0 l + a).
  { induction l as [|x l IHl]; intros a; cbn; [lia|]. rewrite IHl. lia. }
  rewrite Hshift. pose proof (backoff_range n). lia.
Qed.

Lemma backoff_seq_sorted a n :
  Sorted Z.le (EthereumProvider.backoff <$> seq a n).
Proof.
  revert a. induction n as [|n IH]; intros a; [constructor|].
  cbn. constructor; [apply IH|].
  destruct n; cbn; constructor. apply backoff_range.
Qed.

(** X3. The waits of one [withRetry] call never shrink, each lies between
    1000 and 30000 milliseconds, and together they last at most
    [30000 * maxRetries] milliseconds. *)
Theorem withRetry_waits_bounded {A} (p : EthereumProvider.t)
    (op : nat -> result A) :
  EthereumProvider.retryDelay p = 1000 ->
  EthereumProvider.maxRetryDelay p = 30000 ->
  0 <= EthereumProvider.maxRetries p ->
  let waits := EthereumProvider.sleeps (EthereumProvider.withRetry_run p op) in
  Forall (fun d => 1000 <= d <= 30000) waits
  /\ Sorted Z.le waits
  /\ foldr Z.add 0 waits <= 30000 * EthereumProvider.maxRetries p.
Proof.
  intros Hdelay Hmax Hretries. cbn zeta.
  unfold EthereumProvider.withRetry_run. rewrite Hdelay.
  replace (Z.to_nat (EthereumProvider.maxRetries p + 1))
    with (S (Z.to_nat (EthereumProvider.maxRetries p))) by lia.
  pose proof (retry_loop_run p op Hmax
                (Z.to_nat (EthereumProvider.maxRetries p)) 0%nat None
                ltac:(lia)) as H.
  cbn zeta in H. change (EthereumProvider.backoff 0) with 1000 in H.
  change (EthereumProvider.backoff <$> seq 0 0) with (@nil Z) in H.
  destruct H as (Ha & -> & _).
  set (n := (EthereumProvider.attempts _ - 1)%nat) in *.
  assert (Hn : Z.of_nat n <= EthereumProvider.maxRetries p) by lia.
  clearbody n. split_and!.
  - apply Forall_fmap, Forall_forall. intros k _. cbn. apply backoff_range.
  - apply backoff_seq_sorted.
  - etrans; [apply backoff_sum|]. nia.
Qed.

Lemma withRetry_waits_bounded_witness :
  foldr Z.add 0
    (EthereumProvider.sleeps
       (EthereumProvider.withRetry_run (Examples.connected 3)
          Examples.always_fails)) <= 30000 * 3.
Proof.
  destruct (withRetry_waits_bounded (Examples.connected 3)
              Examples.always_fails eq_refl eq_refl ltac:(cbn; lia))
    as (_ & _ & H).
  exact H.
Defined.

(** ** Retries inside a batch fetch *)

Lemma retry_loop_bounded_fail {A} (p : EthereumProvider.t)
    (op : nat -> result A) :
  forall iters attempt delay lastError slept,
    (forall j, (attempt <= j < attempt + iters)%nat -> is_ok (op j) = false) ->
    is_ok (EthereumProvider.outcome
             (EthereumProvider.retry_loop p op iters attempt delay lastError
                slept)) = false.
Proof.
  induction iters as [|iters IH]; intros attempt delay lastError slept Hfail.
  - cbn. by destruct lastError.
  - rewrite retry_loop_S.
    specialize (Hfail attempt ltac:(lia)) as Hthis.
    destruct (op attempt); [done|].
    destruct (_ <? _); apply IH; intros j Hj; apply Hfail; lia.
Qed.

Lemma elem_of_fetched_blocks_iff w p ns n b :
  (n, b) ∈ EthereumProvider.fetched_blocks w p ns
  <-> n ∈ ns /\ EthereumProvider.getBlock w p n = Ok b.
Proof.
  split.
  - intros H. by apply elem_of_fetched_blocks in H.
  - intros [Hn Hget]. unfold EthereumProvider.fetched_blocks.
    rewrite list_elem_of_omap. exists n. split; [done|].
    unfold EthereumProvider.fulfilled. cbn. by rewrite Hget.
Qed.

(** X4. Retries compose with the batch fetch.  On a connected provider, a
    block of the requested range whose fetch succeeds at some attempt within
    [maxRetries] retries is part of the batch with the value of that attempt;
    a block whose every attempt fails is left out of the batch, which is
    returned all the same. *)
Theorem getBatchBlocks_absorbs_transient_faults (w : World)
    (p : EthereumProvider.t) (startBlock endBlock n : Z) :
  EthereumProvider.http p = true ->
  startBlock <= n <= endBlock ->
  exists blocks,
    EthereumProvider.getBatchBlocks w p startBlock endBlock = Ok blocks
    /\ (forall k b,
          Z.of_nat k <= EthereumProvider.maxRetries p ->
          (forall j, (j < k)%nat -> is_ok (rpc_getBlock w n j) = false) ->
          rpc_getBlock w n k = Ok b ->
          (n, b) ∈ blocks)
    /\ ((forall j, Z.of_nat j <= EthereumProvider.maxRetries p ->
                   is_ok (rpc_getBlock w n j) = false) ->
        forall b, (n, b) ∉ blocks).
Proof.
  intros Hhttp Hn. eexists. split; [apply getBatchBlocks_eq|].
  assert (Hget : EthereumProvider.getBlock w p n
                 = EthereumProvider.withRetry p (rpc_getBlock w n)).
  { unfold EthereumProvider.getBlock, EthereumProvider.on_http.
    by rewrite Hhttp. }
  split.
  - intros k b Hk Hfail Hok. apply elem_of_fetched_blocks_iff. split.
    + apply elem_of_seqZ. lia.
    + rewrite Hget.
      exact (first_success_outcome p (rpc_getBlock w n) k b Hk Hfail Hok).
  - intros Hfail b Hin. apply elem_of_fetched_blocks_iff in Hin as [_ Hin].
    rewrite Hget in Hin.
    pose proof (retry_loop_bounded_fail p (rpc_getBlock w n)
                  (Z.to_nat (EthereumProvider.maxRetries p + 1)) 0%nat
                  (EthereumProvider.retryDelay p) None []) as Hthrow.
    unfold EthereumProvider.withRetry, EthereumProvider.withRetry_run in Hin.
    rewrite Hin in Hthrow. cbn in Hthrow.
    assert (true = false); [|done].
    apply Hthrow. intros j Hj. apply Hfail. lia.
Qed.

Lemma getBatchBlocks_absorbs_transient_faults_witness :
  exists blocks,
    EthereumProvider.getBatchBlocks Examples.flaky (Examples.connected 3)
      100 103 = Ok blocks
    /\ (101, Some (Examples.chain_block 101)) ∈ blocks.
Proof.
  destruct (getBatchBlocks_absorbs_transient_faults Examples.flaky
              (Examples.connected 3) 100 103 101 eq_refl ltac:(lia))
    as (blocks & Hb & Hin & _).
  exists blocks. split; [exact Hb|].
  apply (Hin 2%nat); [cbn; lia| |reflexivity].
  intros j Hj. destruct j as [|[|j]]; [reflexivity|reflexivity|lia].
Defined.

(** ** Addresses extracted from logs *)

Lemma length_substring s :
  forall n m, (n + m <= String.length s)%nat ->
              String.length (String.substring n m s) = m.
Proof.
  induction s as [|c s IH]; intros n m Hlen; cbn in *.
  - destruct n, m; cbn; lia.
  - destruct n as [|n].
    + destruct m as [|m]; [done|]. cbn. f_equal. apply IH. lia.
    + apply IH. lia.
Qed.

Lemma match_address_shape s a :
  match_address s = Some a ->
  String.length a = 42%nat
  /\ String.substring 0 2 a = "0x"
  /\ all_hex (String.substring 2 40 a) = true.
Proof.
  induction s as [|c s IH]; [done|].
  cbn [match_address].
  destruct (_ && _) eqn:Hc; [|exact IH].
  intros [= <-].
  apply andb_prop in Hc as [Hc Hhex]. apply andb_prop in Hc as [Hlen Hpre].
  apply Nat.eqb_eq in Hlen. apply String.eqb_eq in Hpre. done.
Qed.

(** X5. An address extracted from a log is a string of 42 characters that
    begins with ["0x"].  A second topic of 66 characters decides alone: the
    result is ["0x"] followed by its last forty characters, whatever the
    log's data holds. *)
Theorem extractAddressFromLog_shape (l : Log) :
  (forall a,
      ContractDetector.extractAddressFromLog l = Some a ->
      String.length a = 42%nat /\ String.substring 0 2 a = "0x")
  /\ (forall t0 topic rest,
        log_topics l = t0 :: topic :: rest ->
        String.length topic = 66%nat ->
        ContractDetector.extractAddressFromLog l
        = Some ("0x" ++ slice_last 40 topic)%string).
Proof.
  split.
  - intros a. unfold ContractDetector.extractAddressFromLog.
    assert (Hdata : match log_data l with
                    | Some data =>
                        if truthy_str (Some data)
                           && (66 <=? String.length data)%nat
                        then match_address data else None
                    | None => None
                    end = Some a ->
                    String.length a = 42%nat
                    /\ String.substring 0 2 a = "0x").
    { destruct (log_data l) as [data|]; [|done].
      destruct (_ && _); [|done].
      intros H. by apply match_address_shape in H as (? & ? & _). }
    destruct (log_topics l) as [|t0 [|topic ts]]; try exact Hdata.
    destruct (_ && _) eqn:Hc; [|exact Hdata].
    intros [= <-]. apply andb_prop in Hc as [_ Hlen].
    apply Nat.eqb_eq in Hlen. split.
    + cbn [String.append String.length]. unfold slice_last.
      rewrite length_substring; [done|]. rewrite Hlen. cbn. lia.
    + cbn. by destruct (slice_last 40 topic).
  - intros t0 topic rest Htopics Hlen.
    unfold ContractDetector.extractAddressFromLog. rewrite Htopics.
    assert (truthy_str (Some topic) = true) as ->.
    { destruct topic; [done|]. done. }
    rewrite Hlen. done.
Qed.

Lemma extractAddressFromLog_shape_witness :
  ContractDetector.extractAddressFromLog Examples.creation_log
  = Some ("0x" ++ slice_last 40
            "0x00000000000000000000000000000000000000000000000000000000000000c1")%string.
Proof.
  destruct (extractAddressFromLog_shape Examples.creation_log) as [_ H].
  apply (H _ _ [] eq_refl eq_refl).
Defined.

(** ** The resolved range *)

(** X6. A range returned by [determineBlockRange] is never inverted, ends at
    the configured end with ['latest'] read as the chain height, never starts
    before the configured start, starts exactly there when the network has no
    progress row, and starts after the stored block when that block is not
    zero. *)
Theorem determineBlockRange_sound (w : World) (s : BlockScanner.t)
    (startBlk endBlk : Z) :
  BlockScanner.determineBlockRange w s = Ok (startBlk, endBlk) ->
  exists latestBlock progress,
    EthereumProvider.getLatestBlockNumber w (BlockScanner.provider s)
    = Ok latestBlock
    /\ Database.getScanningProgress
         (net_name (BlockScanner.networkConfig s)) (BlockScanner.database s)
       = Ok progress
    /\ startBlk <= endBlk
    /\ endBlk
       = BlockScanner.resolve
           (BlockScanner.endBlock (BlockScanner.scannerConfig s)) latestBlock
    /\ BlockScanner.resolve
         (BlockScanner.startBlock (BlockScanner.scannerConfig s)) latestBlock
       <= startBlk
    /\ (progress = None ->
        startBlk
        = BlockScanner.resolve
            (BlockScanner.startBlock (BlockScanner.scannerConfig s))
            latestBlock)
    /\ (forall row,
          progress = Some row -> Database.last_scanned_block row <> 0 ->
          Database.last_scanned_block row < startBlk).
Proof.
  unfold BlockScanner.determineBlockRange.
  destruct (EthereumProvider.getLatestBlockNumber w (BlockScanner.provider s))
    as [latestBlock|e]; [|done].
  destruct (Database.getScanningProgress _ _) as [progress|e]; [|done].
  intros H. exists latestBlock, progress.
  set (configured := BlockScanner.resolve
                       (BlockScanner.startBlock (BlockScanner.scannerConfig s))
                       latestBlock) in *.
  set (last := BlockScanner.resolve
                 (BlockScanner.endBlock (BlockScanner.scannerConfig s))
                 latestBlock) in *.
  destruct progress as [row|]; cbn in H.
  - destruct (Z.eqb_spec (Database.last_scanned_block row) 0) as [Hz|Hnz];
      cbn in H;
      match type of H with
      | context [?a <? ?b] => destruct (Z.ltb_spec a b); [done|]
      end;
      injection H as <- <-;
      (split_and!; try done; try lia);
      intros row' [= <-] ?; try done; lia.
  - destruct (Z.ltb_spec last configured); [done|].
    injection H as <- <-. split_and!; try done; lia.
Qed.

Lemma determineBlockRange_sound_witness :
  exists latestBlock progress,
    EthereumProvider.getLatestBlockNumber Examples.healthy
      (BlockScanner.provider (Examples.resumed 100 110)) = Ok latestBlock
    /\ Database.getScanningProgress
         (net_name (BlockScanner.networkConfig (Examples.resumed 100 110)))
         (BlockScanner.database (Examples.resumed 100 110)) = Ok progress
    /\ 104 <= 110.
Proof.
  destruct (determineBlockRange_sound Examples.healthy
              (Examples.resumed 100 110) 104 110
              ltac:(vm_compute; reflexivity))
    as (latestBlock & progress & H1 & H2 & H3 & _).
  exists latestBlock, progress. split_and!; [exact H1|exact H2|exact H3].
Defined.

(** ** What processing a block changes *)

Section ProcessingFacts.
Import BlockScanner.
Variable w : World.

(** From [s] to [s'] some events were logged, none of them a checkpoint; the
    counters moved by the numbers of blocks run through the detector and of
    records detected; the error counter and the progress table did not
    move. *)
Local Abbreviation processing s s' :=
  (exists X,
      trace s' = trace s ++ X
      /\ checkpoints X = []
      /\ blocksProcessed (stats s')
         = blocksProcessed (stats s) + Z.of_nat (length (processed X))
      /\ contractsFound (stats s')
         = contractsFound (stats s) + Z.of_nat (length (detected X))
      /\ errors (stats s') = errors (stats s)
      /\ Database.scanning_progress (database s')
         = Database.scanning_progress (database s)).

Lemma processing_refl s : processing s s.
Proof. exists []. rewrite app_nil_r. cbn. split_and!; try done; lia. Qed.

Lemma processing_trans s1 s2 s3 :
  processing s1 s2 -> processing s2 s3 -> processing s1 s3.
Proof.
  intros (X & Ht & Hc & Hb & Hf & He & Hp) (Y & Ht' & Hc' & Hb' & Hf' & He' & Hp').
  exists (X ++ Y).
  rewrite Ht', Ht, app_assoc, checkpoints_app, processed_app, detected_app,
    !length_app, Hc, Hc'.
  split_and!; try done; try congruence; lia.
Qed.

Lemma saveContract_progress c db :
  Database.scanning_progress (Database.saveContract w c db).2
  = Database.scanning_progress db.
Proof.
  unfold Database.saveContract. repeat (case_match; try done).
Qed.

Lemma save_one_processing s c : processing s (save_one w s c).
Proof.
  unfold save_one.
  pose proof (saveContract_progress c (database s)) as Hp.
  destruct (Database.saveContract w c (database s)) as [[[]|e] db'];
    cbn in Hp; eexists; (split; [reflexivity|]); cbn;
    split_and!; try done; lia.
Qed.

Lemma saveContracts_processing cs s :
  processing s (fold_left (save_one w) cs s).
Proof.
  revert s. induction cs as [|c cs IH]; intros s; cbn.
  - apply processing_refl.
  - eapply processing_trans; [apply save_one_processing|apply IH].
Qed.

Lemma processBlock_processing blk s :
  exists s', processBlock w blk s = (Ok tt, s') /\ processing s s'.
Proof.
  destruct blk as [b|]; cbn.
  2: { exists s. split; [done|apply processing_refl]. }
  rewrite detector_processBlock_detect.
  set (cs := detect w (provider s) (detector s) b).
  unfold saveContracts.
  match goal with
  | |- context [fold_left (save_one w) ?l ?s2] =>
      destruct (saveContracts_processing l s2)
        as (X & Ht & Hc & Hb & Hf & He & Hp);
      set (s3 := fold_left (save_one w) l s2) in *
  end.
  clearbody s3.
  destruct (length cs) eqn:Hlen.
  - apply nil_length_inv in Hlen. rewrite Hlen.
    eexists. split; [done|].
    exists [EvDetected (blk_number b) []]. cbn. clear.
    split_and!; try done; lia.
  - eexists. split; [done|].
    exists ([EvDetected (blk_number b) cs] ++ X).
    cbn in Ht, Hb, Hf, He, Hp. cbn.
    rewrite Ht, <- app_assoc, Hb, Hf, He, Hp, length_app, Hlen.
    clearbody cs. cbn. unfold processed, detected. split_and!; try done; lia.
Qed.

Lemma promise_all_processing (rs : list (Z * option Block)) s :
  exists s',
    promise_all
      (List.map (fun r : Z * option Block => processBlock w r.2) rs) s
    = (Ok tt, s')
    /\ processing s s'.
Proof.
  revert s. induction rs as [|r rs IH]; intros s; cbn.
  { exists s. split; [done|apply processing_refl]. }
  destruct (processBlock_processing r.2 s) as (s1 & -> & H1).
  destruct (IH s1) as (s2 & -> & H2).
  exists s2. split; [done|]. by eapply processing_trans.
Qed.

Lemma processBatch_processing startBlk endBlk s :
  exists s',
    processBatch w startBlk endBlk s = (Ok tt, s') /\ processing s s'.
Proof.
  unfold processBatch. rewrite getBatchBlocks_eq.
  match goal with
  | |- context [promise_all ?ps ?s1] =>
      destruct (promise_all_processing
                  (EthereumProvider.fetched_blocks w (provider s)
                     (seqZ startBlk (endBlk - startBlk + 1))) s1)
        as (s2 & -> & H)
  end.
  exists s2. split; [done|].
  eapply processing_trans; [|exact H].
  set (ns := seqZ startBlk (endBlk - startBlk + 1)).
  exists (EvFetch <$> ns). cbn.
  assert (checkpoints (EvFetch <$> ns) = []
          /\ processed (EvFetch <$> ns) = []
          /\ detected (EvFetch <$> ns) = []) as (-> & -> & ->).
  { induction ns as [|n ns IH]; [done|]. cbn. apply IH. }
  cbn. split_and!; try done; lia.
Qed.

End ProcessingFacts.

(** X7. Realtime delivery: a block handed to the subscription callback is
    processed without an exception and without touching the progress table;
    the counters move by one block and by the number of records detected in
    it, whether or not those records could be saved; the error counter does
    not move. *)
Theorem onNewBlock_never_checkpoints (w : World) (blk : option Block)
    (s : BlockScanner.t) :
  exists s' X,
    BlockScanner.onNewBlock w blk s = (Ok tt, s')
    /\ BlockScanner.trace s' = BlockScanner.trace s ++ X
    /\ BlockScanner.checkpoints X = []
    /\ Database.scanning_progress (BlockScanner.database s')
       = Database.scanning_progress (BlockScanner.database s)
    /\ BlockScanner.blocksProcessed (BlockScanner.stats s')
       = BlockScanner.blocksProcessed (BlockScanner.stats s)
         + Z.of_nat (length (BlockScanner.processed X))
    /\ BlockScanner.contractsFound (BlockScanner.stats s')
       = BlockScanner.contractsFound (BlockScanner.stats s)
         + Z.of_nat (length (BlockScanner.detected X))
    /\ BlockScanner.errors (BlockScanner.stats s')
       = BlockScanner.errors (BlockScanner.stats s).
Proof.
  unfold BlockScanner.onNewBlock.
  destruct (negb (BlockScanner.isRunning s) || BlockScanner.isPaused s).
  - exists s, []. rewrite app_nil_r. cbn. split_and!; try done; lia.
  - destruct (processBlock_processing w blk s)
      as (s' & -> & X & Ht & Hc & Hb & Hf & He & Hp).
    exists s', X. split_and!; done.
Qed.

(** ** What a pass changes *)

Section PassEffects.
Import BlockScanner.
Variable w : World.

(** From [s] to [s'] events were logged, and the two counters moved by the
    numbers of blocks run through the detector and of records detected. *)
Local Abbreviation counted s s' :=
  (exists X,
      trace s' = trace s ++ X
      /\ blocksProcessed (stats s')
         = blocksProcessed (stats s) + Z.of_nat (length (processed X))
      /\ contractsFound (stats s')
         = contractsFound (stats s) + Z.of_nat (length (detected X))).

Lemma counted_refl s : counted s s.
Proof. exists []. rewrite app_nil_r. cbn. split_and!; try done; lia. Qed.

Lemma counted_trans s1 s2 s3 : counted s1 s2 -> counted s2 s3 -> counted s1 s3.
Proof.
  intros (X & Ht & Hb & Hf) (Y & Ht' & Hb' & Hf').
  exists (X ++ Y).
  rewrite Ht', Ht, app_assoc, processed_app, detected_app, !length_app.
  split_and!; try done; lia.
Qed.

Lemma counted_quiet evs s :
  processed evs = [] -> detected evs = [] -> counted s (log evs s).
Proof.
  intros Hp Hd. exists evs. rewrite Hp, Hd. cbn. split_and!; try done; lia.
Qed.

Lemma scan_batch_counted currentStart currentEnd s :
  counted s (scan_batch w currentStart currentEnd s).
Proof.
  unfold scan_batch.
  destruct (processBatch_processing w currentStart currentEnd s)
    as (s1 & -> & X & Ht & _ & Hb & Hf & _ & _).
  eapply counted_trans; [exists X; split_and!; done|].
  destruct (Database.updateScanningProgress w _ _ _ _) as [[[]|e] db'].
  - cbn zeta. destruct (0 <? batchDelay _).
    + eapply counted_trans; [|by apply counted_quiet].
      by apply (counted_quiet [EvCheckpoint currentEnd] (with_database db' s1)).
    + by apply (counted_quiet [EvCheckpoint currentEnd] (with_database db' s1)).
  - exists []. cbn. rewrite app_nil_r. split_and!; try done; lia.
Qed.

Lemma frame_refl_batch currentStart currentEnd s :
  frame (scan_batch w currentStart currentEnd s) = frame s.
Proof. apply scan_batch_spec. Qed.

Lemma scan_loop_frame fuel currentStart endBlk s s' :
  scan_loop w fuel currentStart endBlk s = Some s' -> frame s' = frame s.
Proof.
  apply (scan_loop_lifts w (fun s s' => frame s' = frame s)); try done.
  - intros s1 s2 s3 H12 H23. congruence.
  - intros. apply frame_refl_batch.
Qed.

Lemma frame_inv s s' :
  frame s' = frame s ->
  networkConfig s' = networkConfig s
  /\ scannerConfig s' = scannerConfig s
  /\ provider s' = provider s
  /\ isRunning s' = isRunning s
  /\ isPaused s' = isPaused s
  /\ db_up (database s') = db_up (database s).
Proof. unfold frame. intros [= -> -> -> _ -> -> ->]. done. Qed.

(** The progress write of a batch on a working database. *)
Lemma find_upsert (net : string) (row : Database.ProgressRow)
    (rows : list Database.ProgressRow) :
  Database.p_network row = net ->
  List.find (fun r => String.eqb (Database.p_network r) net)
    (List.filter (fun r => negb (String.eqb (Database.p_network r) net)) rows
     ++ [row])
  = Some row.
Proof.
  intros Hrow. induction rows as [|r rows IH]; cbn.
  - rewrite Hrow, String.eqb_refl. done.
  - destruct (String.eqb (Database.p_network r) net) eqn:Hr; cbn; [done|].
    by rewrite Hr.
Qed.

Lemma find_upsert_other (net net' : string) (row : Database.ProgressRow)
    (rows : list Database.ProgressRow) :
  Database.p_network row = net -> net' <> net ->
  List.find (fun r => String.eqb (Database.p_network r) net')
    (List.filter (fun r => negb (String.eqb (Database.p_network r) net)) rows
     ++ [row])
  = List.find (fun r => String.eqb (Database.p_network r) net') rows.
Proof.
  intros Hrow Hne. induction rows as [|r rows IH]; cbn.
  - rewrite Hrow. by destruct (String.eqb_spec net net'); [congruence|].
  - destruct (String.eqb_spec (Database.p_network r) net) as [Hr|Hr]; cbn.
    + destruct (String.eqb_spec (Database.p_network r) net'); [congruence|done].
    + destruct (String.eqb (Database.p_network r) net'); done.
Qed.

Lemma scan_batch_checkpoint currentStart currentEnd s :
  db_up (database s) = true ->
  db_progress_fault w currentEnd = false ->
  let s' := scan_batch w currentStart currentEnd s in
  errors (stats s') = errors (stats s)
  /\ exists row,
      Database.getScanningProgress (net_name (networkConfig s)) (database s')
      = Ok (Some row)
      /\ Database.last_scanned_block row = currentEnd
      /\ Database.p_scan_mode row = scanMode (scannerConfig s).
Proof.
  intros Hup Hfault. cbn zeta. unfold scan_batch.
  destruct (processBatch_processing w currentStart currentEnd s)
    as (s1 & Hs1 & X & _ & _ & _ & _ & He & _).
  destruct (processBatch_spec w currentStart currentEnd s)
    as (s1' & Hs1' & Hf & _).
  rewrite Hs1 in Hs1'. injection Hs1' as <-. rewrite Hs1.
  apply frame_inv in Hf as (Hnet & Hcfg & _ & _ & _ & Hup1).
  rewrite Hup in Hup1.
  unfold db_up in Hup1. apply andb_true_iff in Hup1 as [Hi Hc].
  apply negb_true_iff in Hc.
  unfold Database.updateScanningProgress. rewrite Hi, Hc, Hfault. cbn [negb].
  set (db' := Database.with_progress _ _ _).
  assert (Hget : exists row,
             Database.getScanningProgress (net_name (networkConfig s)) db'
             = Ok (Some row)
             /\ Database.last_scanned_block row = currentEnd
             /\ Database.p_scan_mode row = scanMode (scannerConfig s)).
  { unfold Database.getScanningProgress, db'. cbn.
    rewrite Hi, Hc. cbn. rewrite <- Hnet, find_upsert by done.
    eexists. split; [done|]. cbn. by rewrite Hcfg. }
  cbn zeta. destruct (0 <? batchDelay _); cbn; (split; [done|]); exact Hget.
Qed.

Lemma scan_loop_checkpoint fuel :
  forall currentStart endBlk s,
    0 < batchSize (scannerConfig s) ->
    isRunning s = true -> isPaused s = false ->
    db_up (database s) = true ->
    (forall n, db_progress_fault w n = false) ->
    currentStart <= endBlk ->
    (Z.to_nat (endBlk - currentStart + 1) <= fuel)%nat ->
    exists s' row,
      scan_loop w fuel currentStart endBlk s = Some s'
      /\ errors (stats s') = errors (stats s)
      /\ Database.getScanningProgress (net_name (networkConfig s))
           (database s') = Ok (Some row)
      /\ Database.last_scanned_block row = endBlk
      /\ Database.p_scan_mode row = scanMode (scannerConfig s).
Proof.
  induction fuel as [|fuel IH];
    intros cs e s Hsize Hrun Hpau Hup Hfault Hle Hfuel; [lia|].
  cbn [scan_loop]. destruct (Z.leb_spec cs e); [|lia].
  rewrite Hrun, Hpau. cbn [negb orb].
  set (ce := Z.min (cs + batchSize (scannerConfig s) - 1) e).
  destruct (scan_batch_checkpoint cs ce s Hup (Hfault ce))
    as (He & row & Hget & Hlast & Hmode).
  destruct (scan_batch_spec w cs ce s) as [Hf _].
  set (s1 := scan_batch w cs ce s) in *.
  apply frame_inv in Hf as (Hnet & Hcfg & _ & Hrun1 & Hpau1 & Hup1).
  destruct (Z.le_gt_cases (cs + batchSize (scannerConfig s)) e) as [Hmore|Hend].
  - destruct (IH (cs + batchSize (scannerConfig s)) e s1)
      as (s' & row' & Hloop & He' & Hget' & Hlast' & Hmode');
      try congruence; try lia.
    exists s', row'. split_and!; congruence.
  - exists s1, row. split_and!; try done.
    + destruct fuel; cbn;
        by destruct (Z.leb_spec (cs + batchSize (scannerConfig s)) e); try lia.
    + lia.
Qed.

End PassEffects.

Section StartFacts.
Import BlockScanner.
Variable w : World.




Lemma determineBlockRange_ordered s a b :
  determineBlockRange w s = Ok (a, b) -> a <= b.
Proof.
  unfold determineBlockRange.
  destruct (EthereumProvider.getLatestBlockNumber w (provider s)); [|done].
  destruct (Database.getScanningProgress _ _); [|done].
  match goal with
  | |- context [?x <? ?y] => destruct (Z.ltb_spec x y) as [|H]; [done|]
  end.
  intros [= <- <-]. exact H.
Qed.

Lemma determineBlockRange_after_checkpoint s row a b :
  Database.getScanningProgress (net_name (networkConfig s)) (database s)
  = Ok (Some row) ->
  Database.last_scanned_block row <> 0 ->
  determineBlockRange w s = Ok (a, b) ->
  Database.last_scanned_block row < a.
Proof.
  intros Hget Hnz. unfold determineBlockRange.
  destruct (EthereumProvider.getLatestBlockNumber w (provider s)); [|done].
  rewrite Hget. unfold truthy_num.
  destruct (Z.eqb_spec (Database.last_scanned_block row) 0); [done|].
  cbn [negb].
  match goal with
  | |- context [?x <? ?y] => destruct (Z.ltb_spec x y); [done|]
  end.
  intros [= <- <-]. lia.
Qed.

End StartFacts.

(** X8. The counters follow the work done.  Whatever the mode, the fuel and
    the outcome of [start], [blocksProcessed] grows by the number of blocks
    that were run through the detector and [contractsFound] by the number of
    records the detector returned, whether or not they could be stored. *)
Theorem start_counters_follow_trace (w : World) (fuel : nat)
    (s s' : BlockScanner.t) (r : result unit) :
  BlockScanner.start w fuel s = Some (r, s') ->
  exists X,
    BlockScanner.trace s' = BlockScanner.trace s ++ X
    /\ BlockScanner.blocksProcessed (BlockScanner.stats s')
       = BlockScanner.blocksProcessed (BlockScanner.stats s)
         + Z.of_nat (length (BlockScanner.processed X))
    /\ BlockScanner.contractsFound (BlockScanner.stats s')
       = BlockScanner.contractsFound (BlockScanner.stats s)
         + Z.of_nat (length (BlockScanner.detected X)).
Proof.
  revert s s' r.
  assert (H : forall s s' : BlockScanner.t,
             (exists r, BlockScanner.start w fuel s = Some (r, s')) ->
             exists X,
               BlockScanner.trace s' = BlockScanner.trace s ++ X
               /\ BlockScanner.blocksProcessed (BlockScanner.stats s')
                  = BlockScanner.blocksProcessed (BlockScanner.stats s)
                    + Z.of_nat (length (BlockScanner.processed X))
               /\ BlockScanner.contractsFound (BlockScanner.stats s')
                  = BlockScanner.contractsFound (BlockScanner.stats s)
                    + Z.of_nat (length (BlockScanner.detected X))).
  2: { intros s s' r Hs. apply H. by exists r. }
  intros s s' [r Hs]. revert Hs.
  apply (start_lifts w
           (fun s s' =>
              exists X,
                BlockScanner.trace s' = BlockScanner.trace s ++ X
                /\ BlockScanner.blocksProcessed (BlockScanner.stats s')
                   = BlockScanner.blocksProcessed (BlockScanner.stats s)
                     + Z.of_nat (length (BlockScanner.processed X))
                /\ BlockScanner.contractsFound (BlockScanner.stats s')
                   = BlockScanner.contractsFound (BlockScanner.stats s)
                     + Z.of_nat (length (BlockScanner.detected X)))).
  - apply counted_refl.
  - apply counted_trans.
  - intros. apply scan_batch_counted.
  - intros running paused s0. apply (counted_refl s0).
  - intros s0. by apply counted_quiet.
Qed.

Lemma start_counters_follow_trace_witness :
  exists X,
    BlockScanner.trace Examples.healthy_final
    = BlockScanner.trace (Examples.idle (Examples.historical_cfg 100 103 2))
      ++ X
    /\ BlockScanner.blocksProcessed
         (BlockScanner.stats Examples.healthy_final)
       = BlockScanner.blocksProcessed
           (BlockScanner.stats
              (Examples.idle (Examples.historical_cfg 100 103 2)))
         + Z.of_nat (length (BlockScanner.processed X))
    /\ BlockScanner.contractsFound
         (BlockScanner.stats Examples.healthy_final)
       = BlockScanner.contractsFound
           (BlockScanner.stats
              (Examples.idle (Examples.historical_cfg 100 103 2)))
         + Z.of_nat (length (BlockScanner.detected X)).
Proof.
  apply (start_counters_follow_trace Examples.healthy 4
           (Examples.idle (Examples.historical_cfg 100 103 2))
           Examples.healthy_final (Ok tt)).
  vm_compute. reflexivity.
Defined.

(** X9. Only a failed progress write counts as an error.  On a database that
    is open and takes every progress write, [start] leaves the error counter
    where it was, however many blocks could not be fetched and however many
    records could not be stored. *)
Theorem start_errors_unchanged (w : World) (fuel : nat)
    (s s' : BlockScanner.t) (r : result unit) :
  (forall n, db_progress_fault w n = false) ->
  BlockScanner.db_up (BlockScanner.database s) = true ->
  BlockScanner.start w fuel s = Some (r, s') ->
  BlockScanner.errors (BlockScanner.stats s')
  = BlockScanner.errors (BlockScanner.stats s).
Proof.
  intros Hfault Hup Hs.
  enough (H : BlockScanner.db_up (BlockScanner.database s) = true ->
              BlockScanner.errors (BlockScanner.stats s')
              = BlockScanner.errors (BlockScanner.stats s)
              /\ BlockScanner.db_up (BlockScanner.database s') = true)
    by (by apply H).
  revert Hs.
  apply (start_lifts w
           (fun s s' =>
              BlockScanner.db_up (BlockScanner.database s) = true ->
              BlockScanner.errors (BlockScanner.stats s')
              = BlockScanner.errors (BlockScanner.stats s)
              /\ BlockScanner.db_up (BlockScanner.database s') = true)).
  - done.
  - intros s1 s2 s3 H12 H23 H1.
    destruct (H12 H1) as [He2 H2]. destruct (H23 H2) as [He3 H3].
    split; [congruence|done].
  - intros cs endBlk s0 _ H0.
    set (ce := Z.min _ _).
    destruct (scan_batch_checkpoint w cs ce s0 H0 (Hfault ce)) as [He _].
    destruct (scan_batch_spec w cs ce s0) as [Hf _].
    apply frame_inv in Hf as (_ & _ & _ & _ & _ & Hup1).
    split; [exact He|congruence].
  - done.
  - done.
Qed.

Lemma start_errors_unchanged_witness :
  BlockScanner.errors
    (BlockScanner.stats
       (match BlockScanner.start Examples.failing_sink 1
                (Examples.idle (Examples.historical_cfg 100 100 2)) with
        | Some (_, s') => s'
        | None => Examples.idle (Examples.historical_cfg 100 100 2)
        end))
  = BlockScanner.errors
      (BlockScanner.stats (Examples.idle (Examples.historical_cfg 100 100 2))).
Proof.
  apply (start_errors_unchanged Examples.failing_sink 1 _ _ (Ok tt)).
  - intros n. reflexivity.
  - reflexivity.
  - vm_compute. reflexivity.
Defined.

(** X10. A completed historical pass leaves its end block as the checkpoint.
    On a database that is open and takes every progress write, with enough
    fuel for the determined range [a..b], [start] succeeds and the progress
    row of the network then holds [b]; a scanner opened later on that
    database, when [b] is not 0, determines a range that starts after [b]. *)
Theorem historical_pass_leaves_checkpoint (w : World) (fuel : nat)
    (s : BlockScanner.t) (a b : Z) :
  BlockScanner.scanMode (BlockScanner.scannerConfig s) = Database.historical ->
  BlockScanner.isRunning s = false ->
  BlockScanner.isPaused s = false ->
  0 < BlockScanner.batchSize (BlockScanner.scannerConfig s) ->
  BlockScanner.db_up (BlockScanner.database s) = true ->
  (forall n, db_progress_fault w n = false) ->
  BlockScanner.determineBlockRange w s = Ok (a, b) ->
  (Z.to_nat (b - a + 1) <= fuel)%nat ->
  exists s' row,
    BlockScanner.start w fuel s = Some (Ok tt, s')
    /\ Database.getScanningProgress
         (net_name (BlockScanner.networkConfig s)) (BlockScanner.database s')
       = Ok (Some row)
    /\ Database.last_scanned_block row = b
    /\ (b <> 0 ->
        forall (later : BlockScanner.t) (a' b' : Z),
          BlockScanner.networkConfig later = BlockScanner.networkConfig s ->
          BlockScanner.database later = BlockScanner.database s' ->
          BlockScanner.determineBlockRange w later = Ok (a', b') ->
          b < a').
Proof.
  intros Hmode Hrun Hpau Hsize Hup Hfault Hrange Hfuel.
  pose proof (determineBlockRange_ordered w s a b Hrange) as Hab.
  unfold BlockScanner.start, BlockScanner.start_entered. rewrite Hrun.
  cbn [BlockScanner.scannerConfig BlockScanner.with_flags]. rewrite Hmode.
  unfold BlockScanner.startHistoricalScanning.
  change (BlockScanner.determineBlockRange w
            (BlockScanner.with_flags true (BlockScanner.isPaused s) s))
    with (BlockScanner.determineBlockRange w s).
  rewrite Hrange. unfold BlockScanner.scanBlockRange.
  destruct (scan_loop_checkpoint w fuel a b
              (BlockScanner.with_flags true (BlockScanner.isPaused s) s))
    as (s' & row & -> & _ & Hget & Hlast & _); try done.
  exists s', row. split_and!; try done.
  intros Hnz later a' b' Hnet Hdb Hlater. rewrite <- Hlast.
  apply (determineBlockRange_after_checkpoint w later row a' b');
    [by rewrite Hnet, Hdb|by rewrite Hlast|done].
Qed.

Lemma historical_pass_leaves_checkpoint_witness :
  exists s' row,
    BlockScanner.start Examples.healthy 4
      (Examples.idle (Examples.historical_cfg 100 103 2)) = Some (Ok tt, s')
    /\ Database.getScanningProgress
         (net_name
            (BlockScanner.networkConfig
               (Examples.idle (Examples.historical_cfg 100 103 2))))
         (BlockScanner.database s')
       = Ok (Some row)
    /\ Database.last_scanned_block row = 103.
Proof.
  destruct (historical_pass_leaves_checkpoint Examples.healthy 4
              (Examples.idle (Examples.historical_cfg 100 103 2)) 100 103
              eq_refl eq_refl eq_refl ltac:(cbn; lia) eq_refl
              ltac:(intros n; reflexivity) ltac:(vm_compute; reflexivity)
              ltac:(cbn; lia))
    as (s' & row & Hs & Hget & Hlast & _).
  exists s', row. split_and!; done.
Defined.



(** ** Where the detector's records come from *)

Lemma lower_ascii_idem c : lower_ascii (lower_ascii c) = lower_ascii c.
Proof. destruct c as [[] [] [] [] [] [] [] []]; vm_compute; reflexivity. Qed.

Lemma toLowerCase_idem s : toLowerCase (toLowerCase s) = toLowerCase s.
Proof.
  induction s as [|c s IH]; [done|].
  cbn [toLowerCase]. by rewrite lower_ascii_idem, IH.
Qed.

Section RecordOrigin.
Variable w : World.
Variable p : EthereumProvider.t.
Variable d : ContractDetector.t.

(** The fields that [extractContractData] copies from the transaction, the
    block and the network configuration. *)
Local Abbreviation copied tx block r :=
  (creatorAddress r = toLowerCase (tx_from tx)
   /\ transactionHash r = tx_hash tx
   /\ blockNumber r = blk_number block
   /\ blockHash r = blk_hash block
   /\ blockTimestamp r = blk_timestamp block
   /\ network r = net_name (ContractDetector.networkConfig d)
   /\ chainId r = net_chainId (ContractDetector.networkConfig d)).

Lemma extractContractData_copied tx receipt block a r :
  ContractDetector.extractContractData w p d tx receipt block a = Some r ->
  copied tx block r.
Proof.
  unfold ContractDetector.extractContractData,
    ContractDetector.extractContractData_try.
  destruct (EthereumProvider.getCode w p a) as [[code|]|e]; [|done|done].
  destruct (_ || _); [done|].
  destruct (ContractDetector.analyzeBytecode d); [done|].
  intros [= <-]. done.
Qed.

Lemma create2_copied tx receipt block r :
  r ∈ ContractDetector.detectCreate2Contracts w p d tx receipt block ->
  copied tx block r.
Proof.
  unfold ContractDetector.detectCreate2Contracts.
  destruct (tx_data tx) as [data|]; [|by intros ?%elem_of_nil].
  destruct (includes "f5" data); [|by intros ?%elem_of_nil].
  rewrite list_elem_of_In, in_flat_map. intros (l & _ & Hin).
  destruct (log_address l) as [a|]; [|done].
  destruct (_ && _); [|done].
  destruct (ContractDetector.extractContractData w p d tx receipt block a)
    as [cd|] eqn:Hcd; [|done].
  destruct Hin as [<-|[]].
  apply extractContractData_copied in Hcd. exact Hcd.
Qed.

Lemma factory_copied receipt tx block r :
  r ∈ ContractDetector.detectFactoryContracts w p d receipt tx block ->
  copied tx block r.
Proof.
  unfold ContractDetector.detectFactoryContracts.
  rewrite elem_of_app. intros [H|H].
  - rewrite list_elem_of_In, in_flat_map in H. destruct H as (l & _ & Hin).
    unfold ContractDetector.factory_from_log in Hin.
    destruct (ContractDetector.is_creation_topic l); [|done].
    destruct (ContractDetector.extractAddressFromLog l) as [a|]; [|done].
    destruct (_ && _); [|done].
    destruct (ContractDetector.extractContractData w p d tx receipt block a)
      as [cd|] eqn:Hcd; [|done].
    destruct Hin as [<-|[]].
    apply extractContractData_copied in Hcd. exact Hcd.
  - destruct (tx_data tx) as [data|]; [|by apply elem_of_nil in H].
    destruct (_ && _); [|by apply elem_of_nil in H].
    by apply create2_copied in H.
Qed.

Lemma transaction_origin otx block l r :
  ContractDetector.processTransaction_try w p d otx block = Ok (Some l) ->
  r ∈ l ->
  exists tx receipt,
    otx = Some tx
    /\ truthy_str (tx_hash tx) = true
    /\ tx_to tx = None
    /\ EthereumProvider.getTransactionReceipt w p (tx_hash tx)
       = Ok (Some receipt)
    /\ rc_status receipt = Some 1
    /\ copied tx block r.
Proof.
  unfold ContractDetector.processTransaction_try,
    EthereumProvider.isContractCreation.
  destruct otx as [tx|]; [|done].
  destruct (truthy_str (tx_hash tx)) eqn:Hhash; [|done]. cbn [negb].
  destruct (tx_to tx) eqn:Hto; [done|]. cbn [negb].
  destruct (EthereumProvider.getTransactionReceipt w p (tx_hash tx))
    as [[receipt|]|e] eqn:Hrc; [|done|done].
  destruct (bool_decide_reflect (rc_status receipt = Some 1)) as [Hst|];
    [|done].
  cbn [negb]. intros [= <-] Hr.
  exists tx, receipt. do 5 (split; [done|]).
  apply elem_of_app in Hr as [H|H]; [|by apply factory_copied in H].
  destruct (rc_contractAddress receipt) as [a|]; [|by apply elem_of_nil in H].
  destruct (negb (String.eqb a "")); [|by apply elem_of_nil in H].
  destruct (ContractDetector.extractContractData w p d tx receipt block a)
    as [cd|] eqn:Hcd; [|by apply elem_of_nil in H].
  apply list_elem_of_singleton in H as ->.
  by apply extractContractData_copied in Hcd.
Qed.

Lemma processBlock_origin b contracts r :
  ContractDetector.processBlock w p d (Some b) = Ok contracts ->
  r ∈ contracts ->
  exists txs tx receipt,
    blk_transactions b = TxArray txs
    /\ Some tx ∈ txs
    /\ truthy_str (tx_hash tx) = true
    /\ tx_to tx = None
    /\ EthereumProvider.getTransactionReceipt w p (tx_hash tx)
       = Ok (Some receipt)
    /\ rc_status receipt = Some 1
    /\ copied tx b r.
Proof.
  intros Hblk Hr.
  destruct (blk_transactions b) as [| |txs] eqn:Htx.
  1,2: unfold ContractDetector.processBlock, ContractDetector.processBlock_try
      in Hblk; rewrite Htx in Hblk; injection Hblk as <-;
      by apply elem_of_nil in Hr.
  rewrite (processBlock_array w p d b txs Htx) in Hblk.
  injection Hblk as <-.
  rewrite list_elem_of_In, in_flat_map in Hr.
  destruct Hr as (otx & Hotx & Hin).
  apply filter_In in Hotx as [Hotx _].
  unfold ContractDetector.transaction_result,
    ContractDetector.processTransaction in Hin.
  destruct (ContractDetector.processTransaction_try w p d otx b)
    as [[l|]|e] eqn:Htry; cbn in Hin; try done.
  apply list_elem_of_In in Hin.
  destruct (transaction_origin otx b l r Htry Hin)
    as (tx & receipt & -> & H).
  exists txs, tx, receipt. split; [done|].
  split; [by apply list_elem_of_In|exact H].
Qed.

End RecordOrigin.

(** X12. Where a record comes from.  Every record that the detector returns
    for a block stems from a transaction of that block that has a hash and no
    destination and whose receipt reports success; it carries that
    transaction's hash, the sender in lower case, the block's number, hash
    and timestamp, and the network name and chain id of the configuration;
    its address is in lower case as well. *)
Theorem detector_record_origin (w : World) (p : EthereumProvider.t)
    (d : ContractDetector.t) (b : Block) (contracts : list ContractRecord)
    (r : ContractRecord) :
  ContractDetector.processBlock w p d (Some b) = Ok contracts ->
  r ∈ contracts ->
  (exists txs tx receipt,
      blk_transactions b = TxArray txs
      /\ Some tx ∈ txs
      /\ truthy_str (tx_hash tx) = true
      /\ tx_to tx = None
      /\ EthereumProvider.getTransactionReceipt w p (tx_hash tx)
         = Ok (Some receipt)
      /\ rc_status receipt = Some 1
      /\ transactionHash r = tx_hash tx
      /\ creatorAddress r = toLowerCase (tx_from tx))
  /\ blockNumber r = blk_number b
  /\ blockHash r = blk_hash b
  /\ blockTimestamp r = blk_timestamp b
  /\ network r = net_name (ContractDetector.networkConfig d)
  /\ chainId r = net_chainId (ContractDetector.networkConfig d)
  /\ toLowerCase (address r) = address r
  /\ toLowerCase (creatorAddress r) = creatorAddress r.
Proof.
  intros Hblk Hr.
  destruct (processBlock_origin w p d b contracts r Hblk Hr)
    as (txs & tx & receipt & Htxs & Htx & Hhash & Hto & Hrc & Hst
        & Hc & Hh & Hn & Hbh & Hts & Hnet & Hid).
  split_and!; try done.
  - exists txs, tx, receipt. split_and!; done.
  - rewrite (processBlock_array w p d b txs Htxs) in Hblk.
    injection Hblk as <-.
    rewrite list_elem_of_In, in_flat_map in Hr.
    destruct Hr as (otx & _ & Hin). apply list_elem_of_In in Hin.
    apply transaction_result_member in Hin as (a & _ & -> & _).
    apply toLowerCase_idem.
  - rewrite Hc. apply toLowerCase_idem.
Qed.

Lemma detector_record_origin_witness :
  blockNumber Examples.quiet_record = 100
  /\ toLowerCase (address Examples.quiet_record)
     = address Examples.quiet_record.
Proof.
  destruct (detector_record_origin Examples.healthy (Examples.connected 3)
              (ContractDetector.constructor Examples.mainnet false)
              (Examples.block_with 100 [Some Examples.quiet_tx])
              [Examples.quiet_record] Examples.quiet_record
              ltac:(vm_compute; reflexivity)
              ltac:(apply list_elem_of_singleton; reflexivity))
    as (_ & Hn & _ & _ & _ & _ & Ha & _).
  split; [exact Hn|exact Ha].
Defined.

(** ** What a working database receives *)

Section Stored.
Import BlockScanner.
Variable w : World.
Hypothesis no_fault : forall c, db_contract_fault w c = false.

Local Abbreviation has_row db a :=
  (exists row, row ∈ Database.contracts db /\ Database.c_address row = a).

(** From [s] to [s'], on a database that takes statements: no save failed,
    no address left the [contracts] table, and every record detected on the
    way has a row under its address. *)
Local Abbreviation stored s s' :=
  (db_up (database s) = true ->
   db_up (database s') = true
   /\ (forall a, has_row (database s) a -> has_row (database s') a)
   /\ exists X,
       trace s' = trace s ++ X
       /\ save_failed X = []
       /\ forall c, c ∈ detected X -> has_row (database s') (address c)).

Lemma stored_refl s : stored s s.
Proof.
  intros Hup. split_and!; try done.
  exists []. rewrite app_nil_r. split_and!; try done.
  by intros c ?%elem_of_nil.
Qed.

Lemma stored_trans s1 s2 s3 : stored s1 s2 -> stored s2 s3 -> stored s1 s3.
Proof.
  intros H12 H23 H1.
  destruct (H12 H1) as (H2 & Hkeep & X & Ht & Hf & Hd).
  destruct (H23 H2) as (H3 & Hkeep' & Y & Ht' & Hf' & Hd').
  split_and!; [done|by auto|].
  exists (X ++ Y). rewrite Ht', Ht, app_assoc, save_failed_app, Hf, Hf'.
  split_and!; try done.
  intros c. rewrite detected_app, elem_of_app. intros [Hc|Hc]; auto.
Qed.

Lemma stored_quiet evs s :
  save_failed evs = [] -> detected evs = [] -> stored s (log evs s).
Proof.
  intros Hf Hd Hup. split_and!; try done.
  exists evs. rewrite Hd. split_and!; try done.
  by intros c ?%elem_of_nil.
Qed.

Lemma saveContract_stores c h db :
  db_up db = true -> transactionHash c = Some h ->
  exists db',
    Database.saveContract w c db = (Ok tt, db')
    /\ db_up db' = true
    /\ has_row db' (address c)
    /\ (forall a, has_row db a -> has_row db' a).
Proof.
  intros Hup Hh. unfold db_up in *.
  apply andb_true_iff in Hup as [Hi Hc]. apply negb_true_iff in Hc.
  unfold Database.saveContract, Database.contract_row.
  rewrite Hi, Hc, no_fault, Hh. cbn [negb].
  eexists. split; [reflexivity|]. cbn. rewrite Hi, Hc.
  split_and!; [done| |].
  - eexists. split; [apply elem_of_app; right; apply list_elem_of_singleton;
                     reflexivity|done].
  - intros a (row & Hin & Ha).
    destruct (String.eqb_spec (Database.c_address row) (address c)) as [He|Hne].
    + eexists. split; [apply elem_of_app; right; apply list_elem_of_singleton;
                       reflexivity|]. cbn. congruence.
    + exists row. split; [|done]. apply elem_of_app. left.
      apply list_elem_of_In, filter_In. split; [by apply list_elem_of_In|].
      cbn. by destruct (String.eqb_spec (Database.c_address row) (address c)).
Qed.

Lemma saveContracts_stores cs :
  forall s,
    db_up (database s) = true ->
    (forall c, c ∈ cs -> exists h, transactionHash c = Some h) ->
    let s' := fold_left (save_one w) cs s in
    db_up (database s') = true
    /\ (forall a, has_row (database s) a -> has_row (database s') a)
    /\ (forall c, c ∈ cs -> has_row (database s') (address c))
    /\ exists X,
        trace s' = trace s ++ X /\ save_failed X = [] /\ detected X = [].
Proof.
  induction cs as [|c cs IH]; intros s Hup Hh; cbn zeta.
  { cbn. split_and!; try done; [by intros c ?%elem_of_nil|].
    exists []. by rewrite app_nil_r. }
  destruct (Hh c) as [h Hc]; [by left|].
  destruct (saveContract_stores c h (database s) Hup Hc)
    as (db' & Hsave & Hup' & Hrow & Hkeep).
  cbn [fold_left].
  set (s1 := log [EvSaved c] (with_database db' s)).
  assert (Hs1 : save_one w s c = s1) by (unfold save_one; by rewrite Hsave).
  rewrite Hs1.
  destruct (IH s1) as (Hup2 & Hkeep2 & Hrows2 & X & Ht & Hf & Hd);
    [done|by intros c' Hc'; apply Hh; right|].
  split_and!; [done| | |].
  - intros a Ha. apply Hkeep2. cbn. by apply Hkeep.
  - intros c' [->|Hc']%elem_of_cons; [by apply Hkeep2|by apply Hrows2].
  - exists ([EvSaved c] ++ X). rewrite Ht. cbn [trace s1 log with_database].
    rewrite <- app_assoc, save_failed_app, detected_app, Hf, Hd.
    split_and!; done.
Qed.

Lemma processBlock_stored blk s :
  exists s', processBlock w blk s = (Ok tt, s') /\ stored s s'.
Proof.
  destruct blk as [b|]; cbn.
  2: { exists s. split; [done|apply stored_refl]. }
  rewrite detector_processBlock_detect.
  set (cs := detect w (provider s) (detector s) b).
  assert (Hh : forall c, c ∈ cs -> exists h, transactionHash c = Some h).
  { intros c Hc.
    destruct (processBlock_origin w (provider s) (detector s) b cs c
                (detector_processBlock_detect w _ _ b) Hc)
      as (txs & tx & receipt & _ & _ & Hhash & _ & _ & _ & _ & -> & _).
    destruct (tx_hash tx) as [h|]; [by exists h|done]. }
  unfold saveContracts.
  set (s2 := log [EvDetected (blk_number b) cs]
               (with_currentBlock (Some (blk_number b)) s)).
  pose proof (saveContracts_stores (Database.settle_order w cs) s2) as Hsave.
  cbn zeta in Hsave.
  set (s3 := fold_left (save_one w) (Database.settle_order w cs) s2) in *.
  clearbody s3.
  destruct (length cs) eqn:Hlen.
  - apply nil_length_inv in Hlen. eexists. split; [done|].
    intros Hup. cbn. split_and!; try done.
    exists [EvDetected (blk_number b) cs]. rewrite Hlen. cbn.
    split_and!; try done. by intros c ?%elem_of_nil.
  - eexists. split; [done|]. intros Hup.
    destruct (Hsave Hup) as (Hup3 & Hkeep & Hrows & X & Ht & Hf & Hd).
    { intros c Hc%settle_order_elem. by apply Hh. }
    cbn. split_and!; try done.
    exists ([EvDetected (blk_number b) cs] ++ X).
    rewrite Ht, save_failed_app, detected_app, Hf, Hd, app_nil_r.
    cbn. rewrite <- app_assoc, !app_nil_r. split_and!; try done.
    intros c Hc. apply Hrows. by apply settle_order_elem.
Qed.

Lemma promise_all_stored (rs : list (Z * option Block)) s :
  exists s',
    promise_all
      (List.map (fun r : Z * option Block => processBlock w r.2) rs) s
    = (Ok tt, s')
    /\ stored s s'.
Proof.
  revert s. induction rs as [|r rs IH]; intros s; cbn.
  { exists s. split; [done|apply stored_refl]. }
  destruct (processBlock_stored r.2 s) as (s1 & -> & H1).
  destruct (IH s1) as (s2 & -> & H2).
  exists s2. split; [done|]. by eapply stored_trans.
Qed.

Lemma fetch_events_quiet (ns : list Z) :
  save_failed (EvFetch <$> ns) = [] /\ detected (EvFetch <$> ns) = [].
Proof. induction ns as [|n ns IH]; [done|exact IH]. Qed.

Lemma scan_batch_stored currentStart currentEnd s :
  stored s (scan_batch w currentStart currentEnd s).
Proof.
  unfold scan_batch, processBatch. rewrite getBatchBlocks_eq.
  match goal with
  | |- context [promise_all ?ps ?s1] =>
      destruct (promise_all_stored
                  (EthereumProvider.fetched_blocks w (provider s)
                     (seqZ currentStart (currentEnd - currentStart + 1))) s1)
        as (s2 & -> & H);
      assert (H0 : stored s s1)
  end.
  { apply stored_quiet; apply fetch_events_quiet. }
  eapply stored_trans; [exact H0|]. eapply stored_trans; [exact H|].
  clear H0 H.
  pose proof (updateScanningProgress_up w (net_name (networkConfig s2))
                currentEnd (scanMode (scannerConfig s2)) (database s2))
    as [Hup' _].
  assert (Hrows : Database.contracts
                    (Database.updateScanningProgress w
                       (net_name (networkConfig s2)) currentEnd
                       (scanMode (scannerConfig s2)) (database s2)).2
                  = Database.contracts (database s2)).
  { unfold Database.updateScanningProgress. repeat (case_match; try done). }
  destruct (Database.updateScanningProgress w _ _ _ _) as [[[]|e] db'];
    cbn in Hup', Hrows.
  - assert (Hdb : stored s2 (with_database db' s2)).
    { intros Hup. cbn. rewrite Hrows, Hup'. split_and!; try done.
      exists []. rewrite app_nil_r. split_and!; try done.
      by intros c ?%elem_of_nil. }
    eapply stored_trans; [exact Hdb|].
    cbn zeta. destruct (0 <? batchDelay _).
    + eapply stored_trans; [|by apply stored_quiet].
      by apply (stored_quiet [EvCheckpoint currentEnd] (with_database db' s2)).
    + by apply (stored_quiet [EvCheckpoint currentEnd] (with_database db' s2)).
  - intros Hup. cbn. rewrite Hrows, Hup'. split_and!; try done.
    exists []. rewrite app_nil_r. split_and!; try done.
    by intros c ?%elem_of_nil.
Qed.

Lemma start_stored fuel s r s' :
  start w fuel s = Some (r, s') -> stored s s'.
Proof.
  apply (start_lifts w (fun s s' => stored s s')).
  - apply stored_refl.
  - apply stored_trans.
  - intros cs endBlk s0 _. apply scan_batch_stored.
  - intros running paused s0. apply (stored_refl s0).
  - intros s0. by apply stored_quiet.
Qed.

End Stored.

(** X13. Nothing is lost on a working database.  When the database is open
    and refuses no contract row, [start] logs no failed save, every address
    that had a row keeps one, and every record detected during the call has
    a row under its address afterwards. *)
Theorem working_database_stores_every_record (w : World) (fuel : nat)
    (s s' : BlockScanner.t) (r : result unit) :
  (forall c, db_contract_fault w c = false) ->
  BlockScanner.db_up (BlockScanner.database s) = true ->
  BlockScanner.start w fuel s = Some (r, s') ->
  (forall a,
      (exists row, row ∈ Database.contracts (BlockScanner.database s)
                   /\ Database.c_address row = a) ->
      exists row, row ∈ Database.contracts (BlockScanner.database s')
                  /\ Database.c_address row = a)
  /\ exists X,
      BlockScanner.trace s' = BlockScanner.trace s ++ X
      /\ BlockScanner.save_failed X = []
      /\ forall c,
          c ∈ BlockScanner.detected X ->
          exists row, row ∈ Database.contracts (BlockScanner.database s')
                      /\ Database.c_address row = address c.
Proof.
  intros Hfault Hup Hs.
  destruct (start_stored w Hfault fuel s r s' Hs Hup) as (_ & Hkeep & HX).
  split; [exact Hkeep|exact HX].
Qed.

Lemma working_database_stores_every_record_witness :
  exists X,
    BlockScanner.trace Examples.healthy_final
    = BlockScanner.trace (Examples.idle (Examples.historical_cfg 100 103 2))
      ++ X
    /\ BlockScanner.save_failed X = []
    /\ forall c,
        c ∈ BlockScanner.detected X ->
        exists row,
          row ∈ Database.contracts
                  (BlockScanner.database Examples.healthy_final)
          /\ Database.c_address row = address c.
Proof.
  destruct (working_database_stores_every_record Examples.healthy 4
              (Examples.idle (Examples.historical_cfg 100 103 2))
              Examples.healthy_final (Ok tt)
              ltac:(intros c; reflexivity) eq_refl
              ltac:(vm_compute; reflexivity)) as [_ H].
  exact H.
Defined.

(** ** Pausing and stopping *)

(** X14. A paused scanner does no work.  [pause] on a running scanner only
    sets the flag; while it is set a delivered block is dropped and a range
    scan returns before its first batch, both without an exception and
    without any change to the scanner; a second [pause] changes nothing, and
    [resume] gives back the scanner as it was before the pause, so a range
    scan that was ended by the pause is not taken up again. *)
Theorem paused_scanner_does_no_work (w : World) (s : BlockScanner.t) :
  BlockScanner.isRunning s = true ->
  BlockScanner.isPaused s = false ->
  BlockScanner.pause s = BlockScanner.with_flags true true s
  /\ (forall blk,
        BlockScanner.onNewBlock w blk (BlockScanner.pause s)
        = (Ok tt, BlockScanner.pause s))
  /\ (forall fuel startBlk endBlk,
        BlockScanner.scanBlockRange w (S fuel) startBlk endBlk
          (BlockScanner.pause s)
        = Some (Ok tt, BlockScanner.pause s))
  /\ BlockScanner.pause (BlockScanner.pause s) = BlockScanner.pause s
  /\ BlockScanner.resume (BlockScanner.pause s) = s
  /\ BlockScanner.resume s = s.
Proof.
  intros Hrun Hpau.
  assert (Hp : BlockScanner.pause s = BlockScanner.with_flags true true s).
  { unfold BlockScanner.pause. by rewrite Hrun. }
  rewrite Hp. split_and!; try done.
  - intros fuel a b. unfold BlockScanner.scanBlockRange. cbn.
    by destruct (a <=? b).
  - unfold BlockScanner.resume. cbn. destruct s. cbn in *. by subst.
  - unfold BlockScanner.resume. rewrite Hrun. cbn. destruct s. cbn in *.
    by subst.
Qed.

Lemma paused_scanner_does_no_work_witness :
  BlockScanner.resume (BlockScanner.pause Examples.healthy_final)
  = Examples.healthy_final.
Proof.
  destruct (paused_scanner_does_no_work Examples.healthy Examples.healthy_final
              ltac:(vm_compute; reflexivity) ltac:(vm_compute; reflexivity))
    as (_ & _ & _ & _ & H & _).
  exact H.
Defined.

(** X15. [stop] ends the work and keeps the data.  Whatever the
    scanner's state, after [stop] a further [stop], a [pause] and a [resume]
    change nothing, a delivered block is dropped and a range scan returns
    before its first batch; the rows of both tables, the counters and the
    log are those from before the call.  When the scanner was running, the
    provider is left disconnected and the database closed. *)
Theorem stop_ends_work_and_keeps_data (w : World) (s : BlockScanner.t) :
  BlockScanner.isRunning (BlockScanner.stop s) = false
  /\ BlockScanner.stop (BlockScanner.stop s) = BlockScanner.stop s
  /\ BlockScanner.pause (BlockScanner.stop s) = BlockScanner.stop s
  /\ BlockScanner.resume (BlockScanner.stop s) = BlockScanner.stop s
  /\ (forall blk,
        BlockScanner.onNewBlock w blk (BlockScanner.stop s)
        = (Ok tt, BlockScanner.stop s))
  /\ (forall fuel startBlk endBlk,
        BlockScanner.scanBlockRange w (S fuel) startBlk endBlk
          (BlockScanner.stop s)
        = Some (Ok tt, BlockScanner.stop s))
  /\ Database.contracts (BlockScanner.database (BlockScanner.stop s))
     = Database.contracts (BlockScanner.database s)
  /\ Database.scanning_progress (BlockScanner.database (BlockScanner.stop s))
     = Database.scanning_progress (BlockScanner.database s)
  /\ BlockScanner.stats (BlockScanner.stop s) = BlockScanner.stats s
  /\ BlockScanner.trace (BlockScanner.stop s) = BlockScanner.trace s
  /\ (BlockScanner.isRunning s = true ->
      BlockScanner.db_up (BlockScanner.database (BlockScanner.stop s)) = false
      /\ EthereumProvider.isConnected
           (BlockScanner.provider (BlockScanner.stop s)) = false
      /\ BlockScanner.isPaused (BlockScanner.stop s) = false).
Proof.
  assert (Hoff : BlockScanner.isRunning (BlockScanner.stop s) = false).
  { unfold BlockScanner.stop. by destruct (BlockScanner.isRunning s) eqn:H. }
  split_and!; try done.
  - unfold BlockScanner.stop at 1. by rewrite Hoff.
  - unfold BlockScanner.pause. by rewrite Hoff.
  - unfold BlockScanner.resume. by rewrite Hoff.
  - intros blk. unfold BlockScanner.onNewBlock. by rewrite Hoff.
  - intros fuel a b. unfold BlockScanner.scanBlockRange. cbn.
    rewrite Hoff. by destruct (a <=? b).
  - unfold BlockScanner.stop. by destruct (BlockScanner.isRunning s).
  - unfold BlockScanner.stop. by destruct (BlockScanner.isRunning s).
  - unfold BlockScanner.stop. by destruct (BlockScanner.isRunning s).
  - unfold BlockScanner.stop. by destruct (BlockScanner.isRunning s).
  - intros Hrun. unfold BlockScanner.stop. rewrite Hrun. cbn.
    unfold BlockScanner.db_up. cbn. split_and!; try done.
    apply andb_false_r.
Qed.

Lemma stop_ends_work_and_keeps_data_witness :
  BlockScanner.db_up
    (BlockScanner.database (BlockScanner.stop Examples.healthy_final)) = false
  /\ Database.contracts
       (BlockScanner.database (BlockScanner.stop Examples.healthy_final))
     = Database.contracts (BlockScanner.database Examples.healthy_final).
Proof.
  destruct (stop_ends_work_and_keeps_data Examples.healthy
              Examples.healthy_final)
    as (_ & _ & _ & _ & _ & _ & Hrows & _ & _ & _ & Hrun).
  destruct (Hrun ltac:(vm_compute; reflexivity)) as (Hdown & _ & _).
  split; [exact Hdown|exact Hrows].
Defined.

(** ** The tables *)

Section TableFacts.
Variable w : World.

(** No two rows share an address or an id, and no id exceeds the sequence. *)
Local Abbreviation well_keyed db :=
  (NoDup (Database.c_address <$> Database.contracts db)
   /\ NoDup (Database.c_id <$> Database.contracts db)
   /\ Forall (fun row => Database.c_id row <= Database.contracts_seq db)
        (Database.contracts db)).

Lemma fmap_filter_sublist {A B} (f : A -> B) (P : A -> bool) (l : list A) :
  sublist (f <$> List.filter P l) (f <$> l).
Proof.
  induction l as [|x l IH]; cbn; [done|].
  destruct (P x); cbn; [by apply sublist_skip|by apply sublist_cons].
Qed.

Lemma saveContract_well_keyed c db :
  well_keyed db -> well_keyed (Database.saveContract w c db).2.
Proof.
  intros (Ha & Hi & Hb).
  unfold Database.saveContract.
  destruct (negb (Database.isInitialized db)); [done|].
  destruct (Database.closed db); [done|].
  destruct (db_contract_fault w c); [done|].
  unfold Database.contract_row.
  destruct (transactionHash c) as [h|]; [|done].
  cbn. rewrite !fmap_app. cbn. split_and!.
  - apply NoDup_app. split_and!.
    + eapply sublist_NoDup; [exact Ha|apply fmap_filter_sublist].
    + intros a Hin ->%list_elem_of_singleton.
      apply list_elem_of_fmap in Hin as (row & Hrow & Hin).
      apply list_elem_of_In, filter_In in Hin as [_ Hne].
      rewrite <- Hrow, String.eqb_refl in Hne. done.
    + apply NoDup_singleton.
  - apply NoDup_app. split_and!.
    + eapply sublist_NoDup; [exact Hi|apply fmap_filter_sublist].
    + intros i Hin ->%list_elem_of_singleton.
      apply list_elem_of_fmap in Hin as (row & Hrow & Hin).
      apply list_elem_of_In, filter_In in Hin as [Hin _].
      apply list_elem_of_In in Hin.
      rewrite Forall_forall in Hb. specialize (Hb row Hin). lia.
    + apply NoDup_singleton.
  - apply Forall_app. split.
    + apply Forall_forall. intros row Hin.
      apply list_elem_of_In, filter_In in Hin as [Hin _].
      apply list_elem_of_In in Hin.
      rewrite Forall_forall in Hb. specialize (Hb row Hin). lia.
    + apply Forall_singleton. cbn. lia.
Qed.

End TableFacts.

(** X16. The [contracts] table stays keyed by address.  After any sequence
    of [saveContract] calls on a freshly initialised database, whichever of
    them fail, no two rows share an address, no two rows share an id, and
    there are at most as many rows as calls. *)
Theorem contracts_table_keyed_by_address (w : World)
    (saves : list ContractRecord) :
  let db :=
    fold_left (fun db c => (Database.saveContract w c db).2) saves
      Database.initialized in
  NoDup (Database.c_address <$> Database.contracts db)
  /\ NoDup (Database.c_id <$> Database.contracts db)
  /\ (length (Database.contracts db) <= length saves)%nat.
Proof.
  cbn zeta.
  enough (H : forall db0,
             (NoDup (Database.c_address <$> Database.contracts db0)
              /\ NoDup (Database.c_id <$> Database.contracts db0)
              /\ Forall (fun row =>
                           Database.c_id row <= Database.contracts_seq db0)
                   (Database.contracts db0)) ->
             let db :=
               fold_left (fun db c => (Database.saveContract w c db).2) saves
                 db0 in
             NoDup (Database.c_address <$> Database.contracts db)
             /\ NoDup (Database.c_id <$> Database.contracts db)
             /\ (length (Database.contracts db)
                 <= length (Database.contracts db0) + length saves)%nat).
  { apply (H Database.initialized). cbn. split_and!; constructor. }
  induction saves as [|c saves IH]; intros db0 Hinv; cbn zeta.
  { cbn. destruct Hinv as (? & ? & _). split_and!; try done. lia. }
  cbn [fold_left].
  destruct (IH _ (saveContract_well_keyed w c db0 Hinv)) as (Ha & Hi & Hlen).
  split_and!; try done.
  etrans; [exact Hlen|].
  assert (length (Database.contracts (Database.saveContract w c db0).2)
          <= S (length (Database.contracts db0)))%nat; [|cbn; lia].
  unfold Database.saveContract.
  repeat (case_match; try (cbn; lia)).
  cbn. rewrite length_app. cbn.
  pose proof (filter_length_le
                (fun r => negb (String.eqb (Database.c_address r)
                                  (Database.c_address c0)))
                (Database.contracts db0)).
  lia.
Qed.

(** X17. The progress row of a network is a single overwritable cell.  On
    an open database whose driver takes the statement,
    [updateScanningProgress] succeeds, [getScanningProgress] for that network
    then returns a row with exactly the block number and the mode just
    written, whether the number is above or below the one stored before, and
    the answer for every other network is what it was. *)
Theorem progress_row_round_trip (w : World) (net : string) (n : Z)
    (mode : Database.ScanMode) (db : Database.t) :
  Database.isInitialized db = true ->
  Database.closed db = false ->
  db_progress_fault w n = false ->
  exists db' row,
    Database.updateScanningProgress w net n mode db = (Ok tt, db')
    /\ Database.getScanningProgress net db' = Ok (Some row)
    /\ Database.last_scanned_block row = n
    /\ Database.p_scan_mode row = mode
    /\ (forall net',
          net' <> net ->
          Database.getScanningProgress net' db'
          = Database.getScanningProgress net' db)
    /\ Database.contracts db' = Database.contracts db.
Proof.
  intros Hi Hc Hfault.
  unfold Database.updateScanningProgress. rewrite Hi, Hc, Hfault. cbn [negb].
  eexists. eexists. split; [reflexivity|].
  unfold Database.getScanningProgress. cbn. rewrite Hi, Hc. cbn.
  rewrite find_upsert by done. split_and!; try done.
  intros net' Hne. by rewrite find_upsert_other.
Qed.

Lemma progress_row_round_trip_witness :
  exists db' row,
    Database.updateScanningProgress Examples.healthy "Ethereum Mainnet" 7
      Database.historical (BlockScanner.database Examples.healthy_final)
    = (Ok tt, db')
    /\ Database.getScanningProgress "Ethereum Mainnet" db' = Ok (Some row)
    /\ Database.last_scanned_block row = 7.
Proof.
  destruct (progress_row_round_trip Examples.healthy "Ethereum Mainnet" 7
              Database.historical (BlockScanner.database Examples.healthy_final)
              ltac:(vm_compute; reflexivity) ltac:(vm_compute; reflexivity)
              eq_refl)
    as (db' & row & Hu & Hg & Hl & _).
  exists db', row. split_and!; done.
Defined.

(** X18. Analysis rows pile up.  The [contract_analysis] table has no
    unique column besides its id, so on an open database whose driver takes
    the statement every [saveContractAnalysis] adds one row and replaces
    none: the rows stored for the analysed address are those from before
    followed by the new one, and the rows of other addresses are as before. *)
Theorem saveContractAnalysis_appends
    (analysisData : ContractDetector.ContractAnalysis) (db : Database.t)
    (tbl : Database.AnalysisTable) :
  Database.isInitialized db = true ->
  Database.closed db = false ->
  exists tbl' row,
    Database.saveContractAnalysis false analysisData db tbl = (Ok tt, tbl')
    /\ Database.contract_analysis tbl'
       = Database.contract_analysis tbl ++ [row]
    /\ Database.ar_contract_address row
       = ContractDetector.an_contractAddress analysisData
    /\ Database.analysis_of
         (ContractDetector.an_contractAddress analysisData) tbl'
       = Database.analysis_of
           (ContractDetector.an_contractAddress analysisData) tbl
         ++ [row]
    /\ (forall a,
          a <> ContractDetector.an_contractAddress analysisData ->
          Database.analysis_of a tbl' = Database.analysis_of a tbl).
Proof.
  intros Hi Hc. unfold Database.saveContractAnalysis.
  rewrite Hi, Hc. cbn [negb].
  eexists. eexists. split; [reflexivity|]. cbn.
  split_and!; try done.
  - unfold Database.analysis_of. cbn. rewrite List.filter_app. cbn.
    by rewrite String.eqb_refl.
  - intros a Hne. unfold Database.analysis_of. cbn.
    rewrite List.filter_app. cbn.
    destruct (String.eqb_spec
                (ContractDetector.an_contractAddress analysisData) a);
      [congruence|]. by rewrite app_nil_r.
Qed.

Lemma saveContractAnalysis_appends_witness :
  exists tbl1 tbl2 row1 row2,
    Database.saveContractAnalysis false Examples.sample_analysis
      Database.initialized Database.no_analysis
    = (Ok tt, tbl1)
    /\ Database.contract_analysis tbl1
       = Database.contract_analysis Database.no_analysis ++ [row1]
    /\ Database.saveContractAnalysis false Examples.sample_analysis
         Database.initialized tbl1
       = (Ok tt, tbl2)
    /\ Database.contract_analysis tbl2
       = Database.contract_analysis tbl1 ++ [row2].
Proof.
  destruct (saveContractAnalysis_appends Examples.sample_analysis
              Database.initialized Database.no_analysis eq_refl eq_refl)
    as (tbl1 & row1 & H1 & Hrows1 & _).
  destruct (saveContractAnalysis_appends Examples.sample_analysis
              Database.initialized tbl1 eq_refl eq_refl)
    as (tbl2 & row2 & H2 & Hrows2 & _).
  exists tbl1, tbl2, row1, row2. split_and!; done.
Defined.

(** ** Bytecode analysis *)

Lemma length_substring_le s :
  forall n m, (String.length (String.substring n m s) <= String.length s)%nat.
Proof.
  induction s as [|c s IH]; intros [|n] [|m]; cbn; try lia.
  - specialize (IH 0%nat m). lia.
  - specialize (IH n 0%nat). lia.
  - specialize (IH n (S m)). lia.
Qed.

Lemma selector_at_length s :
  ContractDetector.selector_at s = true -> (10 <= String.length s)%nat.
Proof.
  unfold ContractDetector.selector_at. cbn zeta.
  intros [[Hlen%Nat.eqb_eq _]%andb_true_iff _]%andb_true_iff.
  pose proof (length_substring_le s 0 10). lia.
Qed.

Lemma log_topic_at_length s :
  ContractDetector.log_topic_at s = true -> (64 <= String.length s)%nat.
Proof.
  unfold ContractDetector.log_topic_at. cbn zeta.
  intros [[[Hlen%Nat.eqb_eq _]%andb_true_iff _]%andb_true_iff _]%andb_true_iff.
  pose proof (length_substring_le s 0 64). lia.
Qed.

(** Matches do not overlap: each takes [width] characters of the string. *)
Lemma count_matches_bound (at_start : string -> bool) (width : nat) :
  (1 <= width)%nat ->
  (forall s, at_start s = true -> (width <= String.length s)%nat) ->
  forall s skip,
    (ContractDetector.count_matches at_start width skip s * width
     + Nat.min skip (String.length s) <= String.length s)%nat.
Proof.
  intros Hw Hat s. induction s as [|c s IH]; intros skip.
  { cbn. lia. }
  cbn [ContractDetector.count_matches]. destruct skip as [|k].
  - destruct (at_start (String c s)) eqn:Hm.
    + apply Hat in Hm. cbn [String.length] in *.
      specialize (IH (width - 1)%nat). lia.
    + specialize (IH 0%nat). cbn [String.length]. lia.
  - specialize (IH k). cbn [String.length]. lia.
Qed.

(** X19. What [analyzeContractBytecode] reports.  The analysis always
    returns an object, for the address in lower case; its size field is the
    number of whole bytes after the two-character prefix; and since the
    matches of a global pattern do not overlap, ten times the function count
    and sixty-four times the event count are at most the length of the
    bytecode string. *)
Theorem analyzeContractBytecode_counts (bytecode contractAddress : string) :
  exists analysis,
    ContractDetector.analyzeContractBytecode bytecode contractAddress
    = Some analysis
    /\ ContractDetector.an_contractAddress analysis
       = toLowerCase contractAddress
    /\ 2 * ContractDetector.an_bytecodeSize analysis + 2
       <= Z.of_nat (String.length bytecode)
       <= 2 * ContractDetector.an_bytecodeSize analysis + 3
    /\ (10 * ContractDetector.an_functionCount analysis
        <= String.length bytecode)%nat
    /\ (64 * ContractDetector.an_eventCount analysis
        <= String.length bytecode)%nat.
Proof.
  unfold ContractDetector.analyzeContractBytecode.
  eexists. split; [reflexivity|]. cbn. split_and!; try done.
  - pose proof (Z.div_mod (Z.of_nat (String.length bytecode) - 2) 2).
    pose proof (Z.mod_pos_bound (Z.of_nat (String.length bytecode) - 2) 2).
    lia.
  - pose proof (Z.div_mod (Z.of_nat (String.length bytecode) - 2) 2).
    pose proof (Z.mod_pos_bound (Z.of_nat (String.length bytecode) - 2) 2).
    lia.
  - pose proof (count_matches_bound ContractDetector.selector_at 10
                  ltac:(lia) selector_at_length bytecode 0).
    lia.
  - pose proof (count_matches_bound ContractDetector.log_topic_at 64
                  ltac:(lia) log_topic_at_length bytecode 0).
    lia.
Qed.

(** ** Housekeeping *)

(** X20. [cleanupArray] keeps the newest entries.  The array is cut into the
    removed front part, whose length is the number returned, and the part
    that stays; what stays has at most [maxSize] elements (none when
    [maxSize] is negative) and nothing is removed from an array that is
    within the bound; a second call removes nothing. *)
Theorem cleanupArray_keeps_newest {A : Type} (arr : list A) (maxSize : Z) :
  let kept := (MemoryMonitor.cleanupArray arr maxSize).1 in
  let count := (MemoryMonitor.cleanupArray arr maxSize).2 in
  (exists removed,
      arr = removed ++ kept /\ count = Z.of_nat (length removed))
  /\ Z.of_nat (length kept)
     = Z.max 0 (Z.min maxSize (Z.of_nat (length arr)))
  /\ (Z.of_nat (length arr) <= maxSize -> kept = arr /\ count = 0)
  /\ MemoryMonitor.cleanupArray kept maxSize = (kept, 0).
Proof.
  cbn zeta. unfold MemoryMonitor.cleanupArray.
  destruct (Z.ltb_spec maxSize (Z.of_nat (length arr))) as [Hlt|Hge]; cbn.
  - set (n := Z.to_nat (Z.min (Z.of_nat (length arr) - maxSize)
                          (Z.of_nat (length arr)))).
    split_and!.
    + exists (take n arr). by rewrite take_drop.
    + rewrite length_drop. lia.
    + lia.
    + rewrite length_drop.
      destruct (Z.ltb_spec maxSize (Z.of_nat (length arr - n))) as [Hlt'|_];
        [|done].
      assert (Hneg : maxSize < 0) by lia.
      assert (Hall : (length arr <= n)%nat) by lia.
      rewrite (drop_ge arr n Hall), drop_nil, take_nil. done.
  - split_and!; try done.
    + exists []. done.
    + lia.
    + destruct (Z.ltb_spec maxSize (Z.of_nat (length arr))); [lia|done].
Qed.

Lemma cleanupArray_keeps_newest_witness :
  (exists removed : list Z,
      [1; 2; 3] = removed ++ (MemoryMonitor.cleanupArray [1; 2; 3] 2).1
      /\ (MemoryMonitor.cleanupArray [1; 2; 3] 2).2
         = Z.of_nat (length removed))
  /\ MemoryMonitor.cleanupArray (MemoryMonitor.cleanupArray [1; 2; 3] 2).1 2
     = ((MemoryMonitor.cleanupArray [1; 2; 3] 2).1, 0).
Proof.
  destruct (cleanupArray_keeps_newest [1; 2; 3] 2) as (Hcut & _ & _ & Hidem).
  split; [exact Hcut|exact Hidem].
Defined.

(** X21. Which messages the logger lets through.  With a configured level
    that is one of the four known names, a message is let through exactly
    when its level is one of the four and not below the configured one, so
    [error] messages always pass and whatever passes at one level passes at
    every higher one.  With any other configured level no message at one of
    the four levels passes, not even an error; a configured level that names
    an inherited member of the table lets through only levels that name
    inherited members too, itself among them. *)
Theorem shouldLog_threshold (logLevel : string) :
  (forall configured,
      Logger.levels logLevel = Logger.level_priority configured ->
      Logger.shouldLog logLevel "error" = true
      /\ Logger.shouldLog logLevel logLevel = true
      /\ (forall level,
            Logger.shouldLog logLevel level = true
            <-> exists l,
                Logger.levels level = Logger.level_priority l
                /\ configured <= l)
      /\ (forall level level' l l',
            Logger.levels level = Logger.level_priority l ->
            Logger.levels level' = Logger.level_priority l' ->
            l <= l' ->
            Logger.shouldLog logLevel level = true ->
            Logger.shouldLog logLevel level' = true))
  /\ ((forall n, Logger.levels logLevel <> Logger.level_priority n) ->
      forall level l,
        Logger.levels level = Logger.level_priority l ->
        Logger.shouldLog logLevel level = false)
  /\ (forall text,
        Logger.levels logLevel = Logger.level_inherited text ->
        Logger.shouldLog logLevel logLevel = true
        /\ forall level,
            Logger.shouldLog logLevel level = true ->
            exists text', Logger.levels level = Logger.level_inherited text').
Proof.
  split_and!.
  - intros configured Hcfg.
    assert (Hmax : configured <= 3).
    { unfold Logger.levels in Hcfg.
      repeat (case_match; try done; try (injection Hcfg as <-; lia)). }
    unfold Logger.shouldLog. rewrite Hcfg. split_and!.
    + cbn. by apply Z.leb_le.
    + apply Z.leb_le. lia.
    + intros level. destruct (Logger.levels level) as [l|t|]; split.
      * intros Hle%Z.leb_le. by exists l.
      * intros (l0 & [= <-] & Hle). by apply Z.leb_le.
      * done.
      * by intros (l0 & [=] & _).
      * done.
      * by intros (l0 & [=] & _).
    + intros level level' l l' -> -> Hle Hpass%Z.leb_le.
      apply Z.leb_le. lia.
  - intros Hnot level l Hl. unfold Logger.shouldLog. rewrite Hl.
    destruct (Logger.levels logLevel) as [n|t|] eqn:Hcfg; try done.
    by destruct (Hnot n).
  - intros text Hcfg. unfold Logger.shouldLog. rewrite Hcfg. split.
    + destruct (String.leb_total text text); done.
    + intros level. destruct (Logger.levels level) as [l|t|]; try done.
      intros _. by exists t.
Qed.

Lemma shouldLog_threshold_witness :
  Logger.shouldLog "warn" "error" = true
  /\ Logger.shouldLog "verbose" "error" = false
  /\ Logger.shouldLog "toString" "error" = false
  /\ Logger.shouldLog "toString" "toString" = true.
Proof.
  destruct (shouldLog_threshold "warn") as (Hknown & _ & _).
  destruct (shouldLog_threshold "verbose") as (_ & Hverbose & _).
  destruct (shouldLog_threshold "toString") as (_ & Hmember & Hself).
  split_and!.
  - destruct (Hknown 2 eq_refl) as [H _]. exact H.
  - apply (Hverbose ltac:(intros n; discriminate) "error" 3 eq_refl).
  - apply (Hmember ltac:(intros n; discriminate) "error" 3 eq_refl).
  - destruct (Hself (Logger.native_function "toString") eq_refl) as [H _].
    exact H.
Defined.

(** The sample analysis is what the code computes for the sample bytecode. *)
Lemma sample_analysis_computed :
  ContractDetector.analyzeContractBytecode Examples.sample_bytecode
    Examples.created
  = Some Examples.sample_analysis.
Proof. vm_compute. reflexivity. Qed.
